(** * StudyBility: chat session pipeline, store adapter, proxy rate limiter

    A shallow embedding of the TypeScript sources of the tutoring chat
    client (the [useLocalStorage] store adapter, the [useChat] message
    pipeline, the [/api/chat] proxy endpoint with the model provider
    behind it, and the text helpers of [lib/utils.ts]), with the
    properties of its specification stated and settled against it, and
    further properties of the same code.

    Conventions.
    - JavaScript strings are modelled as [string]: sequences of code units
      below 256 (the Latin-1 range).
    - JavaScript numbers that the program uses as counters and epoch
      timestamps are modelled as [Z].
    - [Date.now()], [generateId()], [fetch] and, in the proxy, the model
      provider are the sources of non-determinism; their results are
      passed in explicitly. *)

From Stdlib Require Import ZArith NArith Ascii String List Bool Lia.
From Stdlib Require Import DecimalString DecimalN.
From Stdlib Require Import Sorting.Sorted Sorting.Permutation.
From stdpp Require Import gmap strings list vector.

Set Warnings "-register-all".

Local Open Scope list_scope.
Local Open Scope Z_scope.

(* ===================================================================== *)
(** * Part I: the program *)
(* ===================================================================== *)

(* --------------------------------------------------------------------- *)
(** ** JSON text: [JSON.stringify] and [JSON.parse] *)
(* --------------------------------------------------------------------- *)

Module Json.

Local Open Scope char_scope.

(** JSON values. Object members keep their insertion order, which is the
  order [JSON.stringify] prints them in. *)
Inductive json : Type :=
| JNull
| JBool (b : bool)
| JNum (n : Z)
| JStr (s : string)
| JArr (l : list json)
| JObj (l : list (string * json)).

Definition dquote : ascii := "034".
Definition backslash : ascii := "092".

Definition is_ws (c : ascii) : bool :=
Ascii.eqb c " " || Ascii.eqb c "009" || Ascii.eqb c "010" || Ascii.eqb c "013".

Fixpoint skip_ws (s : list ascii) : list ascii :=
match s with
| c :: r => if is_ws c then skip_ws r else s
| [] => []
end.

Definition is_digit (c : ascii) : bool :=
(48 <=? nat_of_ascii c)%nat && (nat_of_ascii c <=? 57)%nat.

(** *** Printing *)

Definition print_N (n : N) : list ascii :=
list_ascii_of_string (NilEmpty.string_of_uint (N.to_uint n)).

Definition print_Z (z : Z) : list ascii :=
if (z <? 0)%Z then "-" :: print_N (Z.to_N (- z)) else print_N (Z.to_N z).

Definition hex_digit (n : nat) : ascii :=
if (n <? 10)%nat then ascii_of_nat (48 + n) else ascii_of_nat (87 + n).

(** QuoteJSONString: the two-character escapes, [\u00xx] for the other
  control characters, every other code unit as it is. *)
Definition escape_char (c : ascii) : list ascii :=
let n := nat_of_ascii c in
if Ascii.eqb c dquote then [backslash; dquote]
else if Ascii.eqb c backslash then [backslash; backslash]
else if (n =? 8)%nat then [backslash; "b"]
else if (n =? 12)%nat then [backslash; "f"]
else if (n =? 10)%nat then [backslash; "n"]
else if (n =? 13)%nat then [backslash; "r"]
else if (n =? 9)%nat then [backslash; "t"]
else if (n <? 32)%nat
     then [backslash; "u"; "0"; "0"; hex_digit (n / 16); hex_digit (n mod 16)]
else [c].

Fixpoint escape (s : string) : list ascii :=
match s with
| EmptyString => []
| String c r => escape_char c ++ escape r
end.

Definition print_string (s : string) : list ascii :=
dquote :: escape s ++ [dquote].

Fixpoint print (j : json) : list ascii :=
match j with
| JNull => ["n"; "u"; "l"; "l"]
| JBool true => ["t"; "r"; "u"; "e"]
| JBool false => ["f"; "a"; "l"; "s"; "e"]
| JNum n => print_Z n
| JStr s => print_string s
| JArr l =>
    "[" :: (fix elems (l : list json) : list ascii :=
              match l with
              | [] => ["]"]
              | x :: l' =>
                  match l' with
                  | [] => print x ++ ["]"]
                  | _ :: _ => print x ++ "," :: elems l'
                  end
              end) l
| JObj l =>
    "{" :: (fix members (l : list (string * json)) : list ascii :=
              match l with
              | [] => ["}"]
              | (k, x) :: l' =>
                  match l' with
                  | [] => print_string k ++ ":" :: print x ++ ["}"]
                  | _ :: _ => print_string k ++ ":" :: print x ++ "," :: members l'
                  end
              end) l
end.

(** [JSON.stringify(v)] for a value without [undefined], functions or
  non-finite numbers. *)
Definition stringify (j : json) : string := string_of_list_ascii (print j).

(** *** Parsing *)

Definition hex_value (c : ascii) : option nat :=
let n := nat_of_ascii c in
if (48 <=? n)%nat && (n <=? 57)%nat then Some (n - 48)%nat
else if (97 <=? n)%nat && (n <=? 102)%nat then Some (n - 87)%nat
else if (65 <=? n)%nat && (n <=? 70)%nat then Some (n - 55)%nat
else None.

(** The code unit of a four-digit [\u] escape; code units from 256 on are
  outside the modelled range. *)
Definition unicode_escape (a b c d : ascii) : option ascii :=
match hex_value a, hex_value b, hex_value c, hex_value d with
| Some x, Some y, Some z, Some w =>
    let n := (4096 * x + 256 * y + 16 * z + w)%nat in
    if (n <? 256)%nat then Some (ascii_of_nat n) else None
| _, _, _, _ => None
end.

Definition simple_escape (e : ascii) : option ascii :=
if Ascii.eqb e dquote then Some dquote
else if Ascii.eqb e backslash then Some backslash
else if Ascii.eqb e "/" then Some "/"
else if Ascii.eqb e "b" then Some "008"
else if Ascii.eqb e "f" then Some "012"
else if Ascii.eqb e "n" then Some "010"
else if Ascii.eqb e "r" then Some "013"
else if Ascii.eqb e "t" then Some "009"
else None.

(** The characters of a string literal after its opening quote, up to and
  including the closing quote. *)
Fixpoint parse_chars (s : list ascii) : option (string * list ascii) :=
match s with
| [] => None
| c :: r =>
    if Ascii.eqb c dquote then Some (EmptyString, r)
    else if Ascii.eqb c backslash then
      match r with
      | [] => None
      | e :: r1 =>
          if Ascii.eqb e "u" then
            match r1 with
            | a :: b :: c' :: d :: r2 =>
                match unicode_escape a b c' d, parse_chars r2 with
                | Some u, Some (cs, r3) => Some (String u cs, r3)
                | _, _ => None
                end
            | _ => None
            end
          else
            match simple_escape e, parse_chars r1 with
            | Some u, Some (cs, r3) => Some (String u cs, r3)
            | _, _ => None
            end
      end
    else if (nat_of_ascii c <? 32)%nat then None
    else
      match parse_chars r with
      | Some (cs, r3) => Some (String c cs, r3)
      | None => None
      end
end.

(** The longest prefix of decimal digits, and what follows it. *)
Fixpoint span_digits (s : list ascii) : list ascii * list ascii :=
match s with
| c :: r =>
    if is_digit c then let '(ds, r') := span_digits r in (c :: ds, r')
    else ([], s)
| [] => ([], [])
end.

(** An unsigned integer literal. Fractions and exponents are not
  modelled: the program stores counters and epoch milliseconds only. *)
Definition parse_N (s : list ascii) : option (N * list ascii) :=
let '(ds, r) := span_digits s in
match ds with
| [] => None
| _ :: _ =>
    match NilEmpty.uint_of_string (string_of_list_ascii ds) with
    | Some u => Some (N.of_uint u, r)
    | None => None
    end
end.

Fixpoint expect (lit : list ascii) (s : list ascii) : option (list ascii) :=
match lit, s with
| [], _ => Some s
| c :: lit', d :: s' => if Ascii.eqb c d then expect lit' s' else None
| _ :: _, [] => None
end.

Fixpoint parse_value (fuel : nat) (s : list ascii) {struct fuel}
: option (json * list ascii) :=
match fuel with
| O => None
| S fuel' =>
    match skip_ws s with
    | [] => None
    | c :: r =>
        if Ascii.eqb c "n" then
          match expect ["u"; "l"; "l"] r with
          | Some r' => Some (JNull, r') | None => None end
        else if Ascii.eqb c "t" then
          match expect ["r"; "u"; "e"] r with
          | Some r' => Some (JBool true, r') | None => None end
        else if Ascii.eqb c "f" then
          match expect ["a"; "l"; "s"; "e"] r with
          | Some r' => Some (JBool false, r') | None => None end
        else if Ascii.eqb c dquote then
          match parse_chars r with
          | Some (cs, r') => Some (JStr cs, r') | None => None end
        else if Ascii.eqb c "[" then
          match skip_ws r with
          | [] => None
          | c' :: r' =>
              if Ascii.eqb c' "]" then Some (JArr [], r')
              else
                match parse_elements fuel' (c' :: r') with
                | Some (l, r'') => Some (JArr l, r'') | None => None end
          end
        else if Ascii.eqb c "{" then
          match skip_ws r with
          | [] => None
          | c' :: r' =>
              if Ascii.eqb c' "}" then Some (JObj [], r')
              else
                match parse_members fuel' (c' :: r') with
                | Some (l, r'') => Some (JObj l, r'') | None => None end
          end
        else if Ascii.eqb c "-" then
          match parse_N r with
          | Some (n, r') => Some (JNum (- Z.of_N n), r') | None => None end
        else
          match parse_N (c :: r) with
          | Some (n, r') => Some (JNum (Z.of_N n), r') | None => None end
    end
end

with parse_elements (fuel : nat) (s : list ascii) {struct fuel}
: option (list json * list ascii) :=
match fuel with
| O => None
| S fuel' =>
    match parse_value fuel' s with
    | None => None
    | Some (v, r) =>
        match skip_ws r with
        | [] => None
        | c :: r' =>
            if Ascii.eqb c "," then
              match parse_elements fuel' r' with
              | Some (l, r'') => Some (v :: l, r'') | None => None end
            else if Ascii.eqb c "]" then Some ([v], r')
            else None
        end
    end
end

with parse_members (fuel : nat) (s : list ascii) {struct fuel}
: option (list (string * json) * list ascii) :=
match fuel with
| O => None
| S fuel' =>
    match skip_ws s with
    | [] => None
    | q :: r0 =>
        if Ascii.eqb q dquote then
          match parse_chars r0 with
          | None => None
          | Some (k, r1) =>
              match skip_ws r1 with
              | [] => None
              | colon :: r2 =>
                  if Ascii.eqb colon ":" then
                    match parse_value fuel' r2 with
                    | None => None
                    | Some (v, r3) =>
                        match skip_ws r3 with
                        | [] => None
                        | c :: r4 =>
                            if Ascii.eqb c "," then
                              match parse_members fuel' r4 with
                              | Some (l, r5) => Some ((k, v) :: l, r5)
                              | None => None
                              end
                            else if Ascii.eqb c "}" then Some ([(k, v)], r4)
                            else None
                        end
                    end
                  else None
              end
          end
        else None
    end
end.

(** [JSON.parse(text)]: one value, then only whitespace. [None] stands
  for the [SyntaxError] it throws. The nesting depth of a text is below
  its length, which is the fuel given. *)
Definition parse (text : string) : option json :=
let s := list_ascii_of_string text in
match parse_value (S (List.length s)) s with
| Some (j, r) => match skip_ws r with [] => Some j | _ :: _ => None end
| None => None
end.

End Json.

Import Json.

(* --------------------------------------------------------------------- *)
(** ** JavaScript string primitives *)
(* --------------------------------------------------------------------- *)

Module JsString.

(** White space and line terminators below 256: TAB, LF, VT, FF, CR,
    SP and NBSP. The same class is [\s] in a regular expression and
    what [trim] removes. *)
Definition is_space (c : ascii) : bool :=
  let n := nat_of_ascii c in
  ((9 <=? n) && (n <=? 13) || (n =? 32) || (n =? 160))%nat.

(** [\w]: ASCII letters, digits and underscore. *)
Definition is_word (c : ascii) : bool :=
  let n := nat_of_ascii c in
  ((48 <=? n) && (n <=? 57) || (65 <=? n) && (n <=? 90)
   || (n =? 95) || (97 <=? n) && (n <=? 122))%nat.

Fixpoint trimStart_chars (s : list ascii) : list ascii :=
  match s with
  | c :: r => if is_space c then trimStart_chars r else s
  | [] => []
  end.

Definition trim_chars (s : list ascii) : list ascii :=
  rev (trimStart_chars (rev (trimStart_chars s))).

(** [s.trim()] *)
Definition trim (s : string) : string :=
  string_of_list_ascii (trim_chars (list_ascii_of_string s)).

(** [s.slice(0, n)] *)
Definition slice0 (n : nat) (s : string) : string := String.substring 0 n s.

(** [s.includes(needle)] *)
Fixpoint includes (needle s : string) : bool :=
  String.prefix needle s ||
  match s with
  | EmptyString => false
  | String _ r => includes needle r
  end.

(** One code unit of [toLowerCase()]: A-Z, and the Latin-1 capitals
    U+00C0 to U+00DE without the multiplication sign. *)
Definition lower_char (c : ascii) : ascii :=
  let n := nat_of_ascii c in
  if ((65 <=? n) && (n <=? 90))%nat then ascii_of_nat (n + 32)
  else if ((192 <=? n) && (n <=? 222) && negb (n =? 215))%nat
       then ascii_of_nat (n + 32)
  else c.

Definition toLowerCase_chars (s : list ascii) : list ascii := map lower_char s.

(** [String(n)] for an integer. *)
Definition ofZ (n : Z) : string := string_of_list_ascii (Json.print_Z n).

End JsString.

(* --------------------------------------------------------------------- *)
(** ** Data model ([types/index.ts]) *)
(* --------------------------------------------------------------------- *)

Inductive Role : Type := user | assistant.

Inductive DifficultyLevel : Type := beginner | intermediate | advanced.

(** Optional fields ([isBookmarked?], [subject?], ...) are [option]s:
    [None] is the absent ([undefined]) field, which [JSON.stringify]
    leaves out. *)
Module Message.
Record t : Type := mk {
  id : string;
  content : string;
  role : Role;
  timestamp : Z;
  isBookmarked : option bool;
  isError : option bool
}.
End Message.

Module ChatSession.
Record t : Type := mk {
  id : string;
  title : string;
  messages : list Message.t;
  createdAt : Z;
  updatedAt : Z;
  subject : option string;
  difficulty : option DifficultyLevel
}.
End ChatSession.

Module ProgressStats.
Record t : Type := mk {
  totalSessions : Z;
  totalMessages : Z;
  timeSpent : Z;
  topicsExplored : list string;
  favoriteSubjects : list string;
  streakDays : Z;
  lastActiveDate : string
}.
End ProgressStats.

#[global] Instance Role_eq_dec : EqDecision Role.
Proof. solve_decision. Defined.

(** JavaScript truthiness of a possibly absent string and of a possibly
    absent boolean. *)
Definition truthy_string (o : option string) : bool :=
  match o with
  | Some s => negb (String.eqb s "")
  | None => false
  end.

Definition truthy_bool (o : option bool) : bool :=
  match o with
  | Some b => b
  | None => false
  end.

(* --------------------------------------------------------------------- *)
(** ** Values as JSON objects *)
(* --------------------------------------------------------------------- *)

(** The members of each object are listed in the order the program
    creates them: object literals fix the order of the required fields,
    spreads ([{...session, messages, updatedAt}]) keep it, [isError] is
    set when an error message is built and [isBookmarked] is added by
    the bookmark toggle afterwards. *)

Class Persistable (T : Type) : Type := {
  toJSON : T -> json;
  fromJSON : json -> option T
}.

Fixpoint assoc (k : string) (l : list (string * json)) : option json :=
  match l with
  | [] => None
  | (k', v) :: l' => if String.eqb k k' then Some v else assoc k l'
  end.

Definition opt_member {A : Type} (k : string) (f : A -> json) (o : option A)
  : list (string * json) :=
  match o with
  | Some a => [(k, f a)]
  | None => []
  end.

Definition opt_field {A : Type} (f : json -> option A) (o : option json)
  : option (option A) :=
  match o with
  | None => Some None
  | Some j => match f j with Some a => Some (Some a) | None => None end
  end.

Definition as_bool (j : json) : option bool :=
  match j with JBool b => Some b | _ => None end.

Definition as_string (j : json) : option string :=
  match j with JStr s => Some s | _ => None end.

Definition as_number (j : json) : option Z :=
  match j with JNum n => Some n | _ => None end.

Definition Role_toString (r : Role) : string :=
  match r with user => "user" | assistant => "assistant" end.

Definition Role_ofString (s : string) : option Role :=
  if String.eqb s "user" then Some user
  else if String.eqb s "assistant" then Some assistant
  else None.

Definition Difficulty_toString (d : DifficultyLevel) : string :=
  match d with
  | beginner => "beginner"
  | intermediate => "intermediate"
  | advanced => "advanced"
  end.

Definition Difficulty_ofString (s : string) : option DifficultyLevel :=
  if String.eqb s "beginner" then Some beginner
  else if String.eqb s "intermediate" then Some intermediate
  else if String.eqb s "advanced" then Some advanced
  else None.

Definition Message_toJSON (m : Message.t) : json :=
  JObj ([("id", JStr (Message.id m));
         ("content", JStr (Message.content m));
         ("role", JStr (Role_toString (Message.role m)));
         ("timestamp", JNum (Message.timestamp m))]
        ++ opt_member "isError" JBool (Message.isError m)
        ++ opt_member "isBookmarked" JBool (Message.isBookmarked m)).

Definition Message_fromJSON (j : json) : option Message.t :=
  match j with
  | JObj l =>
      match assoc "id" l, assoc "content" l, assoc "role" l, assoc "timestamp" l with
      | Some (JStr i), Some (JStr c), Some (JStr r), Some (JNum t) =>
          match Role_ofString r,
                opt_field as_bool (assoc "isBookmarked" l),
                opt_field as_bool (assoc "isError" l) with
          | Some r', Some b, Some e => Some (Message.mk i c r' t b e)
          | _, _, _ => None
          end
      | _, _, _, _ => None
      end
  | _ => None
  end.

Fixpoint all_fromJSON {A : Type} (f : json -> option A) (l : list json)
  : option (list A) :=
  match l with
  | [] => Some []
  | j :: l' =>
      match f j, all_fromJSON f l' with
      | Some a, Some r => Some (a :: r)
      | _, _ => None
      end
  end.

Definition array_fromJSON {A : Type} (f : json -> option A) (j : json)
  : option (list A) :=
  match j with
  | JArr l => all_fromJSON f l
  | _ => None
  end.

Definition ChatSession_toJSON (s : ChatSession.t) : json :=
  JObj ([("id", JStr (ChatSession.id s));
         ("title", JStr (ChatSession.title s));
         ("messages", JArr (map Message_toJSON (ChatSession.messages s)));
         ("createdAt", JNum (ChatSession.createdAt s));
         ("updatedAt", JNum (ChatSession.updatedAt s))]
        ++ opt_member "subject" JStr (ChatSession.subject s)
        ++ opt_member "difficulty"
             (fun d => JStr (Difficulty_toString d)) (ChatSession.difficulty s)).

Definition as_difficulty (j : json) : option DifficultyLevel :=
  match j with JStr s => Difficulty_ofString s | _ => None end.

Definition ChatSession_fromJSON (j : json) : option ChatSession.t :=
  match j with
  | JObj l =>
      match assoc "id" l, assoc "title" l, assoc "messages" l,
            assoc "createdAt" l, assoc "updatedAt" l with
      | Some (JStr i), Some (JStr t), Some ms, Some (JNum c), Some (JNum u) =>
          match array_fromJSON Message_fromJSON ms,
                opt_field as_string (assoc "subject" l),
                opt_field as_difficulty (assoc "difficulty" l) with
          | Some ms', Some sb, Some d => Some (ChatSession.mk i t ms' c u sb d)
          | _, _, _ => None
          end
      | _, _, _, _, _ => None
      end
  | _ => None
  end.

Definition ProgressStats_toJSON (p : ProgressStats.t) : json :=
  JObj [("totalSessions", JNum (ProgressStats.totalSessions p));
        ("totalMessages", JNum (ProgressStats.totalMessages p));
        ("timeSpent", JNum (ProgressStats.timeSpent p));
        ("topicsExplored", JArr (map JStr (ProgressStats.topicsExplored p)));
        ("favoriteSubjects", JArr (map JStr (ProgressStats.favoriteSubjects p)));
        ("streakDays", JNum (ProgressStats.streakDays p));
        ("lastActiveDate", JStr (ProgressStats.lastActiveDate p))].

Definition ProgressStats_fromJSON (j : json) : option ProgressStats.t :=
  match j with
  | JObj l =>
      match assoc "totalSessions" l, assoc "totalMessages" l, assoc "timeSpent" l,
            assoc "topicsExplored" l, assoc "favoriteSubjects" l,
            assoc "streakDays" l, assoc "lastActiveDate" l with
      | Some (JNum a), Some (JNum b), Some (JNum c), Some t, Some f,
        Some (JNum d), Some (JStr e) =>
          match array_fromJSON as_string t, array_fromJSON as_string f with
          | Some t', Some f' => Some (ProgressStats.mk a b c t' f' d e)
          | _, _ => None
          end
      | _, _, _, _, _, _, _ => None
      end
  | _ => None
  end.

#[global] Instance Persistable_sessions : Persistable (list ChatSession.t) := {
  toJSON l := JArr (map ChatSession_toJSON l);
  fromJSON := array_fromJSON ChatSession_fromJSON
}.

#[global] Instance Persistable_messages : Persistable (list Message.t) := {
  toJSON l := JArr (map Message_toJSON l);
  fromJSON := array_fromJSON Message_fromJSON
}.

#[global] Instance Persistable_progress : Persistable ProgressStats.t := {
  toJSON := ProgressStats_toJSON;
  fromJSON := ProgressStats_fromJSON
}.

(** A stored type whose values are read back from their JSON form. *)
Definition Lawful (T : Type) `{Persistable T} : Prop :=
  forall v : T, fromJSON (toJSON v) = Some v.

(** [JSON.stringify(value)] and [JSON.parse(item) as T] at a stored type. *)
Definition JSON_stringify {T : Type} `{Persistable T} (v : T) : string :=
  Json.stringify (toJSON v).

Definition JSON_parse {T : Type} `{Persistable T} (item : string) : option T :=
  match Json.parse item with
  | Some j => fromJSON j
  | None => None
  end.

(* --------------------------------------------------------------------- *)
(** ** [window.localStorage] *)
(* --------------------------------------------------------------------- *)

Module LocalStorage.

Inductive DOMException : Type := QuotaExceededError | SecurityError.

(** A store of limited size: [quota] bounds the total length of the
    keys and values held. [denied] is a browser that refuses access to
    storage altogether. *)
Record t : Type := mk {
  items : gmap string string;
  quota : nat;
  denied : bool
}.

Definition size (m : gmap string string) : nat :=
  map_fold (fun k v n => (String.length k + String.length v + n)%nat) 0%nat m.

Definition getItem (k : string) (st : t) : option string + DOMException :=
  if denied st then inr SecurityError else inl (items st !! k).

Definition setItem (k v : string) (st : t) : t + DOMException :=
  if denied st then inr SecurityError
  else
    let m := <[k := v]> (items st) in
    if (size m <=? quota st)%nat then inl (mk m (quota st) (denied st))
    else inr QuotaExceededError.

Definition removeItem (k : string) (st : t) : t + DOMException :=
  if denied st then inr SecurityError
  else inl (mk (delete k (items st)) (quota st) (denied st)).

End LocalStorage.

(* --------------------------------------------------------------------- *)
(** ** The store adapter: [useLocalStorage] ([hooks/useLocal.ts]) *)
(* --------------------------------------------------------------------- *)

Definition SESSIONS_KEY : string := "studypal_sessions".
Definition PROGRESS_KEY : string := "studypal_progress".
Definition PREFERENCES_KEY : string := "studypal_preferences".
Definition BOOKMARKS_KEY : string := "studypal_bookmarks".

(** [Array.prototype.sort(compareFn)]: a stable sort; [x] stays in front
    of [y] when [compareFn(x, y) <= 0]. *)
Fixpoint sort_insert {A : Type} (compareFn : A -> A -> Z) (x : A) (l : list A)
  : list A :=
  match l with
  | [] => [x]
  | y :: l' =>
      if compareFn x y <=? 0 then x :: y :: l'
      else y :: sort_insert compareFn x l'
  end.

Fixpoint Array_sort {A : Type} (compareFn : A -> A -> Z) (l : list A) : list A :=
  match l with
  | [] => []
  | x :: l' => sort_insert compareFn x (Array_sort compareFn l')
  end.

(** [array.slice(0, n)] *)
Definition slice0 {A : Type} (n : nat) (l : list A) : list A := firstn n l.

(** [(a, b) => b.updatedAt - a.updatedAt] on untyped values; a difference
    that is not a number ([NaN]) counts as [0] in a sort. *)
Definition updatedAt_of (j : json) : option Z :=
  match j with
  | JObj l => match assoc "updatedAt" l with Some (JNum n) => Some n | _ => None end
  | _ => None
  end.

Definition byUpdatedAtDesc_json (a b : json) : Z :=
  match updatedAt_of a, updatedAt_of b with
  | Some ua, Some ub => ub - ua
  | _, _ => 0
  end.

(** The same comparison on typed sessions. *)
Definition byUpdatedAtDesc (a b : ChatSession.t) : Z :=
  ChatSession.updatedAt b - ChatSession.updatedAt a.

(** [handleQuotaExceeded(key, value)]; [value] is untyped in the source.
    The whole body is inside one [try]: a failing storage call only logs. *)
Definition handleQuotaExceeded (key : string) (value : json) (st : LocalStorage.t)
  : LocalStorage.t :=
  let evict_progress :=
    match LocalStorage.removeItem PROGRESS_KEY st with
    | inl st' => st'
    | inr _ => st
    end in
  match value with
  | JArr l =>
      if String.eqb key SESSIONS_KEY && (10 <? List.length l)%nat then
        let sortedSessions := Array_sort byUpdatedAtDesc_json l in
        let trimmedSessions := slice0 10 sortedSessions in
        match LocalStorage.setItem key (Json.stringify (JArr trimmedSessions)) st with
        | inl st' => st'
        | inr _ => st
        end
      else evict_progress
  | _ => evict_progress
  end.

(** The store with the progress statistics removed. *)
Definition evictProgress (st : LocalStorage.t) : LocalStorage.t :=
  LocalStorage.mk (delete PROGRESS_KEY (LocalStorage.items st))
                  (LocalStorage.quota st) (LocalStorage.denied st).

(** The validity test of the synchronisation effect:
    [session && typeof session === 'object' && typeof session.id ===
    'string' && Array.isArray(session.messages)]. *)
Definition validSession (session : json) : bool :=
  match session with
  | JObj l =>
      match assoc "id" l, assoc "messages" l with
      | Some (JStr _), Some (JArr _) => true
      | _, _ => false
      end
  | _ => false
  end.

Inductive SetStateAction (T : Type) : Type :=
| NewValue (v : T)
| Updater (f : T -> T).
Arguments NewValue {T} v.
Arguments Updater {T} f.

Section UseLocalStorage.

Context {T : Type} `{Persistable T}.
Variable key : string.
Variable initialValue : T.

(** [getInitialValue], in the browser. [JSON.parse(item)] is used at
    type [T] without a check; a stored text that parses to a value
    outside [T] has no counterpart here and gives [initialValue], as a
    text that does not parse does. *)
Definition getInitialValue (st : LocalStorage.t) : T :=
  match LocalStorage.getItem key st with
  | inl (Some item) =>
      if String.eqb item "" then initialValue
      else match JSON_parse item with
           | Some v => v
           | None => initialValue
           end
  | inl None => initialValue
  | inr _ => initialValue
  end.

(** What one render of the hook holds: the state [storedValue] of that
    render, and the [isMounted] ref. *)
Record Hook : Type := mkHook {
  storedValue : T;
  isMounted : bool
}.

Definition mount (st : LocalStorage.t) : Hook :=
  mkHook (getInitialValue st) false.

(** The synchronisation effect, run after the first render and after
    every render in which [storedValue] changed. *)
Definition syncEffect (h : Hook) (st : LocalStorage.t) : Hook * LocalStorage.t :=
  if negb (isMounted h) then (mkHook (storedValue h) true, st)
  else
    let save :=
      match LocalStorage.setItem key (JSON_stringify (storedValue h)) st with
      | inl st' => (h, st')
      | inr _ => (h, st)
      end in
    match toJSON (storedValue h) with
    | JArr l =>
        if String.eqb key SESSIONS_KEY then
          let validSessions := List.filter validSession l in
          if negb (List.length validSessions =? List.length l)%nat then
            match fromJSON (JArr validSessions) with
            | Some v => (mkHook v (isMounted h), st)
            | None => (h, st)
            end
          else save
        else save
    | _ => save
    end.

(** [value instanceof Function ? value(storedValue) : value] *)
Definition valueToStore (value : SetStateAction T) (stored : T) : T :=
  match value with
  | NewValue v => v
  | Updater f => f stored
  end.

(** [setValue(value)], as created by one render: [value(storedValue)]
    applies the transform to the [storedValue] that render closed over,
    and the call returns early when the outcome serialises to the same
    text. [nextStoredValue] is the argument given to [setStoredValue]
    ([None]: the call returned before reaching it). *)
Definition nextStoredValue (stored : T) (value : SetStateAction T) : option T :=
  let v := valueToStore value stored in
  if String.eqb (JSON_stringify v) (JSON_stringify stored) then None
  else Some v.

(** The whole call: the new state, and the store after the immediate
    save, which is attempted once the hook is mounted. *)
Definition setValue (h : Hook) (value : SetStateAction T) (st : LocalStorage.t)
  : option T * LocalStorage.t :=
  match nextStoredValue (storedValue h) value with
  | None => (None, st)
  | Some v =>
      (Some v,
       if isMounted h then
         match LocalStorage.setItem key (JSON_stringify v) st with
         | inl st' => st'
         | inr LocalStorage.QuotaExceededError =>
             handleQuotaExceeded key (toJSON v) st
         | inr LocalStorage.SecurityError => st
         end
       else st)
  end.

(** [removeValue()] *)
Definition removeValue (st : LocalStorage.t) : T * LocalStorage.t :=
  (initialValue,
   match LocalStorage.removeItem key st with
   | inl st' => st'
   | inr _ => st
   end).

End UseLocalStorage.

Arguments Hook T : clear implicits.
Arguments mkHook {T} storedValue isMounted.

(** [isLocalStorageAvailable()]: the probe writes one test entry, reads
    it back and removes it; a storage call that throws gives [false].
    The store after the call is returned with the answer. *)
Definition isLocalStorageAvailable (st : LocalStorage.t) : bool * LocalStorage.t :=
  let testKey := "__test_storage__" in
  match LocalStorage.setItem testKey testKey st with
  | inr _ => (false, st)
  | inl st1 =>
      match LocalStorage.getItem testKey st1 with
      | inr _ => (false, st1)
      | inl item =>
          let result :=
            match item with
            | Some v => String.eqb v testKey
            | None => false
            end in
          match LocalStorage.removeItem testKey st1 with
          | inr _ => (false, st1)
          | inl st2 => (result, st2)
          end
      end
  end.

(* --------------------------------------------------------------------- *)
(** ** The message pipeline: [useChat] ([hooks/useChat.ts]) *)
(* --------------------------------------------------------------------- *)

Module Chat.

Definition API_TIMEOUT : Z := 30000.
Definition MAX_RETRIES : nat := 2.
Definition RETRY_DELAY : Z := 2000.

Definition APOLOGY : string :=
  "I apologize, but I encountered an error. Please try again or rephrase your question.".

(** *** The network *)

(** A JavaScript [Error]. *)
Record JsError : Type := mkError { err_name : string; err_message : string }.

(** What a rejected [fetch] throws: an error object ([TypeError] for a
    transport failure, [AbortError] for an aborted signal), or the
    reason given to [controller.abort(reason)], which is a plain
    string for the request timeout. *)
Inductive Thrown : Type :=
| ThrownError (e : JsError)
| ThrownValue (reason : string).

(** The body of a response as [response.json()] reads it. *)
Record ResponseData : Type := mkData {
  data_error : option string;
  data_message : option string
}.

(** [json = None]: [response.json()] throws. *)
Record Response : Type := mkResponse {
  status : Z;
  json : option ResponseData
}.

(** [response.ok] *)
Definition ok (r : Response) : bool := (200 <=? status r) && (status r <=? 299).

Inductive FetchResult : Type :=
| Resolved (r : Response)
| Rejected (e : Thrown).

(** [fetch] under the signal of the call's [AbortController]. The
    signal is aborted by the request timer ([controller.abort('Request
    timeout')], whose reason is a string), by a newer send or by the
    teardown of the component ([abort()], an [AbortError]). From the call
    of [fetch] that is pending then, every call is rejected with the
    reason. *)
Definition abortedFrom (reason : Thrown) (pending : nat)
    (requestFn : nat -> FetchResult) : nat -> FetchResult :=
  fun attempt => if (pending <=? attempt)%nat then Rejected reason else requestFn attempt.

Definition abortError : Thrown :=
  ThrownError (mkError "AbortError" "signal is aborted without reason").

Definition timeoutReason : Thrown := ThrownValue "Request timeout".

(** What the pipeline does that can be observed from outside, in
    order. *)
Inductive Event : Type :=
| EvSetSessions (written : option (list ChatSession.t))
| EvFetch (attempt : nat) (body : list Message.t)
| EvDelay (ms : Z).

(** [err instanceof Error ? err : new Error(String(err))] *)
Definition toError (e : Thrown) : JsError :=
  match e with
  | ThrownError e' => e'
  | ThrownValue reason => mkError "Error" reason
  end.

(** *** [retryApiCall]

    [requestFn k] is the outcome of the call of [requestFn()] made when
    [attempts = k]. The loop [while (attempts <= maxRetries)] runs its
    body with [attempts = 0, 1, ..., maxRetries] at most; [remaining]
    counts the values of [attempts] still to come. The result comes
    with the calls and waits made, in order. *)
Fixpoint retryLoop (requestFn : nat -> FetchResult) (body : list Message.t)
    (maxRetries remaining attempts : nat) (lastError : option JsError)
  : (Response + JsError) * list Event :=
  match remaining with
  | O =>
      (inr (default (mkError "Error" "Failed after multiple attempts") lastError), [])
  | S remaining' =>
      match requestFn attempts with
      | Resolved response => (inl response, [EvFetch attempts body])
      | Rejected err =>
          let lastError' := Some (toError err) in
          let attempts' := S attempts in
          let wait :=
            if (attempts' <=? maxRetries)%nat
            then [EvDelay (RETRY_DELAY * 2 ^ (Z.of_nat attempts' - 1))]
            else [] in
          let '(r, events) :=
            retryLoop requestFn body maxRetries remaining' attempts' lastError' in
          (r, EvFetch attempts body :: wait ++ events)
      end
  end.

Definition retryApiCall (requestFn : nat -> FetchResult) (body : list Message.t)
    (maxRetries : nat) : (Response + JsError) * list Event :=
  retryLoop requestFn body maxRetries (S maxRetries) 0 None.

(** What follows [await retryApiCall(makeRequest)] inside the inner
    [try]: the assistant's text, or the error thrown. *)
Definition readResponse (response : Response) : string + JsError :=
  if negb (ok response) then
    let errorMessage :=
      match json response with
      | Some errorData =>
          if truthy_string (data_error errorData)
          then default "" (data_error errorData)
          else "Server error: " +:+ JsString.ofZ (status response)
      | None => "Server error: " +:+ JsString.ofZ (status response)
      end in
    inr (mkError "Error" errorMessage)
  else
    match json response with
    | None => inr (mkError "Error" "Failed to parse server response")
    | Some data =>
        if truthy_string (data_error data)
        then inr (mkError "Error" (default "" (data_error data)))
        else if negb (truthy_string (data_message data))
        then inr (mkError "Error" "Response missing message content")
        else inl (default "" (data_message data))
    end.

(** *** Session updaters *)

(** [content.slice(0, 50) + (content.length > 50 ? '...' : '')] *)
Definition titleOf (content : string) : string :=
  JsString.slice0 50 content
  +:+ (if (50 <? String.length content)%nat then "..." else "").

(** [useMemo] for [currentSession]. *)
Definition currentSession (sessions : list ChatSession.t)
    (currentSessionId : option string) : option ChatSession.t :=
  match currentSessionId with
  | None => None
  | Some cid =>
      if String.eqb cid "" then None
      else List.find (fun session => String.eqb (ChatSession.id session) cid) sessions
  end.

Definition sessionExists (sessionId : string) (prevSessions : list ChatSession.t)
  : bool :=
  existsb (fun s => String.eqb (ChatSession.id s) sessionId) prevSessions.

(** The updater of [createNewSession]. *)
Definition prependSession (newSession : ChatSession.t)
    (prevSessions : list ChatSession.t) : list ChatSession.t :=
  newSession :: prevSessions.

(** The updater that adds the user message, first in the pipeline. *)
Definition appendUserMessage (sessionId content : string) (userMessage : Message.t)
    (timestamp : Z) (subject : option string) (difficulty : option DifficultyLevel)
    (prevSessions : list ChatSession.t) : list ChatSession.t :=
  if negb (sessionExists sessionId prevSessions) then
    ChatSession.mk sessionId (titleOf content) [userMessage]
      timestamp timestamp subject difficulty
    :: prevSessions
  else
    map (fun session =>
           if String.eqb (ChatSession.id session) sessionId then
             ChatSession.mk
               (ChatSession.id session)
               (if (List.length (ChatSession.messages session) =? 0)%nat
                then titleOf content
                else ChatSession.title session)
               (ChatSession.messages session ++ [userMessage])
               (ChatSession.createdAt session)
               timestamp
               (ChatSession.subject session)
               (ChatSession.difficulty session)
           else session)
        prevSessions.

(** [msg.id === userMessage.id || (msg.role === 'user' && msg.content
    === userMessage.content)] somewhere in the list. *)
Definition hasUserMessage (userMessage : Message.t) (existingMessages : list Message.t)
  : bool :=
  existsb (fun msg =>
             String.eqb (Message.id msg) (Message.id userMessage)
             || (bool_decide (Message.role msg = user)
                 && String.eqb (Message.content msg) (Message.content userMessage)))
          existingMessages.

(** The body shared by the two completion updaters: the session gets
    the user message unless [hasUserMessage], then [reply]. *)
Definition withReply (sessionId : string) (userMessage reply : Message.t) (now : Z)
    (session : ChatSession.t) : ChatSession.t :=
  if String.eqb (ChatSession.id session) sessionId then
    let existingMessages := ChatSession.messages session in
    ChatSession.mk
      (ChatSession.id session)
      (ChatSession.title session)
      (existingMessages
       ++ (if hasUserMessage userMessage existingMessages then [] else [userMessage])
       ++ [reply])
      (ChatSession.createdAt session)
      now
      (ChatSession.subject session)
      (ChatSession.difficulty session)
  else session.

(** The updater of the success branch. *)
Definition appendAssistantMessage (sessionId : string)
    (userMessage assistantMessage : Message.t) (now : Z)
    (prevSessions : list ChatSession.t) : list ChatSession.t :=
  if negb (sessionExists sessionId prevSessions) then prevSessions
  else map (withReply sessionId userMessage assistantMessage now) prevSessions.

(** The updater of the failure branch. *)
Definition appendErrorMessage (sessionId : string)
    (userMessage errorAssistantMessage : Message.t) (now : Z)
    (prevSessions : list ChatSession.t) : list ChatSession.t :=
  map (withReply sessionId userMessage errorAssistantMessage now) prevSessions.

(** [updateSessionTitle(sessionId, newTitle)], [toggleMessageBookmark(
    messageId)] and [deleteSession(sessionId)], each as the collection
    its updater gives; a call that returns at its guard gives the
    collection back. *)
Definition updateSessionTitle (sessionId newTitle : string) (now : Z)
    (prevSessions : list ChatSession.t) : list ChatSession.t :=
  if String.eqb sessionId "" || String.eqb (JsString.trim newTitle) "" then prevSessions
  else
    map (fun session =>
           if String.eqb (ChatSession.id session) sessionId then
             ChatSession.mk (ChatSession.id session) (JsString.trim newTitle)
               (ChatSession.messages session) (ChatSession.createdAt session) now
               (ChatSession.subject session) (ChatSession.difficulty session)
           else session)
        prevSessions.

Definition toggleMessageBookmark (messageId : string) (prev : list ChatSession.t)
  : list ChatSession.t :=
  if String.eqb messageId "" then prev
  else
    map (fun session =>
           ChatSession.mk (ChatSession.id session) (ChatSession.title session)
             (map (fun message =>
                     if String.eqb (Message.id message) messageId then
                       Message.mk (Message.id message) (Message.content message)
                         (Message.role message) (Message.timestamp message)
                         (Some (negb (truthy_bool (Message.isBookmarked message))))
                         (Message.isError message)
                     else message)
                  (ChatSession.messages session))
             (ChatSession.createdAt session) (ChatSession.updatedAt session)
             (ChatSession.subject session) (ChatSession.difficulty session))
        prev.

Definition deleteSession (sessionId : string) (prev : list ChatSession.t)
  : list ChatSession.t :=
  if String.eqb sessionId "" then prev
  else
    List.filter (fun session => negb (String.eqb (ChatSession.id session) sessionId))
                prev.

(** *** The hook state and [sendMessage] *)

(** What one render of [useChat] shows. *)
Record State : Type := mkState {
  sessions : list ChatSession.t;
  currentSessionId : option string;
  isLoading : bool;
  error : option string
}.

(** The values [Date.now()] and [generateId()] return during one call,
    in the order the call draws them. *)
Record Env : Type := mkEnv {
  sessionTimestamp : Z;
  newSessionId : string;
  timestamp : Z;
  messageId : string;
  replyId : string;
  replyTimestamp : Z;
  updateTimestamp : Z
}.

(** The session that [createNewSession(subject, difficulty)] builds and
    returns; its updater is [prependSession]. *)
Definition createNewSession (env : Env) (subject : option string)
    (difficulty : option DifficultyLevel) : ChatSession.t :=
  ChatSession.mk (newSessionId env) "New Chat" []
    (sessionTimestamp env) (sessionTimestamp env) subject difficulty.

(** [setSessions(updater)] inside a running [sendMessage].

    [setSessions] is the [setValue] of [useLocalStorage], which computes
    [value(storedValue)] with the [storedValue] of the render that made
    it ([useCallback] with [[key, storedValue]]), and passes the outcome
    to [setStoredValue] as a plain value. [sendMessage] is itself
    memoised with [setSessions] among its dependencies: a call keeps the
    [setSessions] of the render it was started from until it returns,
    also after its [await]s. Every updater of one call is therefore
    applied to the collection [captured] when the call started, and its
    outcome replaces the [live] state; nothing is written when the
    outcome serialises to the text of [captured]. *)
Definition setSessions (captured : list ChatSession.t)
    (updater : list ChatSession.t -> list ChatSession.t)
    (live : list ChatSession.t) : list ChatSession.t :=
  default live (nextStoredValue captured (Updater updater)).

Definition written (captured : list ChatSession.t)
    (updater : list ChatSession.t -> list ChatSession.t) : Event :=
  EvSetSessions (nextStoredValue captured (Updater updater)).

(** The target of a send: the current session of the render, or a new
    session made by [createNewSession]. The result is the session id,
    the messages [sessionMessages] the request starts from, the state
    after this step and the events of the step. *)
Definition resolveSession (env : Env) (st : State) (subject : option string)
    (difficulty : option DifficultyLevel)
  : string * list Message.t * State * list Event :=
  let captured := sessions st in
  match currentSession captured (currentSessionId st) with
  | Some session =>
      (ChatSession.id session, ChatSession.messages session, st, [])
  | None =>
      let newSession := createNewSession env subject difficulty in
      (newSessionId env, [],
       mkState (setSessions captured (prependSession newSession) (sessions st))
               (Some (newSessionId env)) (isLoading st) (error st),
       [written captured (prependSession newSession); EvDelay 50])
  end.

Definition userMessageOf (env : Env) (content : string) : Message.t :=
  Message.mk (messageId env) (JsString.trim content) user (timestamp env) None None.

Definition assistantMessageOf (env : Env) (text : string) : Message.t :=
  Message.mk (replyId env) text assistant (replyTimestamp env) None None.

Definition errorMessageOf (env : Env) : Message.t :=
  Message.mk (replyId env) APOLOGY assistant (replyTimestamp env) None (Some true).

(** The state once the user message has been added and the loading
    flag raised, before the request is made. *)
Definition afterAppend (env : Env) (st : State) (content : string)
    (subject : option string) (difficulty : option DifficultyLevel) : State :=
  let captured := sessions st in
  let '(sessionId, _, st1, _) := resolveSession env st subject difficulty in
  mkState
    (setSessions captured
       (appendUserMessage sessionId content (userMessageOf env content)
          (timestamp env) subject difficulty)
       (sessions st1))
    (currentSessionId st1) true None.

(** The request of one send: the retry loop, then the reading of the
    response. The outcome is the assistant's text or the error that
    reaches the [catch] of the inner [try]. *)
Definition request (requestFn : nat -> FetchResult) (updatedMessages : list Message.t)
  : (string + JsError) * list Event :=
  let '(result, events) := retryApiCall requestFn updatedMessages MAX_RETRIES in
  (match result with
   | inl response => readResponse response
   | inr e => inr e
   end, events).

(** The message added when the request is over. *)
Definition replyOf (env : Env) (outcome : string + JsError) : Message.t :=
  match outcome with
  | inl text => assistantMessageOf env text
  | inr _ => errorMessageOf env
  end.

(** [sendMessage(content, subject, difficulty)], started from the
    render [st], with [requestFn] giving the outcome of each call of
    [fetch]. The result is the state when the call has returned and
    the events of the call. A call is taken on its own: the abort of an
    earlier request, the request timer and the progress statistics do
    not touch the collection. *)
Definition sendMessage (env : Env) (requestFn : nat -> FetchResult) (st : State)
    (content : string) (subject : option string)
    (difficulty : option DifficultyLevel) : State * list Event :=
  if String.eqb (JsString.trim content) "" then (st, [])
  else
    let captured := sessions st in
    let '(sessionId, sessionMessages, st1, events1) :=
      resolveSession env st subject difficulty in
    let userMessage := userMessageOf env content in
    let updatedMessages := sessionMessages ++ [userMessage] in
    let append :=
      appendUserMessage sessionId content userMessage (timestamp env)
        subject difficulty in
    let live2 := setSessions captured append (sessions st1) in
    let '(outcome, events3) := request requestFn updatedMessages in
    match outcome with
    | inl text =>
        let finish :=
          appendAssistantMessage sessionId userMessage
            (assistantMessageOf env text) (updateTimestamp env) in
        (mkState (setSessions captured finish live2)
                 (currentSessionId st1) false None,
         events1 ++ [written captured append] ++ events3
         ++ [written captured finish])
    | inr apiError =>
        let finish :=
          appendErrorMessage sessionId userMessage
            (errorMessageOf env) (updateTimestamp env) in
        (mkState (setSessions captured finish live2)
                 (currentSessionId st1) false
                 (Some (if String.eqb (err_name apiError) "TypeError"
                           && JsString.includes "network" (err_message apiError)
                        then "Network error. Please check your internet connection."
                        else err_message apiError)),
         events1 ++ [written captured append] ++ events3
         ++ [written captured finish])
    end.

(** The messages of the session [sessionId] in a collection. *)
Definition messagesOf (sessionId : string) (sessions : list ChatSession.t)
  : list Message.t :=
  match List.find (fun s => String.eqb (ChatSession.id s) sessionId) sessions with
  | Some session => ChatSession.messages session
  | None => []
  end.

(** [deleteSession(sessionId)] as a whole, called from the render [st]:
    the updater goes through [setSessions], and the current session id
    is cleared when it names the session. *)
Definition afterDeleteSession (sessionId : string) (st : State) : State :=
  if String.eqb sessionId "" then st
  else
    mkState (setSessions (sessions st) (deleteSession sessionId) (sessions st))
            (if bool_decide (currentSessionId st = Some sessionId) then None
             else currentSessionId st)
            (isLoading st) (error st).

(** [loadSession(sessionId)] *)
Definition loadSession (sessionId : string) (st : State) : State :=
  if String.eqb sessionId "" then st
  else if sessionExists sessionId (sessions st) then
    mkState (sessions st) (Some sessionId) (isLoading st) (error st)
  else
    mkState (sessions st) (currentSessionId st) (isLoading st)
            (Some "Session not found").

(** [clearAllSessions()] *)
Definition clearAllSessions (st : State) : State :=
  mkState (default (sessions st) (nextStoredValue (sessions st) (NewValue [])))
          None (isLoading st) (error st).

End Chat.

(* --------------------------------------------------------------------- *)
(** ** The proxy endpoint ([app/api/chat/route.ts]) *)
(* --------------------------------------------------------------------- *)

Module Proxy.

Definition RATE_LIMIT_WINDOW : Z := 60 * 1000.
Definition MAX_REQUESTS_PER_WINDOW : Z := 5.

Record ClientData : Type := mkClient { count : Z; timestamp : Z }.

(** [isRateLimited(ip)] at the time [now], on the module-level map
    [ipRequests]; the map after the call is returned with the answer. *)
Definition isRateLimited (ip : string) (now : Z) (ipRequests : gmap string ClientData)
  : bool * gmap string ClientData :=
  match ipRequests !! ip with
  | None => (false, <[ip := mkClient 1 now]> ipRequests)
  | Some clientData =>
      if RATE_LIMIT_WINDOW <? now - timestamp clientData then
        (false, <[ip := mkClient 1 now]> ipRequests)
      else
        let clientData' := mkClient (count clientData + 1) (timestamp clientData) in
        (MAX_REQUESTS_PER_WINDOW <? count clientData', <[ip := clientData']> ipRequests)
  end.

(** The sweep run every five minutes. *)
Definition cleanup (now : Z) (ipRequests : gmap string ClientData)
  : gmap string ClientData :=
  filter (fun entry => ¬ (RATE_LIMIT_WINDOW * 5 < now - timestamp entry.2)) ipRequests.

Record ChatMessage : Type := mkMessage { role : string; content : string }.

(** The body of a request as [request.json()] reads it; [messages =
    None] is a body without a [messages] array. *)
Record RequestBody : Type := mkBody {
  messages : option (list ChatMessage);
  subject : option string;
  difficulty : option string
}.

(** [body = None]: [request.json()] throws. *)
Record Request : Type := mkRequest {
  forwardedFor : option string;
  body : option RequestBody
}.

Record Reply : Type := mkReply {
  status : Z;
  reply_error : option string;
  reply_message : option string
}.

Section Handler.

(** The model provider and the helpers of [lib/openrouter.ts]:
    [sendChatMessage] returns the reply or the message of the error
    it throws. *)
Variable apiKeyConfigured : bool.
Variable sendChatMessage : list ChatMessage -> string -> string + string.
Variable generateContextualPrompt : option string -> option string -> string.
Variable getFallbackResponse : string -> string.

Definition clientIp (request : Request) : string :=
  match forwardedFor request with
  | Some ip => if String.eqb ip "" then "unknown-ip" else ip
  | None => "unknown-ip"
  end.

Definition normaliseRole (msg : ChatMessage) : ChatMessage :=
  if String.eqb (role msg) "user" then mkMessage "user" (content msg)
  else if String.eqb (role msg) "assistant" then mkMessage "assistant" (content msg)
  else mkMessage "user" (content msg).

Definition lastContent (msgs : list ChatMessage) : string :=
  match List.last (map Some msgs) None with
  | Some msg => content msg
  | None => ""
  end.

(** [POST(request)] *)
Definition POST (request : Request) (now : Z) (ipRequests : gmap string ClientData)
  : Reply * gmap string ClientData :=
  let ip := clientIp request in
  let '(limited, ipRequests') := isRateLimited ip now ipRequests in
  if limited then
    (mkReply 429 (Some "Rate limit exceeded. Please try again later.") None,
     ipRequests')
  else
    (match body request with
     | None =>
         mkReply 500 (Some "Internal server error")
           (Some "I'm having some technical difficulties right now. Please try again in a moment!")
     | Some b =>
         match messages b with
         | None | Some [] =>
             mkReply 400 (Some "Valid messages array is required") None
         | Some msgs =>
             if negb apiKeyConfigured then
               mkReply 200 None (Some (getFallbackResponse (lastContent msgs)))
             else
               let chatMessages := map normaliseRole msgs in
               let contextMessages :=
                 if (15 <? List.length chatMessages)%nat
                 then skipn (List.length chatMessages - 15) chatMessages
                 else chatMessages in
               let systemPrompt :=
                 generateContextualPrompt (subject b) (difficulty b) in
               match sendChatMessage contextMessages systemPrompt with
               | inl response => mkReply 200 None (Some response)
               | inr errorMessage =>
                   if JsString.includes "rate limit" errorMessage
                      || JsString.includes "too many requests" errorMessage
                   then mkReply 429
                          (Some "Rate limit exceeded. Please try again in a moment.")
                          None
                   else mkReply 503 (Some "AI service error")
                          (Some (getFallbackResponse (lastContent msgs)))
               end
         end
     end,
     ipRequests').

End Handler.

End Proxy.

(* --------------------------------------------------------------------- *)
(** ** The model provider ([lib/openrouter.ts]) *)
(* --------------------------------------------------------------------- *)

Module OpenRouter.

Definition LF : string := String "010" EmptyString.

Definition SYSTEM_PROMPT : string :=
  String.concat LF
    ["You are a patient, encouraging AI tutor specifically designed to help students with learning disabilities. Your role is to:";
     "";
     "1. **Break down complex concepts** into simple, manageable steps";
     "2. **Use analogies and real-world examples** that are easy to understand";
     "3. **Provide multiple explanations** for the same concept using different approaches";
     "4. **Ask clarifying questions** to ensure understanding before moving forward";
     "5. **Celebrate progress** and encourage the student with positive reinforcement";
     "6. **Adapt your teaching style** based on the student's responses and needs";
     "7. **Use clear, simple language** and avoid jargon unless necessary (and then explain it)";
     "8. **Be patient** and never make the student feel rushed or inadequate";
     "9. **Offer memory aids** like mnemonics, visual descriptions, or step-by-step guides";
     "10. **Check for understanding** regularly and invite questions";
     "";
     "Remember:";
     "- Every student learns differently, so be flexible in your approach";
     "- Some students may need more time to process information";
     "- Visual learners benefit from descriptive explanations";
     "- Kinesthetic learners benefit from hands-on examples";
     "- Always be encouraging and supportive";
     "- If a student seems frustrated, take a step back and try a different approach";
     "- Use positive language and avoid negative phrasing";
     "";
     "Keep responses conversational, encouraging, and appropriately detailed for the difficulty level selected."].

(** The body of a reply of the provider, as [sendChatMessage] reads it:
    [error_message] is [errorData?.error?.message], [choices] holds the
    [message.content] of each entry of [data.choices] ([None]: the body
    has no [choices]). *)
Record UpstreamBody : Type := mkBody {
  error_message : option string;
  choices : option (list string)
}.

(** [json = inl e]: [response.json()] throws [e]. *)
Record UpstreamResponse : Type := mkUpstream {
  status : Z;
  statusText : string;
  json : Chat.JsError + UpstreamBody
}.

(** [response.ok] *)
Definition ok (r : UpstreamResponse) : bool := (200 <=? status r) && (status r <=? 299).

(** [sendChatMessage(messages, { systemPrompt })]. [fetch] gives, for the
    messages of the request body, the response of the provider or the
    error the call is rejected with (a [TypeError] of the transport, the
    [AbortError] of the 15 second timer). The result is the reply, or
    the message of the [Error] thrown. *)
Definition sendChatMessage
    (fetch : list Proxy.ChatMessage -> Chat.JsError + UpstreamResponse)
    (messages : list Proxy.ChatMessage) (systemPrompt : string) : string + string :=
  match messages with
  | [] => inr "Valid messages array is required"
  | _ :: _ =>
      let attempt : string + Chat.JsError :=
        match fetch (Proxy.mkMessage "system" systemPrompt :: messages) with
        | inl error => inr error
        | inr response =>
            if negb (ok response) then
              let statusCode := status response in
              let errorMessage :=
                match json response with
                | inr errorData =>
                    if truthy_string (error_message errorData)
                    then default "" (error_message errorData)
                    else "Error " +:+ JsString.ofZ statusCode +:+ ": "
                         +:+ statusText response
                | inl _ =>
                    "Error " +:+ JsString.ofZ statusCode +:+ ": " +:+ statusText response
                end in
              if (statusCode =? 429) || (statusCode =? 409) then
                inr (Chat.mkError "Error"
                       "The AI service is currently busy. Please try again in a moment.")
              else if (statusCode =? 401) || (statusCode =? 403) then
                inr (Chat.mkError "Error" "Authentication error with AI service.")
              else if 500 <=? statusCode then
                inr (Chat.mkError "Error" "AI service is temporarily unavailable.")
              else
                inr (Chat.mkError "Error"
                       (if String.eqb errorMessage "" then
                          "Error communicating with AI service ("
                          +:+ JsString.ofZ statusCode +:+ ")"
                        else errorMessage))
            else
              match json response with
              | inl error => inr error
              | inr data =>
                  match choices data with
                  | None | Some [] =>
                      inr (Chat.mkError "Error" "No response generated from the AI model")
                  | Some (content :: _) => inl content
                  end
              end
        end in
      match attempt with
      | inl content => inl content
      | inr error =>
          if String.eqb (Chat.err_name error) "AbortError" then
            inr "Request timed out. Please try again."
          else if JsString.includes "fetch" (Chat.err_message error) then
            inr "Network error connecting to AI service."
          else inr (Chat.err_message error)
      end
  end.

(** [generateContextualPrompt(subject, difficulty)] *)
Definition generateContextualPrompt (subject difficulty : option string) : string :=
  let contextPrompt := SYSTEM_PROMPT in
  let contextPrompt :=
    if truthy_string subject then
      contextPrompt +:+ LF +:+ LF +:+ "The student is currently studying "
      +:+ default "" subject
      +:+ ". Tailor your explanations to this subject area and use relevant examples."
    else contextPrompt in
  if truthy_string difficulty then
    if String.eqb (default "" difficulty) "beginner" then
      contextPrompt +:+ LF +:+ LF
      +:+ "This student is at a beginner level. Use very simple language, basic concepts, and plenty of encouragement. Start with fundamental principles."
    else if String.eqb (default "" difficulty) "intermediate" then
      contextPrompt +:+ LF +:+ LF
      +:+ "This student is at an intermediate level. You can use moderate complexity but still break things down clearly. Build on foundational knowledge."
    else if String.eqb (default "" difficulty) "advanced" then
      contextPrompt +:+ LF +:+ LF
      +:+ "This student is at an advanced level. You can discuss more complex concepts but still maintain clarity and provide detailed explanations."
    else contextPrompt
  else contextPrompt.

Definition fallbackResponses : vec string 5 :=
  [# "I'm having trouble connecting to my learning resources right now, but I'm still here to help! Could you tell me more about what you'd like to learn?";
     "It looks like I'm experiencing some technical difficulties, but don't worry! Let's work through this together. What specific topic are you working on?";
     "I apologize for the technical issue I'm having. While I get that sorted out, could you share more details about what you're studying? I want to make sure I can help you as soon as possible!";
     "There seems to be a temporary connection issue on my end. In the meantime, could you break down your question into smaller parts? Sometimes that helps us tackle problems step by step!";
     "I'm experiencing a brief technical hiccup, but I'm committed to helping you learn! Could you rephrase your question or tell me which part is most confusing?"].

(** [getFallbackResponse(userMessage)]; [pick] is the value of
    [Math.floor(Math.random() * fallbackResponses.length)]. *)
Definition getFallbackResponse (pick : fin 5) (userMessage : string) : string :=
  fallbackResponses !!! pick.

End OpenRouter.

(* --------------------------------------------------------------------- *)
(** ** Keywords ([lib/utils.ts]) *)
(* --------------------------------------------------------------------- *)

Module Utils.

Definition commonWords : gset string :=
  list_to_set
    ["the"; "a"; "an"; "and"; "or"; "but"; "in"; "on"; "at"; "to"; "for";
     "of"; "with"; "by"; "is"; "are"; "was"; "were"; "be"; "been"; "have";
     "has"; "had"; "do"; "does"; "did"; "will"; "would"; "could"; "should";
     "may"; "might"; "can"; "cannot"; "this"; "that"; "these"; "those";
     "i"; "you"; "he"; "she"; "it"; "we"; "they"; "me"; "him"; "her"; "us";
     "them"; "my"; "your"; "his"; "her"; "its"; "our"; "their"].

(** [s.replace(/[^\w\s]/g, '')] *)
Definition stripNonWord (s : list ascii) : list ascii :=
  List.filter (fun c => JsString.is_word c || JsString.is_space c) s.

(** [s.split(/\s+/)]: the pieces between the runs of white space; a
    run at either end leaves an empty piece there. [inRun] says that
    the last character read was white space and [piece] is the piece
    being read. *)
Fixpoint splitLoop (inRun : bool) (piece : list ascii) (s : list ascii)
  : list (list ascii) :=
  match s with
  | [] => [piece]
  | c :: r =>
      if JsString.is_space c then
        if inRun then splitLoop true piece r
        else piece :: splitLoop true [] r
      else splitLoop false (piece ++ [c]) r
  end.

Definition splitWhitespace (s : list ascii) : list string :=
  map string_of_list_ascii (splitLoop false [] s).

Definition keep (word : string) : bool :=
  (3 <? String.length word)%nat && negb (bool_decide (word ∈ commonWords)).

(** [extractKeywords(text)] *)
Definition extractKeywords (text : string) : list string :=
  firstn 10
    (List.filter keep
       (splitWhitespace
          (stripNonWord
             (JsString.toLowerCase_chars (list_ascii_of_string text))))).

(** [Math.ceil(a / b)] for integers [a] and [b > 0]. *)
Definition ceilDiv (a b : Z) : Z := - ((- a) / b).

(** [truncateText(text, maxLength)], [maxLength] an integer. *)
Definition truncateText (text : string) (maxLength : Z) : string :=
  if Z.of_nat (String.length text) <=? maxLength then text
  else JsString.trim (String.substring 0 (Z.to_nat maxLength) text) +:+ "...".

(** [calculateReadingTime(text)] *)
Definition calculateReadingTime (text : string) : Z :=
  let wordsPerMinute := 200 in
  let words :=
    Z.of_nat
      (List.length (splitWhitespace (list_ascii_of_string (JsString.trim text)))) in
  ceilDiv words wordsPerMinute.

(** [formatDuration(minutes)], [minutes] an integer. *)
Definition formatDuration (minutes : Z) : string :=
  if minutes <? 60 then
    JsString.ofZ minutes +:+ " minute" +:+ (if negb (minutes =? 1) then "s" else "")
  else
    let hours := minutes / 60 in
    let remainingMinutes := minutes mod 60 in
    if remainingMinutes =? 0 then
      JsString.ofZ hours +:+ " hour" +:+ (if negb (hours =? 1) then "s" else "")
    else
      JsString.ofZ hours +:+ "h " +:+ JsString.ofZ remainingMinutes +:+ "m".

End Utils.

(* --------------------------------------------------------------------- *)
(** ** The progress statistics ([useChat]: the [setProgressStats] updaters) *)
(* --------------------------------------------------------------------- *)

Module Progress.

(** [[...new Set(items)]]: the items in the order of their first
    occurrence. *)
Definition Set_toArray (items : list string) : list string :=
  fold_left
    (fun set item => if existsb (String.eqb item) set then set else set ++ [item])
    items [].

(** The updater of [sendMessage], applied after a reply has come;
    [today] is [new Date().toISOString().split('T')[0]]. *)
Definition countExchange (content : string) (subject : option string) (today : string)
    (prev : ProgressStats.t) : ProgressStats.t :=
  let keywords := Utils.extractKeywords content in
  ProgressStats.mk
    (ProgressStats.totalSessions prev)
    (ProgressStats.totalMessages prev + 2)
    (ProgressStats.timeSpent prev)
    (Set_toArray (ProgressStats.topicsExplored prev ++ keywords))
    (if truthy_string subject
     then Set_toArray (ProgressStats.favoriteSubjects prev ++ [default "" subject])
     else ProgressStats.favoriteSubjects prev)
    (ProgressStats.streakDays prev)
    today.

End Progress.

(* --------------------------------------------------------------------- *)
(** ** Sample data *)
(* --------------------------------------------------------------------- *)

Module Samples.

Definition greeting : Message.t := Message.mk "m1" "hi" user 11 None None.
Definition answer : Message.t := Message.mk "m2" "Hello! What are you studying?" assistant 12 None None.

(** A session created with the New Chat button, still empty. *)
Definition emptySession : ChatSession.t :=
  ChatSession.mk "s1" "New Chat" [] 10 10 None None.

(** A session in which the user has said "hi" before. *)
Definition talk : ChatSession.t :=
  ChatSession.mk "s2" "hi" [greeting; answer] 10 12 (Some "math") (Some beginner).

Definition collection : list ChatSession.t := [emptySession; talk].

Definition env : Chat.Env := Chat.mkEnv 1000 "s-new" 2000 "m-new" "r-new" 3000 3001.

(** The network: a reply, a transport failure on every attempt, a
    rate-limited response. *)
Definition replies (text : string) (attempt : nat) : Chat.FetchResult :=
  Chat.Resolved (Chat.mkResponse 200 (Some (Chat.mkData None (Some text)))).

Definition offline (attempt : nat) : Chat.FetchResult :=
  Chat.Rejected (Chat.ThrownError (Chat.mkError "TypeError" "Failed to fetch")).

(** A reply is on its way, but the send is cancelled first. *)
Definition aborted : nat -> Chat.FetchResult :=
  Chat.abortedFrom Chat.abortError 0 (replies "4").

Definition rateLimited (attempt : nat) : Chat.FetchResult :=
  Chat.Resolved
    (Chat.mkResponse 429
       (Some (Chat.mkData (Some "Rate limit exceeded. Please try again later.") None))).

(** Eleven sessions, numbered by [updatedAt]. *)
Definition numbered (n : Z) : ChatSession.t :=
  ChatSession.mk (JsString.ofZ n) "New Chat" [] 0 n None None.

Definition eleven : list ChatSession.t :=
  map numbered [3; 11; 1; 7; 5; 9; 2; 10; 4; 8; 6].

(** A store with room for ten of them, not for eleven. *)
Definition tightStore : LocalStorage.t := LocalStorage.mk ∅ 760 false.

(** A store that the progress statistics fill. *)
Definition fullStore : LocalStorage.t :=
  LocalStorage.mk
    {[PROGRESS_KEY :=
        JSON_stringify (ProgressStats.mk 3 40 25 ["algebra"; "fractions"] ["math"] 2 "2025-01-01")]}
    200 false.

(** A store that holds [collection]. *)
Definition savedStore : LocalStorage.t :=
  LocalStorage.mk {[SESSIONS_KEY := JSON_stringify collection]} 5000 false.

End Samples.

(* --------------------------------------------------------------------- *)
(** ** Notions used in the statements *)
(* --------------------------------------------------------------------- *)

Section JsonMeasures.

Local Open Scope char_scope.
Local Open Scope nat_scope.

(** The number of parser calls a value needs. *)
Fixpoint jsize (j : json) : nat :=
  match j with
  | JArr l => S (fold_right (fun x n => S (jsize x + n)) 0 l)
  | JObj l => S (fold_right (fun kx n => S (jsize (snd kx) + n)) 0 l)
  | _ => 1
  end.

Definition print_elements : list json -> list ascii :=
  fix elems (l : list json) : list ascii :=
    match l with
    | [] => ["]"]
    | x :: l' =>
        match l' with
        | [] => print x ++ ["]"]
        | _ :: _ => print x ++ "," :: elems l'
        end
    end.

Definition print_members : list (string * json) -> list ascii :=
  fix members (l : list (string * json)) : list ascii :=
    match l with
    | [] => ["}"]
    | (k, x) :: l' =>
        match l' with
        | [] => print_string k ++ ":" :: print x ++ ["}"]
        | _ :: _ => print_string k ++ ":" :: print x ++ "," :: members l'
        end
    end.

(** What may follow a printed value: the end of the text, or a
    character that is neither a digit nor white space. *)
Definition delimited (r : list ascii) : Prop :=
  match r with
  | [] => True
  | c :: _ => is_digit c = false
  end.

(** A printed value starts with a character that the parser does not
    skip and that closes neither an array nor an object. *)
Definition opens (s : list ascii) : Prop :=
  exists c s', s = c :: s' /\ is_ws c = false
               /\ Ascii.eqb c "]" = false /\ Ascii.eqb c "}" = false.

(** The round trip for one value, given enough fuel. *)
Definition parses (j : json) : Prop :=
  forall fuel r, jsize j <= fuel -> delimited r ->
                 parse_value fuel (print j ++ r) = Some (j, r).

Definition esize (l : list json) : nat :=
  fold_right (fun x n => S (jsize x + n)) 0 l.

Definition msize (l : list (string * json)) : nat :=
  fold_right (fun kx n => S (jsize (snd kx) + n)) 0 l.

End JsonMeasures.

(** The requests of one client, at the given times, one after the other:
    the answers of [isRateLimited] and the map left behind. *)
Fixpoint serve (ip : string) (times : list Z) (ipRequests : gmap string Proxy.ClientData)
  : list bool * gmap string Proxy.ClientData :=
  match times with
  | [] => ([], ipRequests)
  | now :: later =>
      let '(limited, ipRequests1) := Proxy.isRateLimited ip now ipRequests in
      let '(answers, ipRequests2) := serve ip later ipRequests1 in
      (limited :: answers, ipRequests2)
  end.

(** A request at [now] starts a window: the client is unknown, or its
    last window started more than a minute before. *)
Definition opensWindow (ip : string) (now : Z) (ipRequests : gmap string Proxy.ClientData)
  : Prop :=
  match ipRequests !! ip with
  | None => True
  | Some clientData => Proxy.RATE_LIMIT_WINDOW < now - Proxy.timestamp clientData
  end.

(** The number of calls of [fetch] among the events, and the waits, in
    order. *)
Definition fetches (events : list Chat.Event) : nat :=
  List.length (List.filter (fun e => match e with Chat.EvFetch _ _ => true | _ => false end)
                           events).

Definition delays (events : list Chat.Event) : list Z :=
  flat_map (fun e => match e with Chat.EvDelay ms => [ms] | _ => [] end) events.

(** The calls of [fetch] and the waits among the events, in order. *)
Definition network (events : list Chat.Event) : list Chat.Event :=
  List.filter (fun e => match e with Chat.EvSetSessions _ => false | _ => true end)
              events.

(** The reply of [POST] to a request that the limiter refuses. *)
Definition refused : Proxy.Reply :=
  Proxy.mkReply 429 (Some "Rate limit exceeded. Please try again later.") None.

Section PostSequence.

Variable apiKeyConfigured : bool.
Variable sendChatMessage : list Proxy.ChatMessage -> string -> string + string.
Variable generateContextualPrompt : option string -> option string -> string.
Variable getFallbackResponse : string -> string.

(** [POST] requests one after the other, each with the time at which
    it arrives: the replies, and the map left behind. *)
Fixpoint handle (requests : list (Proxy.Request * Z))
    (ipRequests : gmap string Proxy.ClientData)
  : list Proxy.Reply * gmap string Proxy.ClientData :=
  match requests with
  | [] => ([], ipRequests)
  | (request, now) :: later =>
      let '(reply, ipRequests1) :=
        Proxy.POST apiKeyConfigured sendChatMessage generateContextualPrompt
          getFallbackResponse request now ipRequests in
      let '(replies, ipRequests2) := handle later ipRequests1 in
      (reply :: replies, ipRequests2)
  end.

(** The reply a request gets from a server that has seen no request
    yet, so that the limiter lets it through. *)
Definition unlimited (request : Proxy.Request) (now : Z) : Proxy.Reply :=
  fst (Proxy.POST apiKeyConfigured sendChatMessage generateContextualPrompt
         getFallbackResponse request now ∅).

End PostSequence.

(** A text that neither begins nor ends with white space. *)
Definition isTrimmed (s : string) : Prop :=
  match list_ascii_of_string s with
  | [] => True
  | c :: r =>
      JsString.is_space c = false /\ JsString.is_space (List.last (c :: r) c) = false
  end.

(** The procedure in words: the text as a sequence of words, which are
    the longest runs of characters without white space. [piece] is the
    word being read. *)
Fixpoint wordsLoop (piece : list ascii) (s : list ascii) : list (list ascii) :=
  match s with
  | [] => match piece with [] => [] | _ :: _ => [piece] end
  | c :: r =>
      if JsString.is_space c then
        match piece with
        | [] => wordsLoop [] r
        | _ :: _ => piece :: wordsLoop [] r
        end
      else wordsLoop (piece ++ [c]) r
  end.

Definition words (s : list ascii) : list string :=
  map string_of_list_ascii (wordsLoop [] s).

(** The punctuation marks of ASCII. *)
Definition isPunctuation (c : ascii) : bool :=
  let n := nat_of_ascii c in
  ((33 <=? n) && (n <=? 47) || (58 <=? n) && (n <=? 64)
   || (91 <=? n) && (n <=? 96) || (123 <=? n) && (n <=? 126))%nat.

Definition stripPunctuation (s : list ascii) : list ascii :=
  List.filter (fun c => negb (isPunctuation c)) s.

(** The steps of the specification, with a given way to strip the text:
    lower-case, strip, split into words, drop the stop words and the
    words of three characters or fewer, keep the first ten. *)
Definition keywordsBy (strip : list ascii -> list ascii) (text : string) : list string :=
  firstn 10
    (List.filter Utils.keep
       (words (strip (JsString.toLowerCase_chars (list_ascii_of_string text))))).

Definition isEmpty (piece : list ascii) : bool :=
  match piece with [] => true | _ :: _ => false end.

(** The requests of several clients, each with its time, one after the
    other. *)
Fixpoint serveAll (requests : list (string * Z))
    (ipRequests : gmap string Proxy.ClientData)
  : list bool * gmap string Proxy.ClientData :=
  match requests with
  | [] => ([], ipRequests)
  | (ip, now) :: later =>
      let '(limited, ipRequests1) := Proxy.isRateLimited ip now ipRequests in
      let '(answers, ipRequests2) := serveAll later ipRequests1 in
      (limited :: answers, ipRequests2)
  end.

(** The answers given to the client [ip] among those of [serveAll]. *)
Fixpoint answersTo (ip : string) (requests : list (string * Z)) (answers : list bool)
  : list bool :=
  match requests, answers with
  | (ip', _) :: later, answer :: answers' =>
      if String.eqb ip' ip then answer :: answersTo ip later answers'
      else answersTo ip later answers'
  | _, _ => []
  end.

(** The times of the requests of [ip]. *)
Definition timesOf (ip : string) (requests : list (string * Z)) : list Z :=
  map snd (List.filter (fun request => String.eqb (fst request) ip) requests).

(** The maps [m1] and [m2] answer alike from [now] on: they agree on a
    client, or [m1] has forgotten a client whose window in [m2] is
    over. *)
Definition forgetsExpired (now : Z) (m1 m2 : gmap string Proxy.ClientData) : Prop :=
  forall ip,
    m1 !! ip = m2 !! ip
    \/ (m1 !! ip = None
        /\ exists clientData,
             m2 !! ip = Some clientData
             /\ Proxy.RATE_LIMIT_WINDOW < now - Proxy.timestamp clientData).

(** What [fetch('/api/chat')] resolves to for a reply of [POST]:
    [NextResponse.json(body, { status })]. *)
Definition overHttp (reply : Proxy.Reply) : Chat.Response :=
  Chat.mkResponse (Proxy.status reply)
    (Some (Chat.mkData (Proxy.reply_error reply) (Proxy.reply_message reply))).

(** The endpoint with the provider of [lib/openrouter.ts] behind it. *)
Definition endpoint (apiKeyConfigured : bool)
    (fetch : list Proxy.ChatMessage -> Chat.JsError + OpenRouter.UpstreamResponse)
    (pick : fin 5) (request : Proxy.Request) (now : Z)
    (ipRequests : gmap string Proxy.ClientData) : Proxy.Reply * gmap string Proxy.ClientData :=
  Proxy.POST apiKeyConfigured (OpenRouter.sendChatMessage fetch)
    OpenRouter.generateContextualPrompt (OpenRouter.getFallbackResponse pick)
    request now ipRequests.

(** The session a send goes to: the current session of the render, or
    the session that [createNewSession] makes. *)
Definition targetOf (env : Chat.Env) (st : Chat.State) : string :=
  match Chat.currentSession (Chat.sessions st) (Chat.currentSessionId st) with
  | Some session => ChatSession.id session
  | None => Chat.newSessionId env
  end.

(** The messages a send starts from. *)
Definition conversationOf (st : Chat.State) : list Message.t :=
  match Chat.currentSession (Chat.sessions st) (Chat.currentSessionId st) with
  | Some session => ChatSession.messages session
  | None => []
  end.

(** The sessions other than [sessionId], in order. *)
Definition others (sessionId : string) (sessions : list ChatSession.t)
  : list ChatSession.t :=
  List.filter (fun s => negb (String.eqb (ChatSession.id s) sessionId)) sessions.

(** A text of white space only. *)
Definition isBlank (s : string) : Prop :=
  Forall (fun c => JsString.is_space c = true) (list_ascii_of_string s).

(** The bookmark flags of a collection as the interface reads them,
    session by session, and the collection with the flags left out. *)
Definition bookmarks (sessions : list ChatSession.t) : list (list bool) :=
  map (fun session =>
         map (fun message => truthy_bool (Message.isBookmarked message))
             (ChatSession.messages session))
      sessions.

Definition withoutBookmarks (sessions : list ChatSession.t) : list ChatSession.t :=
  map (fun session =>
         ChatSession.mk (ChatSession.id session) (ChatSession.title session)
           (map (fun message =>
                   Message.mk (Message.id message) (Message.content message)
                     (Message.role message) (Message.timestamp message) None
                     (Message.isError message))
                (ChatSession.messages session))
           (ChatSession.createdAt session) (ChatSession.updatedAt session)
           (ChatSession.subject session) (ChatSession.difficulty session))
      sessions.

(** Lower-case letters, digits and the underscore. *)
Definition isKeywordChar (c : ascii) : bool :=
  let n := nat_of_ascii c in
  ((48 <=? n) && (n <=? 57) || (n =? 95) || (97 <=? n) && (n <=? 122))%nat.

(** The sum of the waits. *)
Definition totalDelay (events : list Chat.Event) : Z :=
  fold_right Z.add 0 (delays events).

(* ===================================================================== *)
(** * Part II: properties *)
(* ===================================================================== *)

(* --------------------------------------------------------------------- *)
(** ** [JSON.parse] inverts [JSON.stringify] *)
(* --------------------------------------------------------------------- *)

Section JsonRoundTrip.

Local Open Scope char_scope.
Local Open Scope nat_scope.

(** Induction over values that reaches into arrays and objects. *)
Lemma json_ind' (P : json -> Prop)
    (Hnull : P JNull)
    (Hbool : forall b, P (JBool b))
    (Hnum : forall n, P (JNum n))
    (Hstr : forall s, P (JStr s))
    (Harr : forall l, Forall P l -> P (JArr l))
    (Hobj : forall l, Forall (fun kx => P kx.2) l -> P (JObj l)) :
  forall j, P j.
Proof.
  fix IH 1. intros [ | b | n | s | l | l].
  - exact Hnull.
  - apply Hbool.
  - apply Hnum.
  - apply Hstr.
  - apply Harr. induction l as [ | x l IHl]; constructor; [apply IH | exact IHl].
  - apply Hobj. induction l as [ | [k x] l IHl]; constructor; [apply IH | exact IHl].
Qed.

Lemma print_JArr l : print (JArr l) = "[" :: print_elements l.
Proof. reflexivity. Qed.

Lemma print_JObj l : print (JObj l) = "{" :: print_members l.
Proof. reflexivity. Qed.

Lemma all_digits_string_of_uint d :
  Forall (fun c => is_digit c = true)
         (list_ascii_of_string (NilEmpty.string_of_uint d)).
Proof. induction d; simpl; constructor; auto. Qed.

Lemma span_digits_app ds r :
  Forall (fun c => is_digit c = true) ds -> delimited r ->
  span_digits (ds ++ r) = (ds, r).
Proof.
  induction 1 as [ | c ds Hc _ IH]; intros Hr; cbn [span_digits app].
  - destruct r as [ | c r]; [reflexivity | ].
    cbn [delimited] in Hr. cbn [span_digits]. now rewrite Hr.
  - rewrite Hc, IH by assumption. reflexivity.
Qed.

Lemma print_N_cons n : exists c ds, print_N n = c :: ds /\ is_digit c = true.
Proof.
  unfold print_N.
  pose proof (all_digits_string_of_uint (N.to_uint n)) as Hall.
  destruct (list_ascii_of_string (NilEmpty.string_of_uint (N.to_uint n)))
    as [ | c ds] eqn:E.
  - exfalso. destruct n as [ | p]; [discriminate E | ].
    simpl in E. pose proof (DecimalPos.Unsigned.to_uint_nonnil p) as Hp.
    destruct (Pos.to_uint p); [congruence | discriminate E ..].
  - exists c, ds. split; [reflexivity | ]. now inversion Hall.
Qed.

Lemma parse_N_print n r :
  delimited r -> parse_N (print_N n ++ r) = Some (n, r).
Proof.
  intros Hr. unfold parse_N.
  rewrite span_digits_app; [ | apply all_digits_string_of_uint | exact Hr].
  destruct (print_N_cons n) as (c & ds & E & _).
  rewrite E, <- E. unfold print_N.
  rewrite string_of_list_ascii_of_string, NilEmpty.usu.
  now rewrite DecimalN.Unsigned.of_to.
Qed.

Lemma digit_not_special c :
  is_digit c = true ->
  is_ws c = false /\ Ascii.eqb c "n" = false /\ Ascii.eqb c "t" = false
  /\ Ascii.eqb c "f" = false /\ Ascii.eqb c dquote = false
  /\ Ascii.eqb c "[" = false /\ Ascii.eqb c "{" = false
  /\ Ascii.eqb c "-" = false /\ Ascii.eqb c "]" = false
  /\ Ascii.eqb c "}" = false.
Proof.
  destruct c as [[] [] [] [] [] [] [] []]; intros Hd;
    solve [discriminate Hd | repeat split; reflexivity].
Qed.

Lemma parse_chars_escape_char c tail :
  parse_chars (escape_char c ++ tail) =
  match parse_chars tail with
  | Some (cs, r) => Some (String c cs, r)
  | None => None
  end.
Proof. destruct c as [[] [] [] [] [] [] [] []]; reflexivity. Qed.

Lemma parse_chars_escape s r :
  parse_chars (escape s ++ dquote :: r) = Some (s, r).
Proof.
  induction s as [ | c s IH]; simpl; [reflexivity | ].
  rewrite <- app_assoc, parse_chars_escape_char, IH. reflexivity.
Qed.

Lemma parse_chars_print_string s r :
  parse_chars (escape s ++ [dquote] ++ r) = Some (s, r).
Proof. apply parse_chars_escape. Qed.

Lemma print_opens j r : opens (print j ++ r).
Proof.
  destruct j as [ | [] | n | s | l | l];
    try (eexists _, _; cbn; repeat split; reflexivity).
  cbn [print]. unfold print_Z. destruct (n <? 0)%Z.
  - eexists _, _; cbn; repeat split; reflexivity.
  - destruct (print_N_cons (Z.to_N n)) as (c & ds & E & Hc).
    rewrite E. exists c, (ds ++ r).
    destruct (digit_not_special c Hc) as (? & _ & _ & _ & _ & _ & _ & _ & ? & ?).
    repeat split; assumption.
Qed.

Lemma print_elements_opens x l r : opens (print_elements (x :: l) ++ r).
Proof.
  cbn [print_elements]. destruct l; rewrite <- app_assoc; apply print_opens.
Qed.

Lemma parse_elements_print l :
  Forall parses l ->
  forall x fuel r, parses x -> esize (x :: l) <= fuel ->
    parse_elements fuel (print_elements (x :: l) ++ r) = Some (x :: l, r).
Proof.
  induction 1 as [ | y l Hy _ IH]; intros x fuel r Hx Hfuel;
    (destruct fuel as [ | fuel]; [cbn in Hfuel; lia | ]);
    cbn [esize fold_right] in Hfuel; cbn [print_elements].
  - rewrite <- app_assoc. cbn [parse_elements].
    rewrite Hx by (cbn; first [lia | reflexivity]). reflexivity.
  - rewrite <- app_assoc. cbn [parse_elements].
    rewrite Hx by (cbn; first [lia | reflexivity]).
    cbn [app skip_ws is_ws Ascii.eqb Bool.eqb orb].
    change (match l with
            | [] => print y ++ ["]"]
            | _ :: _ => print y ++ "," :: print_elements l
            end) with (print_elements (y :: l)).
    rewrite IH; [reflexivity | exact Hy | cbn [esize fold_right]; lia].
Qed.

Lemma parse_members_print l :
  Forall (fun kx => parses (snd kx)) l ->
  forall k x fuel r, parses x -> msize ((k, x) :: l) <= fuel ->
    parse_members fuel (print_members ((k, x) :: l) ++ r) = Some ((k, x) :: l, r).
Proof.
  induction 1 as [ | [k' y] l Hy _ IH]; intros k x fuel r Hx Hfuel;
    (destruct fuel as [ | fuel]; [cbn in Hfuel; lia | ]);
    cbn [msize fold_right snd] in Hfuel; cbn [print_members].
  - unfold print_string. cbn [parse_members app skip_ws is_ws Ascii.eqb Bool.eqb orb dquote].
    repeat rewrite <- app_assoc. rewrite parse_chars_print_string.
    cbn [app skip_ws is_ws Ascii.eqb Bool.eqb orb].
    repeat rewrite <- app_assoc.
    rewrite Hx by (cbn; first [lia | reflexivity]). reflexivity.
  - unfold print_string at 1.
    cbn [parse_members app skip_ws is_ws Ascii.eqb Bool.eqb orb dquote].
    repeat rewrite <- app_assoc. rewrite parse_chars_print_string.
    cbn [app skip_ws is_ws Ascii.eqb Bool.eqb orb].
    repeat rewrite <- app_assoc.
    rewrite Hx by (cbn; first [lia | reflexivity]).
    cbn [app skip_ws is_ws Ascii.eqb Bool.eqb orb].
    change (match l with
            | [] => print_string k' ++ ":" :: print y ++ ["}"]
            | _ :: _ => print_string k' ++ ":" :: print y ++ "," :: print_members l
            end) with (print_members ((k', y) :: l)).
    rewrite IH; [reflexivity | exact Hy | cbn [msize fold_right snd]; lia].
Qed.

Lemma parse_print j : parses j.
Proof.
  induction j as [ | b | n | s | l IH | l IH] using json_ind';
    intros fuel r Hfuel Hr;
    (destruct fuel as [ | fuel]; [cbn in Hfuel; lia | ]).
  - reflexivity.
  - destruct b; reflexivity.
  - cbn [print]. unfold print_Z. destruct (n <? 0)%Z eqn:Hn.
    + cbn [parse_value app skip_ws is_ws Ascii.eqb Bool.eqb orb dquote].
      rewrite parse_N_print by exact Hr.
      do 3 f_equal. apply Z.ltb_lt in Hn. lia.
    + destruct (print_N_cons (Z.to_N n)) as (c & ds & E & Hc).
      destruct (digit_not_special c Hc)
        as (H1 & H2 & H3 & H4 & H5 & H6 & H7 & H8 & _ & _).
      cbn [parse_value]. rewrite E. cbn [app skip_ws].
      rewrite H1, H2, H3, H4, H5, H6, H7, H8.
      change (c :: ds ++ r) with ((c :: ds) ++ r). rewrite <- E.
      rewrite parse_N_print by exact Hr.
      do 3 f_equal. apply Z.ltb_ge in Hn. lia.
  - cbn [print]. unfold print_string.
    cbn [parse_value app skip_ws is_ws Ascii.eqb Bool.eqb orb dquote].
    rewrite <- app_assoc. rewrite parse_chars_print_string. reflexivity.
  - rewrite print_JArr.
    cbn [parse_value app skip_ws is_ws Ascii.eqb Bool.eqb orb dquote].
    destruct l as [ | x l]; [reflexivity | ].
    destruct (print_elements_opens x l r) as (c & s' & E & Hws & Hc & _).
    rewrite E. cbn [skip_ws]. rewrite Hws, Hc, <- E.
    inversion IH as [ | ? ? Hx Hl]; subst.
    rewrite parse_elements_print; [reflexivity | exact Hl | exact Hx | ].
    cbn [jsize] in Hfuel. fold (esize (x :: l)) in Hfuel. lia.
  - rewrite print_JObj.
    cbn [parse_value app skip_ws is_ws Ascii.eqb Bool.eqb orb dquote].
    destruct l as [ | [k x] l]; [reflexivity | ].
    inversion IH as [ | ? ? Hx Hl]; subst.
    assert (E : exists s', print_members ((k, x) :: l) ++ r = dquote :: s').
    { cbn [print_members]. unfold print_string. destruct l; eexists; reflexivity. }
    destruct E as [s' E]. rewrite E.
    cbn [skip_ws is_ws Ascii.eqb Bool.eqb orb dquote]. fold dquote. rewrite <- E.
    rewrite parse_members_print; [reflexivity | exact Hl | exact Hx | ].
    cbn [jsize] in Hfuel. fold (msize ((k, x) :: l)) in Hfuel. lia.
Qed.

Lemma print_nonempty j : 1 <= List.length (print j).
Proof.
  destruct (print_opens j []) as (c & s' & E & _).
  rewrite app_nil_r in E. rewrite E. cbn. lia.
Qed.

Lemma jsize_le_length j : jsize j <= List.length (print j).
Proof.
  induction j as [ | b | n | s | l IH | l IH] using json_ind';
    try apply print_nonempty.
  - rewrite print_JArr. cbn [jsize List.length]. apply le_n_S.
    induction IH as [ | x l Hx _ IHl]; [cbn; lia | ].
    cbn [fold_right print_elements].
    destruct l as [ | y l].
    + rewrite length_app. cbn. lia.
    + rewrite length_app. cbn [List.length].
      cbn [fold_right] in IHl. cbn [fold_right]. lia.
  - rewrite print_JObj. cbn [jsize List.length]. apply le_n_S.
    induction IH as [ | [k x] l Hx _ IHl]; [cbn; lia | ].
    cbn [fold_right print_members snd]. cbn [snd] in Hx.
    destruct l as [ | [k' y] l].
    + rewrite length_app. cbn [List.length]. rewrite length_app. cbn. lia.
    + rewrite length_app. cbn [List.length]. rewrite length_app.
      cbn [List.length]. cbn [fold_right snd] in IHl. cbn [fold_right snd]. lia.
Qed.

(** [JSON.parse(JSON.stringify(v))] gives [v] back. *)
Lemma parse_stringify j : Json.parse (Json.stringify j) = Some j.
Proof.
  unfold Json.parse, Json.stringify.
  rewrite list_ascii_of_string_of_list_ascii.
  rewrite <- (app_nil_r (print j)) at 2.
  rewrite parse_print; [reflexivity | | exact I].
  pose proof (jsize_le_length j). lia.
Qed.

Lemma stringify_inj j1 j2 : Json.stringify j1 = Json.stringify j2 -> j1 = j2.
Proof.
  intros E. pose proof (parse_stringify j1) as H1.
  rewrite E, parse_stringify in H1. congruence.
Qed.

End JsonRoundTrip.

Example parse_skips_white_space :
  Json.parse "[ 1700000000000 , -2 , true , null , [ ] ]"
  = Some (JArr [JNum 1700000000000; JNum (-2); JBool true; JNull; JArr []]).
Proof. vm_compute. reflexivity. Qed.

Example parse_rejects_trailing_text : Json.parse "[1] x" = None.
Proof. vm_compute. reflexivity. Qed.

Example stringify_escapes_control_characters :
  Json.stringify (JStr (String "010" (String "001" "a")))
  = String "034" ("\n\u0001a" +:+ String "034" "").
Proof. vm_compute. reflexivity. Qed.

(* --------------------------------------------------------------------- *)
(** ** Stored values survive serialisation *)
(* --------------------------------------------------------------------- *)

Lemma Role_ofString_toString r : Role_ofString (Role_toString r) = Some r.
Proof. destruct r; reflexivity. Qed.

Lemma Difficulty_ofString_toString d :
  Difficulty_ofString (Difficulty_toString d) = Some d.
Proof. destruct d; reflexivity. Qed.

Lemma Message_fromJSON_toJSON m : Message_fromJSON (Message_toJSON m) = Some m.
Proof.
  destruct m as [i c r t [b | ] [e | ]]; cbn; rewrite Role_ofString_toString;
    reflexivity.
Qed.

Lemma all_fromJSON_map {A : Type} (f : json -> option A) (g : A -> json) l :
  (forall a, f (g a) = Some a) -> all_fromJSON f (map g l) = Some l.
Proof.
  intros Hfg. induction l as [ | a l IH]; cbn; [reflexivity | ].
  now rewrite Hfg, IH.
Qed.

Lemma ChatSession_fromJSON_toJSON s :
  ChatSession_fromJSON (ChatSession_toJSON s) = Some s.
Proof.
  destruct s as [i t ms c u [sb | ] [d | ]]; cbn;
    rewrite ?Difficulty_ofString_toString,
            (all_fromJSON_map _ _ ms Message_fromJSON_toJSON);
    reflexivity.
Qed.

Lemma Lawful_sessions : Lawful (list ChatSession.t).
Proof. intros l. apply all_fromJSON_map, ChatSession_fromJSON_toJSON. Qed.

Lemma Lawful_messages : Lawful (list Message.t).
Proof. intros l. apply all_fromJSON_map, Message_fromJSON_toJSON. Qed.

Lemma Lawful_progress : Lawful ProgressStats.t.
Proof.
  intros [a b c t f d e]. cbn.
  rewrite !(all_fromJSON_map as_string JStr) by reflexivity. reflexivity.
Qed.

Section LawfulFacts.

Context {T : Type} `{Persistable T}.
Hypothesis lawful : Lawful T.

Lemma JSON_parse_stringify (v : T) : JSON_parse (JSON_stringify v) = Some v.
Proof.
  unfold JSON_parse, JSON_stringify. rewrite parse_stringify. apply lawful.
Qed.

Lemma JSON_stringify_inj (v w : T) :
  JSON_stringify v = JSON_stringify w -> v = w.
Proof.
  intros E. pose proof (JSON_parse_stringify v) as Hv.
  rewrite E, JSON_parse_stringify in Hv. congruence.
Qed.

Lemma JSON_stringify_nonempty (v : T) : JSON_stringify v <> "".
Proof.
  intros E. pose proof (JSON_parse_stringify v) as Hv.
  rewrite E in Hv. discriminate Hv.
Qed.

(** The early return of [setValue] is taken exactly when the new value
    equals the captured one. *)
Lemma nextStoredValue_changed (stored : T) (value : SetStateAction T) :
  valueToStore value stored <> stored ->
  nextStoredValue stored value = Some (valueToStore value stored).
Proof.
  intros Hne. unfold nextStoredValue.
  destruct (String.eqb_spec (JSON_stringify (valueToStore value stored))
                            (JSON_stringify stored)) as [E | E];
    [ | reflexivity].
  apply JSON_stringify_inj in E. contradiction.
Qed.

Lemma nextStoredValue_same (stored : T) (value : SetStateAction T) :
  valueToStore value stored = stored -> nextStoredValue stored value = None.
Proof.
  intros E. unfold nextStoredValue. rewrite E, String.eqb_refl. reflexivity.
Qed.

End LawfulFacts.

(* --------------------------------------------------------------------- *)
(** ** The store adapter *)
(* --------------------------------------------------------------------- *)

Lemma getItem_Some k item st :
  LocalStorage.getItem k st = inl (Some item) ->
  LocalStorage.denied st = false /\ LocalStorage.items st !! k = Some item.
Proof.
  unfold LocalStorage.getItem. destruct (LocalStorage.denied st); [discriminate | ].
  intros E. split; [reflexivity | congruence].
Qed.

(** Writing the text a key already holds leaves the store as it is,
    whether the write succeeds or not. *)
Lemma setItem_same k item st :
  LocalStorage.getItem k st = inl (Some item) ->
  match LocalStorage.setItem k item st with
  | inl st' => st'
  | inr _ => st
  end = st.
Proof.
  intros Hget. apply getItem_Some in Hget as [Hd Hk].
  unfold LocalStorage.setItem. rewrite Hd, (insert_id _ _ _ Hk).
  destruct (_ <=? _)%nat; [ | reflexivity].
  destruct st; cbn in *. now subst.
Qed.

Lemma validSession_toJSON s : validSession (ChatSession_toJSON s) = true.
Proof. reflexivity. Qed.

Lemma filter_validSession_sessions (l : list ChatSession.t) :
  List.filter validSession (map ChatSession_toJSON l) = map ChatSession_toJSON l.
Proof.
  induction l as [ | s l IH]; cbn [map List.filter]; [reflexivity | ].
  rewrite validSession_toJSON, IH. reflexivity.
Qed.

(** On a typed collection the validity filter of the synchronisation
    effect drops nothing, so the effect of a mounted hook is one write. *)
Lemma syncEffect_sessions_mounted (v : list ChatSession.t) st :
  syncEffect SESSIONS_KEY (mkHook v true) st =
  (mkHook v true,
   match LocalStorage.setItem SESSIONS_KEY (JSON_stringify v) st with
   | inl st' => st'
   | inr _ => st
   end).
Proof.
  unfold syncEffect. cbn [isMounted negb storedValue toJSON Persistable_sessions].
  rewrite filter_validSession_sessions, Nat.eqb_refl.
  cbn [String.eqb SESSIONS_KEY negb].
  change (String.eqb SESSIONS_KEY SESSIONS_KEY) with true. cbn iota.
  destruct (LocalStorage.setItem _ _ st); reflexivity.
Qed.

(** C8. A collection that the adapter persisted is read back as it was;
    saving it again unchanged hands the store the very same text: the
    synchronisation effect writes a text equal, character by character,
    to the one stored and leaves the store as it was, and [setValue] with
    the loaded value returns before writing anything. *)
Theorem resave_after_load_is_byte_identical (v : list ChatSession.t) st :
  LocalStorage.getItem SESSIONS_KEY st = inl (Some (JSON_stringify v)) ->
  let loaded : list ChatSession.t := getInitialValue SESSIONS_KEY [] st in
  let h := mkHook loaded true in
  loaded = v
  /\ JSON_stringify loaded = JSON_stringify v
  /\ syncEffect SESSIONS_KEY (mount SESSIONS_KEY [] st) st = (h, st)
  /\ syncEffect SESSIONS_KEY h st =
       (h, match LocalStorage.setItem SESSIONS_KEY (JSON_stringify v) st with
           | inl st' => st'
           | inr _ => st
           end)
  /\ snd (syncEffect SESSIONS_KEY h st) = st
  /\ (forall mounted,
         setValue SESSIONS_KEY (mkHook loaded mounted) (NewValue loaded) st = (None, st))
  /\ (forall mounted,
         setValue SESSIONS_KEY (mkHook loaded mounted) (Updater (fun prev => prev)) st
         = (None, st)).
Proof.
  intros Hget loaded h.
  assert (Hloaded : loaded = v).
  { unfold loaded, getInitialValue. rewrite Hget.
    destruct (String.eqb_spec (JSON_stringify v) "") as [E | _].
    - now apply (JSON_stringify_nonempty Lawful_sessions) in E.
    - now rewrite (JSON_parse_stringify Lawful_sessions). }
  subst h. rewrite Hloaded.
  repeat split.
  - unfold mount. fold loaded. rewrite Hloaded. reflexivity.
  - apply syncEffect_sessions_mounted.
  - rewrite syncEffect_sessions_mounted. cbn [snd]. now apply setItem_same.
  - intros mounted. unfold setValue. cbn [storedValue].
    now rewrite (nextStoredValue_same v (NewValue v)).
  - intros mounted. unfold setValue. cbn [storedValue].
    now rewrite (nextStoredValue_same v (Updater (fun prev => prev))).
Qed.

Lemma resave_after_load_is_byte_identical_witness :
  LocalStorage.getItem SESSIONS_KEY Samples.savedStore
    = inl (Some (JSON_stringify Samples.collection))
  /\ getInitialValue SESSIONS_KEY [] Samples.savedStore = Samples.collection
  /\ snd (syncEffect SESSIONS_KEY
            (mkHook (getInitialValue SESSIONS_KEY ([] : list ChatSession.t)
                       Samples.savedStore) true)
            Samples.savedStore)
     = Samples.savedStore.
Proof.
  assert (Hget : LocalStorage.getItem SESSIONS_KEY Samples.savedStore
                 = inl (Some (JSON_stringify Samples.collection)))
    by (vm_compute; reflexivity).
  split; [exact Hget | ].
  destruct (resave_after_load_is_byte_identical Samples.collection Samples.savedStore Hget)
    as (Hloaded & _ & _ & _ & Hsame & _).
  split; [exact Hloaded | exact Hsame].
Defined.

(* --------------------------------------------------------------------- *)
(** ** Sorting by a numeric key, largest first *)
(* --------------------------------------------------------------------- *)

Section SortByKey.

Context {A : Type}.
Variable key : A -> Z.

Let compareFn (a b : A) : Z := key b - key a.
Let before (a b : A) : Prop := key b <= key a.

Lemma sort_insert_perm x l : Permutation (sort_insert compareFn x l) (x :: l).
Proof.
  induction l as [ | y l IH]; cbn [sort_insert]; [reflexivity | ].
  destruct (compareFn x y <=? 0); [reflexivity | ].
  rewrite IH. apply perm_swap.
Qed.

Lemma Array_sort_perm l : Permutation (Array_sort compareFn l) l.
Proof.
  induction l as [ | x l IH]; cbn [Array_sort]; [reflexivity | ].
  rewrite sort_insert_perm. now constructor.
Qed.

Lemma sort_insert_sorted x l :
  StronglySorted before l -> StronglySorted before (sort_insert compareFn x l).
Proof.
  induction 1 as [ | y l Hl IH Hy]; cbn [sort_insert].
  - repeat constructor.
  - destruct (Z.leb_spec (compareFn x y) 0) as [Hle | Hgt].
    + constructor; [now constructor | ].
      constructor; [unfold before, compareFn in *; lia | ].
      eapply List.Forall_impl; [ | exact Hy].
      intros z Hz. unfold before, compareFn in *. lia.
    + constructor; [exact IH | ].
      eapply Permutation_Forall; [symmetry; apply sort_insert_perm | ].
      constructor; [unfold before, compareFn in *; lia | exact Hy].
Qed.

Lemma Array_sort_sorted l : StronglySorted before (Array_sort compareFn l).
Proof.
  induction l as [ | x l IH]; cbn [Array_sort]; [constructor | ].
  now apply sort_insert_sorted.
Qed.

Lemma sorted_app_before (l1 l2 : list A) :
  StronglySorted before (l1 ++ l2) ->
  forall a b, In a l1 -> In b l2 -> key b <= key a.
Proof.
  induction l1 as [ | x l1 IH]; intros Hs a b Ha Hb; [destruct Ha | ].
  cbn [app] in Hs. inversion Hs as [ | ? ? Hs' Hall]; subst.
  destruct Ha as [-> | Ha]; [ | now apply IH].
  rewrite List.Forall_forall in Hall. apply Hall, in_or_app. now right.
Qed.

Lemma sorted_firstn n (l : list A) :
  StronglySorted before l -> StronglySorted before (firstn n l).
Proof.
  intros Hs. revert n. induction Hs as [ | x l Hl IH Hx]; intros [ | n];
    cbn [firstn]; try constructor.
  - apply IH.
  - rewrite List.Forall_forall in *. intros y Hy. apply Hx.
    rewrite <- (firstn_skipn n l). apply in_or_app. now left.
Qed.

End SortByKey.

(** A sort commutes with a map that respects the comparison. *)
Lemma Array_sort_map {A B : Type} (f : A -> B) (cmpA : A -> A -> Z)
    (cmpB : B -> B -> Z) (l : list A) :
  (forall a b, cmpB (f a) (f b) = cmpA a b) ->
  Array_sort cmpB (map f l) = map f (Array_sort cmpA l).
Proof.
  intros Hcmp.
  assert (Hins : forall x l', sort_insert cmpB (f x) (map f l')
                              = map f (sort_insert cmpA x l')).
  { intros x l'. induction l' as [ | y l' IH]; cbn [sort_insert map]; [reflexivity | ].
    rewrite Hcmp. destruct (cmpA x y <=? 0); [reflexivity | ].
    cbn [map]. now rewrite IH. }
  induction l as [ | x l IH]; cbn [Array_sort map]; [reflexivity | ].
  now rewrite IH, Hins.
Qed.

Lemma byUpdatedAtDesc_json_toJSON a b :
  byUpdatedAtDesc_json (ChatSession_toJSON a) (ChatSession_toJSON b)
  = byUpdatedAtDesc a b.
Proof. reflexivity. Qed.

(** The trimmed array that [handleQuotaExceeded] serialises is the typed
    collection sorted and cut to ten. *)
Lemma trimmed_sessions_typed (v : list ChatSession.t) :
  Json.stringify
    (JArr (slice0 10 (Array_sort byUpdatedAtDesc_json (map ChatSession_toJSON v))))
  = JSON_stringify (slice0 10 (Array_sort byUpdatedAtDesc v)).
Proof.
  unfold JSON_stringify, slice0. cbn [toJSON Persistable_sessions].
  rewrite (Array_sort_map ChatSession_toJSON byUpdatedAtDesc byUpdatedAtDesc_json)
    by apply byUpdatedAtDesc_json_toJSON.
  now rewrite firstn_map.
Qed.

Lemma setItem_quota_not_denied k item st :
  LocalStorage.setItem k item st = inr LocalStorage.QuotaExceededError ->
  LocalStorage.denied st = false.
Proof.
  unfold LocalStorage.setItem. destruct (LocalStorage.denied st); [discriminate | reflexivity].
Qed.

(** C5, as the code has it. When the immediate save of [setValue] fails
    for lack of room:
    - for the sessions key with more than ten sessions, one more write is
      made, of the ten sessions with the largest [updatedAt], sorted from
      the most recent down;
    - for the sessions key with ten sessions or fewer, and for every
      other key, the progress statistics are removed from the store and
      the handler writes nothing; the value is written again only by the
      synchronisation effect that follows the state change. *)
Theorem quota_degradation_policy :
  (forall (h : Hook (list ChatSession.t)) (v : list ChatSession.t) st,
      isMounted h = true ->
      v <> storedValue h ->
      LocalStorage.setItem SESSIONS_KEY (JSON_stringify v) st
        = inr LocalStorage.QuotaExceededError ->
      (10 < List.length v)%nat ->
      let trimmed := slice0 10 (Array_sort byUpdatedAtDesc v) in
      setValue SESSIONS_KEY h (NewValue v) st =
        (Some v,
         match LocalStorage.setItem SESSIONS_KEY (JSON_stringify trimmed) st with
         | inl st' => st'
         | inr _ => st
         end)
      /\ List.length trimmed = 10%nat
      /\ StronglySorted
           (fun a b => ChatSession.updatedAt b <= ChatSession.updatedAt a) trimmed
      /\ exists dropped,
           Permutation v (trimmed ++ dropped)
           /\ forall a b, In a trimmed -> In b dropped ->
                          ChatSession.updatedAt b <= ChatSession.updatedAt a)
  /\ (forall (h : Hook (list ChatSession.t)) (v : list ChatSession.t) st,
         isMounted h = true ->
         v <> storedValue h ->
         LocalStorage.setItem SESSIONS_KEY (JSON_stringify v) st
           = inr LocalStorage.QuotaExceededError ->
         (List.length v <= 10)%nat ->
         setValue SESSIONS_KEY h (NewValue v) st = (Some v, evictProgress st))
  /\ (forall (T : Type) (P : Persistable T) (key : string) (h : Hook T) (v : T) st,
         Lawful T ->
         key <> SESSIONS_KEY ->
         isMounted h = true ->
         v <> storedValue h ->
         LocalStorage.setItem key (JSON_stringify v) st
           = inr LocalStorage.QuotaExceededError ->
         setValue key h (NewValue v) st = (Some v, evictProgress st)
         /\ syncEffect key (mkHook v true) (evictProgress st) =
              (mkHook v true,
               match LocalStorage.setItem key (JSON_stringify v) (evictProgress st) with
               | inl st' => st'
               | inr _ => evictProgress st
               end)).
Proof.
  split; [ | split].
  - intros h v st Hm Hne Hfail Hlen trimmed.
    split; [ | split; [ | split]].
    + unfold setValue.
      rewrite (nextStoredValue_changed Lawful_sessions) by exact Hne.
      cbn [valueToStore]. rewrite Hm, Hfail.
      unfold handleQuotaExceeded. cbn [toJSON Persistable_sessions].
      rewrite length_map. apply Nat.ltb_lt in Hlen. rewrite Hlen.
      change (String.eqb SESSIONS_KEY SESSIONS_KEY) with true. cbn [andb].
      now rewrite trimmed_sessions_typed.
    + unfold trimmed, slice0. rewrite length_firstn.
      assert (Hp : Permutation (Array_sort byUpdatedAtDesc v) v)
        by exact (Array_sort_perm ChatSession.updatedAt v).
      rewrite (Permutation_length Hp). lia.
    + apply (sorted_firstn ChatSession.updatedAt).
      exact (Array_sort_sorted ChatSession.updatedAt v).
    + exists (skipn 10 (Array_sort byUpdatedAtDesc v)). split.
      * unfold trimmed, slice0. rewrite firstn_skipn.
        symmetry. exact (Array_sort_perm ChatSession.updatedAt v).
      * apply (sorted_app_before ChatSession.updatedAt).
        unfold trimmed, slice0. rewrite firstn_skipn.
        exact (Array_sort_sorted ChatSession.updatedAt v).
  - intros h v st Hm Hne Hfail Hlen. unfold setValue.
    rewrite (nextStoredValue_changed Lawful_sessions) by exact Hne.
    cbn [valueToStore]. rewrite Hm, Hfail.
    unfold handleQuotaExceeded. cbn [toJSON Persistable_sessions].
    rewrite length_map.
    assert (Hlt : (10 <? List.length v)%nat = false) by (apply Nat.ltb_ge; exact Hlen).
    rewrite Hlt, andb_false_r.
    unfold LocalStorage.removeItem, evictProgress.
    pose proof (setItem_quota_not_denied _ _ _ Hfail) as Hd.
    destruct (LocalStorage.denied st); [discriminate Hd | reflexivity].
  - intros T P key h v st Hlaw Hkey Hm Hne Hfail.
    assert (Hk : String.eqb key SESSIONS_KEY = false) by (now apply String.eqb_neq).
    split.
    + unfold setValue.
      rewrite (nextStoredValue_changed Hlaw) by exact Hne.
      cbn [valueToStore]. rewrite Hm, Hfail.
      unfold handleQuotaExceeded. rewrite Hk. cbn [andb].
      unfold LocalStorage.removeItem, evictProgress.
      pose proof (setItem_quota_not_denied _ _ _ Hfail) as Hd.
      destruct (LocalStorage.denied st); [discriminate Hd | ].
      destruct (toJSON v); reflexivity.
    + unfold syncEffect. cbn [isMounted negb storedValue].
      rewrite Hk.
      destruct (LocalStorage.setItem key (JSON_stringify v) (evictProgress st));
        destruct (toJSON v); reflexivity.
Qed.

Lemma quota_degradation_policy_witness :
  (let trimmed := slice0 10 (Array_sort byUpdatedAtDesc Samples.eleven) in
   setValue SESSIONS_KEY (mkHook [] true) (NewValue Samples.eleven) Samples.tightStore
   = (Some Samples.eleven,
      match LocalStorage.setItem SESSIONS_KEY (JSON_stringify trimmed) Samples.tightStore with
      | inl st' => st'
      | inr _ => Samples.tightStore
      end)
   /\ map ChatSession.updatedAt trimmed = [11; 10; 9; 8; 7; 6; 5; 4; 3; 2])
  /\ setValue SESSIONS_KEY (mkHook [] true) (NewValue Samples.collection)
        Samples.fullStore
      = (Some Samples.collection, evictProgress Samples.fullStore)
  /\ setValue BOOKMARKS_KEY (mkHook [] true) (NewValue [Samples.greeting]) Samples.fullStore
      = (Some [Samples.greeting], evictProgress Samples.fullStore).
Proof.
  destruct quota_degradation_policy as (Hmany & Hfew & Hother).
  split; [ | split].
  - destruct (Hmany (mkHook [] true) Samples.eleven Samples.tightStore) as (Hset & _).
    + reflexivity.
    + discriminate.
    + vm_compute; reflexivity.
    + vm_compute; lia.
    + split; [exact Hset | vm_compute; reflexivity].
  - apply (Hfew (mkHook [] true) Samples.collection).
    + reflexivity.
    + discriminate.
    + vm_compute; reflexivity.
    + vm_compute; lia.
  - apply (Hother (list Message.t) _ BOOKMARKS_KEY (mkHook [] true) [Samples.greeting]).
    + exact Lawful_messages.
    + discriminate.
    + reflexivity.
    + discriminate.
    + vm_compute; reflexivity.
Defined.

(** C5, the sentence as it stands, fails on the code. Writing the
    bookmarks into a store that the progress statistics fill fails for
    lack of room; the handler removes the statistics, after which the
    write would succeed, but it does not repeat the write: the bookmarks
    are not in the store when [setValue] returns. *)
Lemma quota_other_key_write_not_retried :
  let write := JSON_stringify [Samples.greeting] in
  let after :=
    snd (setValue BOOKMARKS_KEY (mkHook [] true) (NewValue [Samples.greeting])
           Samples.fullStore) in
  LocalStorage.setItem BOOKMARKS_KEY write Samples.fullStore
    = inr LocalStorage.QuotaExceededError
  /\ (exists st', LocalStorage.setItem BOOKMARKS_KEY write
                    (evictProgress Samples.fullStore) = inl st'
                  /\ LocalStorage.getItem BOOKMARKS_KEY st' = inl (Some write))
  /\ LocalStorage.getItem PROGRESS_KEY after = inl None
  /\ LocalStorage.getItem BOOKMARKS_KEY after = inl None.
Proof.
  cbv zeta. split; [vm_compute; reflexivity | ].
  split; [eexists; split; vm_compute; reflexivity | ].
  split; vm_compute; reflexivity.
Qed.

(* --------------------------------------------------------------------- *)
(** ** The rate limiter *)
(* --------------------------------------------------------------------- *)

Lemma isRateLimited_opens ip now (m : gmap string Proxy.ClientData) :
  opensWindow ip now m ->
  Proxy.isRateLimited ip now m = (false, <[ip := Proxy.mkClient 1 now]> m).
Proof.
  unfold opensWindow, Proxy.isRateLimited. destruct (m !! ip) as [d | ]; [ | reflexivity].
  intros Hlt. apply Z.ltb_lt in Hlt. now rewrite Hlt.
Qed.

Lemma isRateLimited_within ip now (m : gmap string Proxy.ClientData) c start :
  m !! ip = Some (Proxy.mkClient c start) ->
  now - start <= Proxy.RATE_LIMIT_WINDOW ->
  Proxy.isRateLimited ip now m =
  (Proxy.MAX_REQUESTS_PER_WINDOW <? c + 1, <[ip := Proxy.mkClient (c + 1) start]> m).
Proof.
  intros Hm Hle. unfold Proxy.isRateLimited. rewrite Hm. cbn [Proxy.timestamp Proxy.count].
  apply Z.ltb_ge in Hle. now rewrite Hle.
Qed.

(** The sweep leaves the entry of a running window in place. *)
Lemma cleanup_keeps_window ip now (m : gmap string Proxy.ClientData) clientData :
  m !! ip = Some clientData ->
  now - Proxy.timestamp clientData <= Proxy.RATE_LIMIT_WINDOW * 5 ->
  Proxy.cleanup now m !! ip = Some clientData.
Proof.
  intros Hm Hle. unfold Proxy.cleanup. apply map_lookup_filter_Some.
  split; [exact Hm | cbn; lia].
Qed.

(** Inside a window the [k]-th request after the [c] counted so far is
    refused exactly when [c + k] exceeds the limit. *)
Lemma serve_within ip times :
  forall (m : gmap string Proxy.ClientData) c start,
    m !! ip = Some (Proxy.mkClient c start) ->
    Forall (fun now => now - start <= Proxy.RATE_LIMIT_WINDOW) times ->
    fst (serve ip times m)
    = map (fun k => Proxy.MAX_REQUESTS_PER_WINDOW <? c + Z.of_nat k)
          (seq 1 (List.length times))
    /\ snd (serve ip times m) !! ip
       = Some (Proxy.mkClient (c + Z.of_nat (List.length times)) start).
Proof.
  induction times as [ | now later IH]; intros m c start Hm Hall.
  - cbn. rewrite Z.add_0_r. split; [reflexivity | exact Hm].
  - inversion Hall as [ | ? ? Hnow Hlater]; subst.
    cbn [serve]. rewrite (isRateLimited_within ip now m c start Hm Hnow).
    specialize (IH (<[ip := Proxy.mkClient (c + 1) start]> m) (c + 1) start
                   (lookup_insert_eq _ _ _) Hlater).
    destruct (serve ip later _) as [answers m2]. cbn [fst snd] in *.
    destruct IH as [IHa IHm]. split.
    + cbn [List.length seq map]. rewrite IHa. f_equal.
      rewrite <- (seq_shift (List.length later) 1), map_map.
      apply map_ext. intros k. f_equal. lia.
    + rewrite IHm. do 2 f_equal. cbn [List.length]. lia.
Qed.

(** The window a request opens: the answers to it and to the requests
    that follow inside the window, and the entry of the client. *)
Lemma serve_window ip t1 times (m : gmap string Proxy.ClientData) :
  opensWindow ip t1 m ->
  Forall (fun now => now - t1 <= Proxy.RATE_LIMIT_WINDOW) times ->
  fst (serve ip (t1 :: times) m)
  = false :: map (fun k => Proxy.MAX_REQUESTS_PER_WINDOW <? 1 + Z.of_nat k)
                 (seq 1 (List.length times))
  /\ snd (serve ip (t1 :: times) m) !! ip
     = Some (Proxy.mkClient (1 + Z.of_nat (List.length times)) t1).
Proof.
  intros Hopen Hall. cbn [serve]. rewrite (isRateLimited_opens ip t1 m Hopen).
  pose proof (serve_within ip times (<[ip := Proxy.mkClient 1 t1]> m) 1 t1
                (lookup_insert_eq _ _ _) Hall) as [Ha Hm].
  destruct (serve ip times _) as [answers m2]. cbn [fst snd] in *.
  now rewrite Ha, Hm.
Qed.

(** [POST] asks the limiter first: it answers with the refusal when the
    limiter refuses, and in every case leaves the map of the limiter. *)
Lemma POST_after_check apiKeyConfigured sendChatMessage generateContextualPrompt
    getFallbackResponse request now (m : gmap string Proxy.ClientData) :
  Proxy.POST apiKeyConfigured sendChatMessage generateContextualPrompt
    getFallbackResponse request now m
  = (if fst (Proxy.isRateLimited (Proxy.clientIp request) now m) then refused
     else unlimited apiKeyConfigured sendChatMessage generateContextualPrompt
            getFallbackResponse request now,
     snd (Proxy.isRateLimited (Proxy.clientIp request) now m)).
Proof.
  unfold unlimited, Proxy.POST.
  assert (Hfresh : Proxy.isRateLimited (Proxy.clientIp request) now ∅
                   = (false, <[Proxy.clientIp request := Proxy.mkClient 1 now]> ∅)).
  { unfold Proxy.isRateLimited. now rewrite lookup_empty. }
  rewrite Hfresh.
  destruct (Proxy.isRateLimited (Proxy.clientIp request) now m) as [limited m'].
  destruct limited; reflexivity.
Qed.

Lemma unlimited_not_refused apiKeyConfigured sendChatMessage generateContextualPrompt
    getFallbackResponse request now :
  Proxy.reply_error
    (unlimited apiKeyConfigured sendChatMessage generateContextualPrompt
       getFallbackResponse request now)
  <> Proxy.reply_error refused.
Proof.
  unfold unlimited, Proxy.POST, Proxy.isRateLimited.
  rewrite lookup_empty. cbn [fst].
  destruct (Proxy.body request) as [b | ]; [ | discriminate].
  destruct (Proxy.messages b) as [[ | msg msgs] | ]; [discriminate | | discriminate].
  destruct (negb apiKeyConfigured); [discriminate | ].
  destruct (sendChatMessage _ _); [discriminate | ].
  destruct (_ || _); discriminate.
Qed.

(** A run of [POST] requests of one client, told by the limiter. *)
Lemma handle_serve apiKeyConfigured sendChatMessage generateContextualPrompt
    getFallbackResponse ip requests :
  Forall (fun request => Proxy.clientIp (fst request) = ip) requests ->
  forall m : gmap string Proxy.ClientData,
    let handled :=
      handle apiKeyConfigured sendChatMessage generateContextualPrompt
        getFallbackResponse requests m in
    fst handled
    = map (fun answered : Proxy.Request * Z * bool =>
             if snd answered then refused
             else unlimited apiKeyConfigured sendChatMessage generateContextualPrompt
                    getFallbackResponse (fst (fst answered)) (snd (fst answered)))
          (combine requests (fst (serve ip (map snd requests) m)))
    /\ snd handled = snd (serve ip (map snd requests) m).
Proof.
  induction 1 as [ | [request now] later Hip _ IH]; intros m; [now split | ].
  cbv zeta in *. cbn [handle map snd serve]. rewrite POST_after_check.
  cbn [fst] in Hip. rewrite Hip.
  destruct (Proxy.isRateLimited ip now m) as [limited m1]. cbn [fst snd].
  destruct (IH m1) as [IHr IHm].
  destruct (handle _ _ _ _ later m1) as [replies m2].
  destruct (serve ip (map snd later) m1) as [answers m2'].
  cbn [fst snd combine map] in *. now rewrite IHr, IHm.
Qed.

(** C4. Six [POST] requests of one client inside one window, whatever
    their bodies and whatever the provider does: each of the first five
    gets the reply it would get from a server that has seen no request,
    which is never the refusal of the limiter; the sixth gets that
    refusal, with the status 429; the map then counts six requests in
    the window that the first one opened. A request of the client that
    comes more than a minute after the start of the window, after any
    number of these requests, is let through and starts a new window
    with a count of one. *)
Theorem sixth_request_in_window_is_rejected
    (apiKeyConfigured : bool)
    (sendChatMessage : list Proxy.ChatMessage -> string -> string + string)
    (generateContextualPrompt : option string -> option string -> string)
    (getFallbackResponse : string -> string)
    (ip : string) (request1 : Proxy.Request) (t1 : Z)
    (later : list (Proxy.Request * Z)) (m : gmap string Proxy.ClientData) :
  List.length later = 5%nat ->
  Forall (fun request => Proxy.clientIp (fst request) = ip) ((request1, t1) :: later) ->
  opensWindow ip t1 m ->
  Forall (fun request => snd request - t1 <= Proxy.RATE_LIMIT_WINDOW) later ->
  let POST :=
    Proxy.POST apiKeyConfigured sendChatMessage generateContextualPrompt
      getFallbackResponse in
  let posts :=
    handle apiKeyConfigured sendChatMessage generateContextualPrompt
      getFallbackResponse in
  let fresh :=
    unlimited apiKeyConfigured sendChatMessage generateContextualPrompt
      getFallbackResponse in
  let requests := (request1, t1) :: later in
  let replies := fst (posts requests m) in
  replies
  = map (fun request => fresh (fst request) (snd request)) (firstn 5 requests)
    ++ [refused]
  /\ Forall (fun reply => Proxy.reply_error reply <> Proxy.reply_error refused)
            (firstn 5 replies)
  /\ (Proxy.status <$> replies !! 5%nat) = Some 429
  /\ fst (serve ip (map snd requests) m) = [false; false; false; false; false; true]
  /\ snd (posts requests m) !! ip = Some (Proxy.mkClient 6 t1)
  /\ (forall (k : nat) request now,
         Proxy.clientIp request = ip ->
         Proxy.RATE_LIMIT_WINDOW < now - t1 ->
         let served := snd (posts (firstn (S k) requests) m) in
         fst (POST request now served) = fresh request now
         /\ snd (POST request now served) = <[ip := Proxy.mkClient 1 now]> served
         /\ Proxy.isRateLimited ip now served
            = (false, <[ip := Proxy.mkClient 1 now]> served)).
Proof.
  intros Hlen Hip Hopen Hall POST posts fresh requests replies.
  subst POST posts fresh requests replies.
  assert (Htimes : forall l : list (Proxy.Request * Z),
             Forall (fun request => snd request - t1 <= Proxy.RATE_LIMIT_WINDOW) l ->
             Forall (fun now => now - t1 <= Proxy.RATE_LIMIT_WINDOW) (map snd l)).
  { intros l Hl. apply List.Forall_forall. intros now Hin.
    apply in_map_iff in Hin as (request & <- & Hin).
    rewrite List.Forall_forall in Hl. now apply Hl. }
  assert (Hreset : forall (k : nat) request now,
             Proxy.clientIp request = ip ->
             Proxy.RATE_LIMIT_WINDOW < now - t1 ->
             let served :=
               snd (handle apiKeyConfigured sendChatMessage generateContextualPrompt
                      getFallbackResponse (firstn (S k) ((request1, t1) :: later)) m) in
             fst (Proxy.POST apiKeyConfigured sendChatMessage generateContextualPrompt
                    getFallbackResponse request now served)
             = unlimited apiKeyConfigured sendChatMessage generateContextualPrompt
                 getFallbackResponse request now
             /\ snd (Proxy.POST apiKeyConfigured sendChatMessage generateContextualPrompt
                       getFallbackResponse request now served)
                = <[ip := Proxy.mkClient 1 now]> served
             /\ Proxy.isRateLimited ip now served
                = (false, <[ip := Proxy.mkClient 1 now]> served)).
  { intros k request now Hrip Hnow served. subst served. cbn [firstn].
    assert (Hip' : Forall (fun request => Proxy.clientIp (fst request) = ip)
                          ((request1, t1) :: firstn k later)).
    { inversion Hip as [ | ? ? H1 Hl]; subst. constructor; [exact H1 | ].
      rewrite List.Forall_forall in *. intros x Hx. apply Hl.
      rewrite <- (firstn_skipn k later). apply in_or_app. now left. }
    assert (Hall' : Forall (fun request => snd request - t1 <= Proxy.RATE_LIMIT_WINDOW)
                           (firstn k later)).
    { rewrite List.Forall_forall in *. intros x Hx. apply Hall.
      rewrite <- (firstn_skipn k later). apply in_or_app. now left. }
    destruct (handle_serve apiKeyConfigured sendChatMessage generateContextualPrompt
                getFallbackResponse ip _ Hip' m) as [_ Hm].
    rewrite Hm. cbn [map snd].
    destruct (serve_window ip t1 _ m Hopen (Htimes _ Hall')) as [_ Hentry].
    assert (Hlimiter : Proxy.isRateLimited ip now
                         (snd (serve ip (t1 :: map snd (firstn k later)) m))
                       = (false, <[ip := Proxy.mkClient 1 now]>
                                   (snd (serve ip (t1 :: map snd (firstn k later)) m)))).
    { apply isRateLimited_opens. unfold opensWindow. rewrite Hentry. exact Hnow. }
    rewrite POST_after_check, Hrip, Hlimiter. cbn [fst snd]. repeat split. }
  destruct (handle_serve apiKeyConfigured sendChatMessage generateContextualPrompt
              getFallbackResponse ip _ Hip m) as [Hreplies Hmap].
  destruct (serve_window ip t1 _ m Hopen (Htimes _ Hall)) as [Hanswers Hentry].
  cbn [map snd] in Hreplies, Hmap. rewrite Hmap, Hentry.
  destruct later as [ | [r2 t2] [ | [r3 t3] [ | [r4 t4] [ | [r5 t5] [ | [r6 t6] [ | ]]]]]];
    try discriminate Hlen.
  cbn [map snd List.length seq] in Hanswers.
  assert (Hsix : fst (serve ip [t1; t2; t3; t4; t5; t6] m)
                 = [false; false; false; false; false; true]) by exact Hanswers.
  cbn [map snd] in *. rewrite Hsix in Hreplies. cbn [combine map fst snd] in Hreplies.
  rewrite Hreplies. cbn [firstn map app fst snd].
  split; [reflexivity | split; [ | split; [reflexivity | split; [exact Hsix | split]]]].
  - repeat constructor; apply unlimited_not_refused.
  - reflexivity.
  - exact Hreset.
Qed.

Lemma sixth_request_in_window_is_rejected_witness :
  let request := fun text =>
    Proxy.mkRequest (Some "203.0.113.7")
      (Some (Proxy.mkBody (Some [Proxy.mkMessage "user" text]) None None)) in
  let provider := fun (msgs : list Proxy.ChatMessage) (prompt : string) =>
    inl ("You said: " +:+ Proxy.lastContent msgs) : string + string in
  let replies :=
    fst (handle true provider (fun _ _ => "prompt") (fun _ => "canned")
           [(request "one", 1000); (request "two", 2000); (request "three", 3000);
            (request "four", 4000); (request "five", 5000); (request "six", 61000)] ∅) in
  replies
  = [Proxy.mkReply 200 None (Some "You said: one");
     Proxy.mkReply 200 None (Some "You said: two");
     Proxy.mkReply 200 None (Some "You said: three");
     Proxy.mkReply 200 None (Some "You said: four");
     Proxy.mkReply 200 None (Some "You said: five");
     Proxy.mkReply 429 (Some "Rate limit exceeded. Please try again later.") None].
Proof.
  cbv zeta.
  refine (eq_trans
            (proj1 (sixth_request_in_window_is_rejected true
                      (fun msgs _ => inl ("You said: " +:+ Proxy.lastContent msgs))
                      (fun _ _ => "prompt") (fun _ => "canned")
                      "203.0.113.7"
                      (Proxy.mkRequest (Some "203.0.113.7")
                         (Some (Proxy.mkBody (Some [Proxy.mkMessage "user" "one"])
                                  None None)))
                      1000
                      (map (fun textAt =>
                              (Proxy.mkRequest (Some "203.0.113.7")
                                 (Some (Proxy.mkBody
                                          (Some [Proxy.mkMessage "user" (fst textAt)])
                                          None None)),
                               snd textAt))
                           [("two", 2000); ("three", 3000); ("four", 4000);
                            ("five", 5000); ("six", 61000)])
                      ∅ _ _ _ _)) _).
  - reflexivity.
  - repeat constructor.
  - exact I.
  - repeat constructor; vm_compute; discriminate.
  - vm_compute. reflexivity.
Defined.

(* --------------------------------------------------------------------- *)
(** ** [trim] *)
(* --------------------------------------------------------------------- *)

Lemma trimStart_chars_blank s :
  JsString.trimStart_chars s = [] <-> Forall (fun c => JsString.is_space c = true) s.
Proof.
  induction s as [ | c r IH]; cbn [JsString.trimStart_chars].
  - split; [constructor | reflexivity].
  - destruct (JsString.is_space c) eqn:Hc.
    + rewrite IH. split; [now constructor | now inversion 1].
    + split; [discriminate | ]. inversion 1; congruence.
Qed.

Lemma trimStart_chars_head c r :
  JsString.is_space c = false -> JsString.trimStart_chars (c :: r) = c :: r.
Proof. intros Hc. cbn. now rewrite Hc. Qed.

Lemma trimStart_chars_cases s :
  JsString.trimStart_chars s = []
  \/ exists c r, JsString.trimStart_chars s = c :: r /\ JsString.is_space c = false.
Proof.
  induction s as [ | c r IH]; [now left | ].
  cbn [JsString.trimStart_chars]. destruct (JsString.is_space c) eqn:Hc; [exact IH | ].
  right. now exists c, r.
Qed.

Lemma trimStart_chars_snoc s c :
  JsString.is_space c = false ->
  JsString.trimStart_chars (s ++ [c]) = JsString.trimStart_chars s ++ [c].
Proof.
  intros Hc. induction s as [ | a s IH]; cbn [app JsString.trimStart_chars].
  - now rewrite Hc.
  - destruct (JsString.is_space a); [exact IH | reflexivity].
Qed.

Lemma trimStart_chars_length s :
  (List.length (JsString.trimStart_chars s) <= List.length s)%nat.
Proof.
  induction s as [ | c r IH]; cbn [JsString.trimStart_chars List.length]; [lia | ].
  destruct (JsString.is_space c); cbn [List.length]; lia.
Qed.

Lemma trimStart_chars_split s :
  exists blanks,
    Forall (fun c => JsString.is_space c = true) blanks
    /\ s = blanks ++ JsString.trimStart_chars s.
Proof.
  induction s as [ | c s (blanks & Hblanks & E)]; [now exists [] | ].
  cbn [JsString.trimStart_chars]. destruct (JsString.is_space c) eqn:Hc.
  - exists (c :: blanks). split; [now constructor | ]. cbn [app]. now rewrite <- E.
  - now exists [].
Qed.

(** What [trim] gives is empty, or begins and ends with a character
    that is not white space. *)
Lemma trim_chars_cases s :
  JsString.trim_chars s = []
  \/ exists c middle, JsString.trim_chars s = c :: middle
                      /\ JsString.is_space c = false
                      /\ JsString.is_space (List.last (c :: middle) c) = false.
Proof.
  unfold JsString.trim_chars.
  destruct (trimStart_chars_cases s) as [-> | (c & r & -> & Hc)]; [now left | ].
  right. cbn [rev]. rewrite (trimStart_chars_snoc _ _ Hc), rev_app_distr.
  cbn [rev app]. eexists c, _. split; [reflexivity | split; [exact Hc | ]].
  destruct (trimStart_chars_cases (rev r)) as [-> | (d & t & -> & Hd)];
    [exact Hc | ].
  cbn [rev]. replace (c :: (rev t ++ [d])) with ((c :: rev t) ++ [d]) by reflexivity.
  now rewrite last_last.
Qed.

Lemma trim_chars_blank s :
  JsString.trim_chars s = [] <-> Forall (fun c => JsString.is_space c = true) s.
Proof.
  unfold JsString.trim_chars. split.
  - intros E. apply (f_equal (@rev _)) in E. rewrite rev_involutive in E. cbn in E.
    apply trimStart_chars_blank in E.
    destruct (trimStart_chars_cases s) as [Hs | (c & r & Hs & Hc)].
    + now apply trimStart_chars_blank.
    + rewrite Hs in E. cbn [rev] in E. apply Forall_app in E as [_ E].
      inversion E; congruence.
  - intros Hall. apply trimStart_chars_blank in Hall. now rewrite Hall.
Qed.

Lemma trim_chars_idempotent s :
  JsString.trim_chars (JsString.trim_chars s) = JsString.trim_chars s.
Proof.
  destruct (trim_chars_cases s) as [-> | (c & middle & E & Hc & Hlast)]; [reflexivity | ].
  rewrite E. unfold JsString.trim_chars. rewrite (trimStart_chars_head _ _ Hc).
  destruct (exists_last (l := c :: middle) ltac:(discriminate)) as (front & d & Efront).
  rewrite Efront in Hlast |- *. rewrite last_last in Hlast.
  rewrite rev_app_distr. cbn [rev app]. rewrite (trimStart_chars_head _ _ Hlast).
  cbn [rev]. now rewrite rev_involutive.
Qed.

Lemma trim_chars_length s :
  (List.length (JsString.trim_chars s) <= List.length s)%nat.
Proof.
  unfold JsString.trim_chars. rewrite length_rev.
  pose proof (trimStart_chars_length (rev (JsString.trimStart_chars s))) as H1.
  pose proof (trimStart_chars_length s) as H2.
  rewrite length_rev in H1. lia.
Qed.

Lemma string_of_list_ascii_nil l : string_of_list_ascii l = "" <-> l = [].
Proof.
  destruct l; cbn; split; try reflexivity; discriminate.
Qed.

Lemma trim_blank s : JsString.trim s = "" <-> isBlank s.
Proof.
  unfold JsString.trim, isBlank. rewrite string_of_list_ascii_nil. apply trim_chars_blank.
Qed.

Lemma trim_idempotent s : JsString.trim (JsString.trim s) = JsString.trim s.
Proof.
  unfold JsString.trim. now rewrite list_ascii_of_string_of_list_ascii, trim_chars_idempotent.
Qed.

Lemma list_ascii_of_string_append (a b : string) :
  list_ascii_of_string (a +:+ b) = list_ascii_of_string a ++ list_ascii_of_string b.
Proof.
  induction a as [ | c a IH]; [reflexivity | ].
  change (String c a +:+ b) with (String c (a +:+ b)).
  cbn [list_ascii_of_string app]. now rewrite IH.
Qed.

Lemma string_length_list s : String.length s = List.length (list_ascii_of_string s).
Proof. induction s as [ | c s IH]; cbn; [reflexivity | now rewrite IH]. Qed.

Lemma trim_length s : (String.length (JsString.trim s) <= String.length s)%nat.
Proof.
  unfold JsString.trim.
  rewrite !string_length_list, list_ascii_of_string_of_list_ascii.
  apply trim_chars_length.
Qed.

(* --------------------------------------------------------------------- *)
(** ** The retry loop *)
(* --------------------------------------------------------------------- *)

Lemma fetches_app e1 e2 : fetches (e1 ++ e2) = (fetches e1 + fetches e2)%nat.
Proof. unfold fetches. now rewrite List.filter_app, length_app. Qed.

Lemma delays_app e1 e2 : delays (e1 ++ e2) = delays e1 ++ delays e2.
Proof. unfold delays. apply flat_map_app. Qed.

Lemma readResponse_not_ok r :
  Chat.ok r = false -> exists e, Chat.readResponse r = inr e /\ Chat.err_name e = "Error".
Proof.
  intros Hok. unfold Chat.readResponse. rewrite Hok. cbn [negb].
  eexists. split; reflexivity.
Qed.

Lemma network_app e1 e2 : network (e1 ++ e2) = network e1 ++ network e2.
Proof. unfold network. apply List.filter_app. Qed.

(** The loop with the two retries of [MAX_RETRIES], case by case. *)
Lemma retryApiCall_two_retries requestFn body :
  let result := fst (Chat.retryApiCall requestFn body Chat.MAX_RETRIES) in
  let events := snd (Chat.retryApiCall requestFn body Chat.MAX_RETRIES) in
  (1 <= fetches events <= 3)%nat
  /\ events = firstn (2 * fetches events - 1)
                [Chat.EvFetch 0 body; Chat.EvDelay 2000; Chat.EvFetch 1 body;
                 Chat.EvDelay 4000; Chat.EvFetch 2 body]
  /\ delays events = firstn (fetches events - 1) [2000; 4000]
  /\ (forall k, (S k < fetches events)%nat -> exists e, requestFn k = Chat.Rejected e)
  /\ (forall k r,
         (k < 3)%nat ->
         (forall i, (i < k)%nat -> exists e, requestFn i = Chat.Rejected e) ->
         requestFn k = Chat.Resolved r ->
         result = inl r /\ fetches events = S k)
  /\ ((forall i, (i < 3)%nat -> exists e, requestFn i = Chat.Rejected e) ->
      fetches events = 3%nat
      /\ exists e, requestFn 2%nat = Chat.Rejected e /\ result = inr (Chat.toError e)).
Proof.
  cbv zeta. unfold Chat.retryApiCall, Chat.MAX_RETRIES. cbn [Chat.retryLoop].
  destruct (requestFn 0%nat) as [r0 | e0] eqn:E0;
    [ | destruct (requestFn 1%nat) as [r1 | e1] eqn:E1;
        [ | destruct (requestFn 2%nat) as [r2 | e2] eqn:E2]];
    cbn [fst snd app];
    (split; [unfold fetches; cbn; lia | ]);
    (split; [reflexivity | ]);
    (split; [reflexivity | ]);
    (split; [intros k Hk; unfold fetches in Hk; cbn in Hk;
             destruct k as [ | [ | k]]; solve [eauto | lia] | ]);
    (split;
     [intros k r Hk Hrej Hres;
      destruct k as [ | [ | [ | k]]]; try lia;
      solve [ split; [congruence | reflexivity]
            | destruct (Hrej 0%nat ltac:(lia)) as [e He]; congruence
            | destruct (Hrej 1%nat ltac:(lia)) as [e He]; congruence
            | congruence ]
     | intros Hall;
       solve [ destruct (Hall 0%nat ltac:(lia)) as [e He]; congruence
             | destruct (Hall 1%nat ltac:(lia)) as [e He]; congruence
             | destruct (Hall 2%nat ltac:(lia)) as [e He]; congruence
             | split; [reflexivity | eauto] ]]).
Qed.

(** C3. Every send of a text that is not blank makes one to three calls
    of [fetch], each with the conversation and the new message as its
    body, and nothing else on the network but the waits: the call, then
    a wait of 2000 ms and a second call, then a wait of 4000 ms and a
    third call, after the 50 ms a send waits when it has created its
    session. A further call is made only after a call that threw; a
    call that resolves is the last one, whatever the status of the
    response and whether it can be read or not; after three calls that
    threw the send gives up. A first response outside 2xx is not
    retried: the send fails with the error read from it. [retryApiCall]
    itself makes these calls and returns the response of the call that
    resolved or throws the error of the third call. A send of a blank
    text makes no call at all. *)
Theorem at_most_three_attempts_with_backoff :
  (forall env requestFn st content subject difficulty,
      ~ isBlank content ->
      let st' := fst (Chat.sendMessage env requestFn st content subject difficulty) in
      let events := snd (Chat.sendMessage env requestFn st content subject difficulty) in
      let body := conversationOf st ++ [Chat.userMessageOf env content] in
      let settle :=
        match Chat.currentSession (Chat.sessions st) (Chat.currentSessionId st) with
        | Some _ => []
        | None => [Chat.EvDelay 50]
        end in
      (1 <= fetches events <= 3)%nat
      /\ network events
         = settle
           ++ firstn (2 * fetches events - 1)
                [Chat.EvFetch 0 body; Chat.EvDelay 2000; Chat.EvFetch 1 body;
                 Chat.EvDelay 4000; Chat.EvFetch 2 body]
      /\ (forall k, (S k < fetches events)%nat -> exists e, requestFn k = Chat.Rejected e)
      /\ (forall k r,
             (k < 3)%nat ->
             (forall i, (i < k)%nat -> exists e, requestFn i = Chat.Rejected e) ->
             requestFn k = Chat.Resolved r ->
             fetches events = S k
             /\ (Chat.error st' = None
                 <-> exists text, Chat.readResponse r = inl text))
      /\ ((forall i, (i < 3)%nat -> exists e, requestFn i = Chat.Rejected e) ->
          fetches events = 3%nat /\ Chat.error st' <> None)
      /\ (forall r,
             requestFn 0%nat = Chat.Resolved r ->
             Chat.ok r = false ->
             fetches events = 1%nat
             /\ network events = settle ++ [Chat.EvFetch 0 body]
             /\ exists e, Chat.readResponse r = inr e
                          /\ Chat.error st' = Some (Chat.err_message e)))
  /\ (forall requestFn body,
         let result := fst (Chat.retryApiCall requestFn body Chat.MAX_RETRIES) in
         let events := snd (Chat.retryApiCall requestFn body Chat.MAX_RETRIES) in
         (1 <= fetches events <= 3)%nat
         /\ events = firstn (2 * fetches events - 1)
                       [Chat.EvFetch 0 body; Chat.EvDelay 2000; Chat.EvFetch 1 body;
                        Chat.EvDelay 4000; Chat.EvFetch 2 body]
         /\ delays events = firstn (fetches events - 1) [2000; 4000]
         /\ (forall k, (S k < fetches events)%nat ->
                       exists e, requestFn k = Chat.Rejected e)
         /\ (forall k r,
                (k < 3)%nat ->
                (forall i, (i < k)%nat -> exists e, requestFn i = Chat.Rejected e) ->
                requestFn k = Chat.Resolved r ->
                result = inl r /\ fetches events = S k)
         /\ ((forall i, (i < 3)%nat -> exists e, requestFn i = Chat.Rejected e) ->
             fetches events = 3%nat
             /\ exists e, requestFn 2%nat = Chat.Rejected e
                          /\ result = inr (Chat.toError e)))
  /\ (forall env requestFn st content subject difficulty,
         isBlank content ->
         snd (Chat.sendMessage env requestFn st content subject difficulty) = []).
Proof.
  split; [ | split; [exact retryApiCall_two_retries | ]].
  2: { intros env requestFn st content subject difficulty Hblank.
       apply trim_blank in Hblank. unfold Chat.sendMessage. now rewrite Hblank. }
  intros env requestFn st content subject difficulty Hnot st' events body settle.
  subst st' events body settle.
  assert (Htrim : JsString.trim content <> "").
  { intros E. apply Hnot. now apply trim_blank. }
  unfold Chat.sendMessage.
  destruct (String.eqb_spec (JsString.trim content) "") as [E | _]; [contradiction | ].
  assert (Hresolve :
            match Chat.currentSession (Chat.sessions st) (Chat.currentSessionId st) with
            | Some _ => []
            | None => [Chat.EvDelay 50]
            end = network (snd (Chat.resolveSession env st subject difficulty))
            /\ fetches (snd (Chat.resolveSession env st subject difficulty)) = 0%nat
            /\ snd (fst (fst (Chat.resolveSession env st subject difficulty)))
               = conversationOf st).
  { unfold Chat.resolveSession, conversationOf.
    destruct (Chat.currentSession _ _); cbn [fst snd]; repeat split. }
  destruct (Chat.resolveSession env st subject difficulty)
    as [[[sid msgs] st1] ev1].
  cbn [fst snd] in Hresolve. destruct Hresolve as (-> & Hf1 & ->).
  set (body := conversationOf st ++ [Chat.userMessageOf env content]).
  pose proof (retryApiCall_two_retries requestFn body)
    as (Hbound & Hevents & _ & Honly & Hresolved & Hrejected).
  unfold Chat.request.
  destruct (Chat.retryApiCall requestFn body Chat.MAX_RETRIES) as [result events3].
  cbn [fst snd] in Hbound, Hevents, Honly, Hresolved, Hrejected.
  assert (Hnet3 : network events3 = events3).
  { rewrite Hevents. generalize (2 * fetches events3 - 1)%nat. intros n.
    do 6 (destruct n as [ | n]; [reflexivity | ]). reflexivity. }
  assert (Hshape : forall x y,
             let events :=
               ev1 ++ [Chat.EvSetSessions x] ++ events3 ++ [Chat.EvSetSessions y] in
             fetches events = fetches events3
             /\ network events
                = network ev1
                  ++ firstn (2 * fetches events - 1)
                       [Chat.EvFetch 0 body; Chat.EvDelay 2000; Chat.EvFetch 1 body;
                        Chat.EvDelay 4000; Chat.EvFetch 2 body]).
  { intros x y events. subst events.
    assert (Hf : fetches (ev1 ++ [Chat.EvSetSessions x] ++ events3
                          ++ [Chat.EvSetSessions y])
                 = fetches events3).
    { rewrite !fetches_app, Hf1.
      change (fetches [Chat.EvSetSessions x]) with 0%nat.
      change (fetches [Chat.EvSetSessions y]) with 0%nat. lia. }
    split; [exact Hf | ]. rewrite Hf, <- Hevents, !network_app, Hnet3.
    change (network [Chat.EvSetSessions x]) with (@nil Chat.Event).
    change (network [Chat.EvSetSessions y]) with (@nil Chat.Event).
    now rewrite app_nil_r. }
  destruct (match result with
            | inl response => Chat.readResponse response
            | inr e => inr e
            end) as [text | apiError] eqn:Hread; cbn [fst snd Chat.error];
    unfold Chat.written;
    match goal with
    | |- context [ev1 ++ [Chat.EvSetSessions ?x] ++ events3 ++ [Chat.EvSetSessions ?y]] =>
        destruct (Hshape x y) as [Hf Hnet]
    end;
    rewrite Hf in *;
    (split; [exact Hbound | ]); (split; [exact Hnet | ]); (split; [exact Honly | ]).
  - split; [ | split].
    + intros k r Hk Hrej Hres. destruct (Hresolved k r Hk Hrej Hres) as [-> Hn].
      split; [exact Hn | ]. rewrite Hread. split; eauto.
    + intros Hall. destruct (Hrejected Hall) as (_ & e & _ & ->). discriminate Hread.
    + intros r Hres Hok.
      destruct (Hresolved 0%nat r ltac:(lia) ltac:(intros i Hi; lia) Hres) as [-> _].
      destruct (readResponse_not_ok r Hok) as (e & He & _). congruence.
  - split; [ | split].
    + intros k r Hk Hrej Hres. destruct (Hresolved k r Hk Hrej Hres) as [-> Hn].
      split; [exact Hn | ]. rewrite Hread.
      split; [discriminate | intros [text Ht]; discriminate Ht].
    + intros Hall. destruct (Hrejected Hall) as (Hn & _). split; [exact Hn | discriminate].
    + intros r Hres Hok.
      destruct (Hresolved 0%nat r ltac:(lia) ltac:(intros i Hi; lia) Hres) as [-> Hn].
      split; [exact Hn | ]. split; [now rewrite Hnet, Hn | ].
      destruct (readResponse_not_ok r Hok) as (e & He & Hname).
      exists e. split; [exact He | ].
      assert (apiError = e) as -> by congruence.
      now rewrite Hname.
Qed.

Lemma at_most_three_attempts_with_backoff_witness :
  let flaky := fun k => if (k <? 2)%nat then Samples.offline k
                        else Samples.replies "4" k in
  let unreadable := fun _ : nat => Chat.Resolved (Chat.mkResponse 200 None) in
  let st := Chat.mkState Samples.collection (Some "s2") false None in
  let body := [Samples.greeting; Samples.answer;
               Chat.userMessageOf Samples.env "What is 2+2?"] in
  network (snd (Chat.sendMessage Samples.env flaky st "What is 2+2?" None None))
  = [Chat.EvFetch 0 body; Chat.EvDelay 2000; Chat.EvFetch 1 body;
     Chat.EvDelay 4000; Chat.EvFetch 2 body]
  /\ fetches (snd (Chat.sendMessage Samples.env unreadable st "What is 2+2?" None None))
     = 1%nat
  /\ fetches (snd (Chat.sendMessage Samples.env Samples.rateLimited st
                     "What is 2+2?" None None)) = 1%nat.
Proof.
  cbv zeta. destruct at_most_three_attempts_with_backoff as (Hsend & _ & _).
  assert (Hnot : ~ isBlank "What is 2+2?").
  { intros Hblank. apply trim_blank in Hblank. vm_compute in Hblank.
    discriminate Hblank. }
  split; [ | split].
  - destruct (Hsend Samples.env
                (fun k => if (k <? 2)%nat then Samples.offline k
                          else Samples.replies "4" k)
                (Chat.mkState Samples.collection (Some "s2") false None)
                "What is 2+2?" None None Hnot) as (_ & Hnet & _ & Hresolved & _).
    destruct (Hresolved 2%nat
                (Chat.mkResponse 200 (Some (Chat.mkData None (Some "4"))))
                ltac:(lia)) as [Hn _].
    + intros [ | [ | i]] Hi; [eexists; reflexivity | eexists; reflexivity | lia].
    + reflexivity.
    + rewrite Hnet, Hn. reflexivity.
  - destruct (Hsend Samples.env (fun _ => Chat.Resolved (Chat.mkResponse 200 None))
                (Chat.mkState Samples.collection (Some "s2") false None)
                "What is 2+2?" None None Hnot) as (_ & _ & _ & Hresolved & _).
    apply (Hresolved 0%nat (Chat.mkResponse 200 None)); [lia | | reflexivity].
    intros i Hi. lia.
  - destruct (Hsend Samples.env Samples.rateLimited
                (Chat.mkState Samples.collection (Some "s2") false None)
                "What is 2+2?" None None Hnot) as (_ & _ & _ & _ & _ & Hfail).
    apply (Hfail (Chat.mkResponse 429
                    (Some (Chat.mkData
                             (Some "Rate limit exceeded. Please try again later.")
                             None)))); reflexivity.
Defined.

(* --------------------------------------------------------------------- *)
(** ** Keyword extraction *)
(* --------------------------------------------------------------------- *)

Lemma splitLoop_words s :
  forall inRun piece,
    (inRun = true -> piece = []) ->
    List.filter (fun p => negb (isEmpty p)) (Utils.splitLoop inRun piece s)
    = wordsLoop piece s.
Proof.
  induction s as [ | c r IH]; intros inRun piece Hrun.
  - cbn. now destruct piece.
  - cbn [Utils.splitLoop wordsLoop]. destruct (JsString.is_space c).
    + destruct inRun.
      * rewrite (Hrun eq_refl). now apply IH.
      * cbn [List.filter]. destruct piece as [ | a piece]; cbn [isEmpty negb];
          now rewrite IH.
    + apply IH. discriminate.
Qed.

Lemma keep_empty : Utils.keep (string_of_list_ascii []) = false.
Proof. reflexivity. Qed.

Lemma filter_keep_pieces pieces :
  List.filter Utils.keep (map string_of_list_ascii pieces)
  = List.filter Utils.keep
      (map string_of_list_ascii (List.filter (fun p => negb (isEmpty p)) pieces)).
Proof.
  induction pieces as [ | p pieces IH]; [reflexivity | ].
  cbn [map List.filter]. destruct p as [ | a p]; cbn [isEmpty negb].
  - rewrite keep_empty. exact IH.
  - cbn [map List.filter]. now rewrite IH.
Qed.

(** C9, as the code has it. [extractKeywords] lower-cases the text,
    removes every character that is neither an ASCII letter, a digit, an
    underscore nor white space, takes the words of what is left, drops
    the stop words and the words of three characters or fewer, and keeps
    the first ten of the rest, in order. *)
Theorem extractKeywords_by_words (text : string) :
  Utils.extractKeywords text = keywordsBy Utils.stripNonWord text
  /\ (List.length (Utils.extractKeywords text) <= 10)%nat
  /\ Forall (fun word => (3 < String.length word)%nat /\ word ∉ Utils.commonWords)
            (Utils.extractKeywords text).
Proof.
  assert (Heq : Utils.extractKeywords text = keywordsBy Utils.stripNonWord text).
  { unfold Utils.extractKeywords, keywordsBy, Utils.splitWhitespace, words.
    rewrite filter_keep_pieces, splitLoop_words by discriminate. reflexivity. }
  split; [exact Heq | split].
  - unfold Utils.extractKeywords. rewrite length_firstn. lia.
  - unfold Utils.extractKeywords. apply List.Forall_forall. intros word Hin.
    assert (Hin' : In word (List.filter Utils.keep
                     (Utils.splitWhitespace
                        (Utils.stripNonWord
                           (JsString.toLowerCase_chars (list_ascii_of_string text)))))).
    { rewrite <- (firstn_skipn 10 (List.filter _ _)). apply in_or_app. now left. }
    apply List.filter_In in Hin' as [_ Hkeep]. unfold Utils.keep in Hkeep.
    apply andb_true_iff in Hkeep as [Hlen Hstop]. split.
    + now apply Nat.ltb_lt in Hlen.
    + apply negb_true_iff, bool_decide_eq_false in Hstop. exact Hstop.
Qed.

Example extractKeywords_question :
  Utils.extractKeywords "  What is the Derivative of x_squared, don't you know?? "
  = ["what"; "derivative"; "x_squared"; "dont"; "know"].
Proof. vm_compute. reflexivity. Qed.

(** C9, the sentence as it stands, fails on the code: in [café culture]
    (with the one code unit 233 for the accented letter) nothing is
    punctuation, so the steps as worded keep both words, but the code
    removes the accented letter and drops the three letters left. *)
Lemma extractKeywords_strips_more_than_punctuation :
  let cafe := String "c" (String "a" (String "f" (String "233" EmptyString))) in
  let text := cafe +:+ " culture" in
  Utils.extractKeywords text = ["culture"]
  /\ keywordsBy stripPunctuation text = [cafe; "culture"]
  /\ Utils.extractKeywords text <> keywordsBy stripPunctuation text.
Proof.
  cbv zeta. split; [vm_compute; reflexivity | ].
  split; [vm_compute; reflexivity | vm_compute; discriminate].
Qed.

(* --------------------------------------------------------------------- *)
(** ** The title of a session *)
(* --------------------------------------------------------------------- *)

Lemma string_length_append (a b : string) :
  String.length (a +:+ b) = (String.length a + String.length b)%nat.
Proof.
  induction a as [ | c a IH]; [reflexivity | ].
  change (String c a +:+ b) with (String c (a +:+ b)).
  cbn [String.length]. now rewrite IH.
Qed.

Lemma substring_0_length (s : string) (n : nat) :
  String.length (String.substring 0 n s) = Nat.min n (String.length s).
Proof.
  revert n. induction s as [ | c s IH]; intros [ | n]; cbn; try reflexivity.
  now rewrite IH.
Qed.

Lemma substring_0_all (s : string) (n : nat) :
  (String.length s <= n)%nat -> String.substring 0 n s = s.
Proof.
  revert n. induction s as [ | c s IH]; intros [ | n] Hle; cbn in *;
    try reflexivity; try lia.
  rewrite IH by lia. reflexivity.
Qed.

Lemma string_append_empty (s : string) : s +:+ "" = s.
Proof.
  induction s as [ | c s IH]; [reflexivity | ].
  change (String c s +:+ "") with (String c (s +:+ "")). now rewrite IH.
Qed.

Lemma titleOf_short content :
  (String.length content <= 50)%nat -> Chat.titleOf content = content.
Proof.
  intros Hle. unfold Chat.titleOf, JsString.slice0.
  rewrite substring_0_all by exact Hle.
  assert (H : (50 <? String.length content)%nat = false) by (apply Nat.ltb_ge; exact Hle).
  rewrite H. apply string_append_empty.
Qed.

Lemma titleOf_long content :
  (50 < String.length content)%nat ->
  Chat.titleOf content = String.substring 0 50 content +:+ "..."
  /\ String.length (Chat.titleOf content) = 53%nat.
Proof.
  intros Hlt. unfold Chat.titleOf, JsString.slice0.
  assert (H : (50 <? String.length content)%nat = true) by (apply Nat.ltb_lt; exact Hlt).
  rewrite H. split; [reflexivity | ].
  rewrite string_length_append, substring_0_length.
  change (String.length "...") with 3%nat. lia.
Qed.

(* --------------------------------------------------------------------- *)
(** ** What a send leaves in the collection *)
(* --------------------------------------------------------------------- *)

(** [setSessions] in a send is the [setValue] of the render the send was
    started from: the state it leaves is the one [setValue] hands to
    [setStoredValue], whatever the store does. *)
Lemma setSessions_is_setValue captured updater live mounted st :
  Chat.setSessions captured updater live
  = default live
      (fst (setValue SESSIONS_KEY (mkHook captured mounted) (Updater updater) st)).
Proof.
  unfold Chat.setSessions, setValue. cbn [storedValue].
  now destruct (nextStoredValue captured (Updater updater)).
Qed.

Lemma map_fixed {A : Type} (g : A -> A) (l : list A) :
  map g l = l -> forall x, In x l -> g x = x.
Proof.
  induction l as [ | a l IH]; intros E x Hx; [destruct Hx | ].
  cbn [map] in E. injection E as Ea El.
  destruct Hx as [<- | Hx]; [exact Ea | now apply IH].
Qed.

Lemma map_differs {A B : Type} (f g : A -> B) (l : list A) x :
  In x l -> f x <> g x -> map f l <> map g l.
Proof.
  induction l as [ | a l IH]; intros Hx Hne E; [destruct Hx | ].
  cbn [map] in E. injection E as Ea El.
  destruct Hx as [<- | Hx]; [contradiction | now apply (IH Hx Hne)].
Qed.

Lemma currentSession_Some sessions cid session :
  Chat.currentSession sessions cid = Some session ->
  In session sessions
  /\ Chat.sessionExists (ChatSession.id session) sessions = true.
Proof.
  unfold Chat.currentSession. destruct cid as [c | ]; [ | discriminate].
  destruct (String.eqb c ""); [discriminate | ].
  intros Hfind. apply find_some in Hfind as [Hin Heq].
  split; [exact Hin | ].
  unfold Chat.sessionExists. apply existsb_exists.
  exists session. split; [exact Hin | apply String.eqb_refl].
Qed.

Lemma withReply_target sessionId userMessage reply now session :
  ChatSession.id session = sessionId ->
  ChatSession.messages (Chat.withReply sessionId userMessage reply now session)
  = ChatSession.messages session
    ++ (if Chat.hasUserMessage userMessage (ChatSession.messages session)
        then [] else [userMessage])
    ++ [reply].
Proof. intros <-. unfold Chat.withReply. now rewrite String.eqb_refl. Qed.

Lemma withReply_changes sessionId userMessage reply now session :
  ChatSession.id session = sessionId ->
  Chat.withReply sessionId userMessage reply now session <> session.
Proof.
  intros Hid E. apply (f_equal ChatSession.messages) in E.
  rewrite (withReply_target _ _ _ _ _ Hid) in E.
  apply (f_equal (@List.length _)) in E. rewrite !length_app in E.
  cbn [List.length] in E. lia.
Qed.

Lemma withReply_other sessionId userMessage reply now (sessions : list ChatSession.t) :
  Chat.sessionExists sessionId sessions = false ->
  map (Chat.withReply sessionId userMessage reply now) sessions = sessions.
Proof.
  unfold Chat.sessionExists. induction sessions as [ | s l IH]; [reflexivity | ].
  cbn [existsb map]. intros Hno. apply orb_false_iff in Hno as [Hs Hl].
  unfold Chat.withReply at 1. rewrite Hs. now rewrite IH.
Qed.

Lemma appendUserMessage_changes sessionId content userMessage timestamp subject
    difficulty (prev : list ChatSession.t) :
  Chat.appendUserMessage sessionId content userMessage timestamp subject difficulty prev
  <> prev.
Proof.
  unfold Chat.appendUserMessage.
  destruct (Chat.sessionExists sessionId prev) eqn:Hex; cbn [negb].
  - unfold Chat.sessionExists in Hex. apply existsb_exists in Hex as (s & Hin & Hid).
    intros E. pose proof (map_fixed _ _ E s Hin) as Hs. cbn beta in Hs.
    rewrite Hid in Hs. apply (f_equal ChatSession.messages) in Hs.
    cbn [ChatSession.messages] in Hs.
    apply (f_equal (@List.length _)) in Hs. rewrite length_app in Hs.
    cbn [List.length] in Hs. lia.
  - intros E. apply (f_equal (@List.length _)) in E. cbn [List.length] in E. lia.
Qed.

(** Append, then attempt: the collection with the user message is
    written before the first call of [fetch]. *)
Lemma user_message_written_before_request env requestFn st content subject difficulty :
  JsString.trim content <> "" ->
  exists before after,
    snd (Chat.sendMessage env requestFn st content subject difficulty)
    = before
      ++ Chat.EvSetSessions
           (Some (Chat.sessions (Chat.afterAppend env st content subject difficulty)))
      :: after
    /\ fetches before = 0%nat.
Proof.
  intros Htrim. unfold Chat.sendMessage, Chat.afterAppend.
  destruct (String.eqb_spec (JsString.trim content) "") as [E | _]; [contradiction | ].
  assert (Hfetch : forall sid msgs st1 ev1,
             Chat.resolveSession env st subject difficulty = (sid, msgs, st1, ev1) ->
             fetches ev1 = 0%nat).
  { intros sid msgs st1 ev1. unfold Chat.resolveSession.
    destruct (Chat.currentSession _ _); intros [= <- <- <- <-]; reflexivity. }
  destruct (Chat.resolveSession env st subject difficulty)
    as [[[sid msgs] st1] ev1] eqn:Eres.
  pose proof (Hfetch _ _ _ _ eq_refl) as Hf.
  assert (Hw : forall live,
             Chat.setSessions (Chat.sessions st)
               (Chat.appendUserMessage sid content (Chat.userMessageOf env content)
                  (Chat.timestamp env) subject difficulty) live
             = Chat.appendUserMessage sid content (Chat.userMessageOf env content)
                 (Chat.timestamp env) subject difficulty (Chat.sessions st)).
  { intros live. unfold Chat.setSessions.
    now rewrite (nextStoredValue_changed Lawful_sessions)
      by apply appendUserMessage_changes. }
  cbn [Chat.sessions]. rewrite Hw. unfold Chat.written at 1 3.
  rewrite (nextStoredValue_changed Lawful_sessions)
    by apply appendUserMessage_changes.
  cbn [valueToStore].
  destruct (Chat.request requestFn (msgs ++ [Chat.userMessageOf env content]))
    as [[text | apiError] events3]; cbn [snd];
    exists ev1; eexists; (split; [reflexivity | exact Hf]).
Qed.

(** A send into the current session of the render: the user message is
    added first; when the request is over, the transform of the branch
    taken is applied to the collection the call started from, and its
    outcome becomes the state. *)
Lemma sendMessage_current_session env requestFn st content subject difficulty session :
  JsString.trim content <> "" ->
  Chat.currentSession (Chat.sessions st) (Chat.currentSessionId st) = Some session ->
  let sessionId := ChatSession.id session in
  let userMessage := Chat.userMessageOf env content in
  let outcome :=
    fst (Chat.request requestFn (ChatSession.messages session ++ [userMessage])) in
  Chat.sessions (Chat.afterAppend env st content subject difficulty)
  = Chat.appendUserMessage sessionId content userMessage (Chat.timestamp env)
      subject difficulty (Chat.sessions st)
  /\ Chat.sessions (fst (Chat.sendMessage env requestFn st content subject difficulty))
     = map (Chat.withReply sessionId userMessage (Chat.replyOf env outcome)
              (Chat.updateTimestamp env))
           (Chat.sessions st).
Proof.
  intros Htrim Hcur sessionId userMessage outcome.
  destruct (currentSession_Some _ _ _ Hcur) as [Hin Hex].
  split.
  - unfold Chat.afterAppend, Chat.resolveSession. rewrite Hcur.
    cbn [Chat.sessions]. unfold Chat.setSessions.
    rewrite (nextStoredValue_changed Lawful_sessions)
      by apply appendUserMessage_changes.
    reflexivity.
  - unfold Chat.sendMessage.
    destruct (String.eqb_spec (JsString.trim content) "") as [E | _]; [contradiction | ].
    unfold Chat.resolveSession. rewrite Hcur.
    subst outcome. fold sessionId. fold userMessage.
    destruct (Chat.request requestFn (ChatSession.messages session ++ [userMessage]))
      as [[text | apiError] events3]; cbn [fst Chat.sessions Chat.replyOf];
      unfold Chat.setSessions.
    + rewrite (nextStoredValue_changed Lawful_sessions
                 (T := list ChatSession.t) (Chat.sessions st)
                 (Updater (Chat.appendAssistantMessage sessionId userMessage
                             (Chat.assistantMessageOf env text)
                             (Chat.updateTimestamp env)))).
      * cbn [valueToStore default]. unfold Chat.appendAssistantMessage.
        fold sessionId in Hex. now rewrite Hex.
      * cbn [valueToStore]. unfold Chat.appendAssistantMessage.
        fold sessionId in Hex. rewrite Hex. cbn [negb].
        intros E. apply (withReply_changes sessionId userMessage
                           (Chat.assistantMessageOf env text)
                           (Chat.updateTimestamp env) session eq_refl).
        now apply (map_fixed _ _ E).
    + rewrite (nextStoredValue_changed Lawful_sessions
                 (T := list ChatSession.t) (Chat.sessions st)
                 (Updater (Chat.appendErrorMessage sessionId userMessage
                             (Chat.errorMessageOf env)
                             (Chat.updateTimestamp env)))).
      * reflexivity.
      * cbn [valueToStore]. unfold Chat.appendErrorMessage.
        intros E. apply (withReply_changes sessionId userMessage
                           (Chat.errorMessageOf env)
                           (Chat.updateTimestamp env) session eq_refl).
        now apply (map_fixed _ _ E).
Qed.

Lemma find_withReply sessionId userMessage reply now (sessions : list ChatSession.t) :
  List.find (fun s => String.eqb (ChatSession.id s) sessionId)
            (map (Chat.withReply sessionId userMessage reply now) sessions)
  = option_map (Chat.withReply sessionId userMessage reply now)
      (List.find (fun s => String.eqb (ChatSession.id s) sessionId) sessions).
Proof.
  induction sessions as [ | s l IH]; [reflexivity | ].
  cbn [map List.find]. unfold Chat.withReply at 1.
  destruct (String.eqb (ChatSession.id s) sessionId) eqn:Hs.
  - cbn [ChatSession.id]. rewrite Hs. cbn [option_map].
    unfold Chat.withReply. now rewrite Hs.
  - rewrite Hs. exact IH.
Qed.

Lemma currentSession_find sessions cid session :
  Chat.currentSession sessions cid = Some session ->
  List.find (fun s => String.eqb (ChatSession.id s) (ChatSession.id session)) sessions
  = Some session.
Proof.
  unfold Chat.currentSession. destruct cid as [c | ]; [ | discriminate].
  destruct (String.eqb c ""); [discriminate | ].
  intros Hfind. pose proof (find_some _ _ Hfind) as [_ Heq].
  apply String.eqb_eq in Heq. now rewrite Heq.
Qed.

(** The messages of the target session when the call has returned: the
    messages it had, the user message unless one of them has its id or
    is a user message with the same text, and the reply or the error
    message. *)
Lemma sendMessage_current_session_messages
    env requestFn st content subject difficulty session :
  JsString.trim content <> "" ->
  Chat.currentSession (Chat.sessions st) (Chat.currentSessionId st) = Some session ->
  let userMessage := Chat.userMessageOf env content in
  let outcome :=
    fst (Chat.request requestFn (ChatSession.messages session ++ [userMessage])) in
  Chat.messagesOf (ChatSession.id session)
    (Chat.sessions (fst (Chat.sendMessage env requestFn st content subject difficulty)))
  = ChatSession.messages session
    ++ (if Chat.hasUserMessage userMessage (ChatSession.messages session)
        then [] else [userMessage])
    ++ [Chat.replyOf env outcome].
Proof.
  intros Htrim Hcur userMessage outcome.
  destruct (sendMessage_current_session env requestFn st content subject difficulty
              session Htrim Hcur) as [_ Hfinal].
  rewrite Hfinal. unfold Chat.messagesOf.
  rewrite find_withReply, (currentSession_find _ _ _ Hcur). cbn [option_map].
  now apply withReply_target.
Qed.

(** A send without a current session, with an unused id for the new
    session: the session is created with the user message, and the
    transform applied when the request is over finds no such session in
    the collection the call started from, so that the state keeps the
    user message alone, whatever the request gave. *)
Lemma sendMessage_new_session env requestFn st content subject difficulty :
  JsString.trim content <> "" ->
  Chat.currentSession (Chat.sessions st) (Chat.currentSessionId st) = None ->
  Chat.sessionExists (Chat.newSessionId env) (Chat.sessions st) = false ->
  Chat.sessions (fst (Chat.sendMessage env requestFn st content subject difficulty))
  = ChatSession.mk (Chat.newSessionId env) (Chat.titleOf content)
      [Chat.userMessageOf env content] (Chat.timestamp env) (Chat.timestamp env)
      subject difficulty
    :: Chat.sessions st.
Proof.
  intros Htrim Hcur Hfresh. unfold Chat.sendMessage.
  destruct (String.eqb_spec (JsString.trim content) "") as [E | _]; [contradiction | ].
  unfold Chat.resolveSession. rewrite Hcur.
  assert (Happend : forall live,
            Chat.setSessions (Chat.sessions st)
              (Chat.appendUserMessage (Chat.newSessionId env) content
                 (Chat.userMessageOf env content) (Chat.timestamp env) subject difficulty)
              live
            = ChatSession.mk (Chat.newSessionId env) (Chat.titleOf content)
                [Chat.userMessageOf env content] (Chat.timestamp env) (Chat.timestamp env)
                subject difficulty
              :: Chat.sessions st).
  { intros live. unfold Chat.setSessions.
    rewrite (nextStoredValue_changed Lawful_sessions)
      by apply appendUserMessage_changes.
    cbn [valueToStore default]. unfold Chat.appendUserMessage. now rewrite Hfresh. }
  destruct (Chat.request requestFn ([] ++ [Chat.userMessageOf env content]))
    as [[text | apiError] events3]; cbn [fst Chat.sessions];
    rewrite Happend; unfold Chat.setSessions.
  - rewrite (nextStoredValue_same (Chat.sessions st)); [reflexivity | ].
    cbn [valueToStore]. unfold Chat.appendAssistantMessage. now rewrite Hfresh.
  - rewrite (nextStoredValue_same (Chat.sessions st)); [reflexivity | ].
    cbn [valueToStore]. unfold Chat.appendErrorMessage.
    now apply withReply_other.
Qed.

Lemma currentSession_map (f : ChatSession.t -> ChatSession.t) sessions cid :
  (forall s, ChatSession.id (f s) = ChatSession.id s) ->
  Chat.currentSession (map f sessions) cid
  = option_map f (Chat.currentSession sessions cid).
Proof.
  intros Hid. unfold Chat.currentSession. destruct cid as [c | ]; [ | reflexivity].
  destruct (String.eqb c ""); [reflexivity | ].
  induction sessions as [ | s l IH]; [reflexivity | ].
  cbn [map List.find]. rewrite Hid.
  destruct (String.eqb (ChatSession.id s) c); [reflexivity | exact IH].
Qed.

(** C7, as the code has it. A send that starts without a current
    session creates its session, and the title of that session is made
    of the first 50 characters of the text as typed, with three dots
    after them when the text is longer (53 characters at most); the
    session has this title when the user message has been added and
    still has it when the send has returned. A send into a current
    session that has a message leaves the title of that session as it
    was, when the user message has been added and when the send has
    returned. *)
Theorem title_follows_first_message
    (env : Chat.Env) (requestFn : nat -> Chat.FetchResult) (st : Chat.State)
    (content : string) (subject : option string) (difficulty : option DifficultyLevel) :
  ~ isBlank content ->
  let st' := fst (Chat.sendMessage env requestFn st content subject difficulty) in
  let appended := Chat.afterAppend env st content subject difficulty in
  (Chat.currentSession (Chat.sessions st) (Chat.currentSessionId st) = None ->
   Chat.sessionExists (Chat.newSessionId env) (Chat.sessions st) = false ->
   exists session,
     Chat.sessions appended = session :: Chat.sessions st
     /\ Chat.sessions st' = session :: Chat.sessions st
     /\ ChatSession.id session = Chat.newSessionId env
     /\ ChatSession.messages session = [Chat.userMessageOf env content]
     /\ ChatSession.title session
        = String.substring 0 50 content
          +:+ (if (50 <? String.length content)%nat then "..." else "")
     /\ ((String.length content <= 50)%nat -> ChatSession.title session = content)
     /\ ((50 < String.length content)%nat ->
         String.length (ChatSession.title session) = 53%nat)
     /\ (String.length (ChatSession.title session) <= 53)%nat)
  /\ (forall session,
         Chat.currentSession (Chat.sessions st) (Chat.currentSessionId st)
         = Some session ->
         ChatSession.messages session <> [] ->
         (ChatSession.title
            <$> Chat.currentSession (Chat.sessions appended)
                  (Chat.currentSessionId appended))
         = Some (ChatSession.title session)
         /\ (ChatSession.title
               <$> Chat.currentSession (Chat.sessions st') (Chat.currentSessionId st'))
            = Some (ChatSession.title session)).
Proof.
  intros Hnot st' appended. subst st' appended.
  assert (Htrim : JsString.trim content <> "").
  { intros E. apply Hnot. now apply trim_blank. }
  split.
  - intros Hcur Hfresh.
    exists (ChatSession.mk (Chat.newSessionId env) (Chat.titleOf content)
              [Chat.userMessageOf env content] (Chat.timestamp env) (Chat.timestamp env)
              subject difficulty).
    split; [ | split].
    + unfold Chat.afterAppend, Chat.resolveSession. rewrite Hcur.
      cbn [Chat.sessions]. unfold Chat.setSessions at 1.
      rewrite (nextStoredValue_changed Lawful_sessions)
        by apply appendUserMessage_changes.
      cbn [valueToStore default]. unfold Chat.appendUserMessage. now rewrite Hfresh.
    + now apply sendMessage_new_session.
    + cbn [ChatSession.id ChatSession.messages ChatSession.title].
      split; [reflexivity | split; [reflexivity | split; [reflexivity | ]]].
      split; [apply titleOf_short | split].
      * intros Hlong. now apply titleOf_long.
      * destruct (Nat.le_gt_cases (String.length content) 50) as [Hshort | Hlong].
        -- rewrite (titleOf_short content Hshort). lia.
        -- destruct (titleOf_long content Hlong) as [_ ->]. lia.
  - intros session Hcur Hmsgs.
    destruct (sendMessage_current_session env requestFn st content subject difficulty
                session Htrim Hcur) as [Happend Hfinal].
    cbv zeta in Happend, Hfinal. rewrite Happend, Hfinal.
    destruct (currentSession_Some _ _ _ Hcur) as [_ Hex].
    assert (Hid1 : Chat.currentSessionId
                     (Chat.afterAppend env st content subject difficulty)
                   = Chat.currentSessionId st).
    { unfold Chat.afterAppend, Chat.resolveSession. now rewrite Hcur. }
    assert (Hid2 : Chat.currentSessionId
                     (fst (Chat.sendMessage env requestFn st content subject difficulty))
                   = Chat.currentSessionId st).
    { unfold Chat.sendMessage.
      destruct (String.eqb_spec (JsString.trim content) "") as [E | _];
        [contradiction | ].
      unfold Chat.resolveSession. rewrite Hcur.
      now destruct (Chat.request _ _) as [[text | apiError] events3]. }
    rewrite Hid1, Hid2. split.
    + unfold Chat.appendUserMessage. rewrite Hex. cbn [negb].
      rewrite currentSession_map, Hcur by (intros s; now destruct (String.eqb _ _)).
      cbn [option_map fmap option_fmap]. rewrite String.eqb_refl.
      cbn [ChatSession.title].
      destruct (ChatSession.messages session); [contradiction | reflexivity].
    + rewrite currentSession_map, Hcur by (intros s; unfold Chat.withReply; now destruct (String.eqb _ _)).
      cbn [option_map fmap option_fmap]. f_equal.
      unfold Chat.withReply. now destruct (String.eqb _ _).
Qed.

Lemma title_follows_first_message_witness :
  let fresh := Chat.mkState Samples.collection None false None in
  let current := Chat.mkState Samples.collection (Some "s2") false None in
  map ChatSession.title
    (Chat.sessions
       (fst (Chat.sendMessage Samples.env (Samples.replies "4") fresh
               "What is 2+2?" None None)))
  = ["What is 2+2?"; "New Chat"; "hi"]
  /\ (ChatSession.title
        <$> Chat.currentSession
              (Chat.sessions
                 (fst (Chat.sendMessage Samples.env (Samples.replies "4") current
                         "What is 2+2?" None None)))
              (Chat.currentSessionId
                 (fst (Chat.sendMessage Samples.env (Samples.replies "4") current
                         "What is 2+2?" None None))))
     = Some "hi".
Proof.
  cbv zeta.
  assert (Hnot : ~ isBlank "What is 2+2?").
  { intros Hblank. apply trim_blank in Hblank. vm_compute in Hblank.
    discriminate Hblank. }
  split.
  - destruct (title_follows_first_message Samples.env (Samples.replies "4")
                (Chat.mkState Samples.collection None false None)
                "What is 2+2?" None None Hnot) as [Hnew _].
    destruct (Hnew eq_refl eq_refl) as (session & _ & -> & _ & _ & _ & Hshort & _).
    cbn [map]. rewrite Hshort by (vm_compute; lia). reflexivity.
  - destruct (title_follows_first_message Samples.env (Samples.replies "4")
                (Chat.mkState Samples.collection (Some "s2") false None)
                "What is 2+2?" None None Hnot) as [_ Hkeep].
    destruct (Hkeep Samples.talk eq_refl ltac:(discriminate)) as [_ Hfinal].
    exact Hfinal.
Defined.

(** C7, the sentence as it stands, fails on the code. A first message of
    51 characters, sent without a current session: when the send has
    returned, the session made for it holds the message and has a title
    of 53 characters, not of 50 at most. *)
Lemma first_message_title_longer_than_fifty :
  let content := "Please explain how photosynthesis works in plants!!" in
  let st := Chat.mkState Samples.collection None false None in
  let st' := fst (Chat.sendMessage Samples.env (Samples.replies "Gladly.") st
                    content None None) in
  String.length content = 51%nat
  /\ exists session,
       Chat.sessions st' = session :: Samples.collection
       /\ ChatSession.messages session = [Chat.userMessageOf Samples.env content]
       /\ ChatSession.title session
          = "Please explain how photosynthesis works in plants!..."
       /\ String.length (ChatSession.title session) = 53%nat
       /\ ~ (String.length (ChatSession.title session) <= 50)%nat.
Proof.
  cbv zeta. split; [reflexivity | ].
  eexists. split; [vm_compute; reflexivity | ].
  cbn [ChatSession.messages ChatSession.title].
  split; [reflexivity | split; [reflexivity | split; [reflexivity | ]]].
  vm_compute. lia.
Qed.

Lemma request_all_rejected requestFn body :
  (forall k, exists e, requestFn k = Chat.Rejected e) ->
  exists e events,
    Chat.request requestFn body = (inr e, events)
    /\ fetches events = 3%nat
    /\ delays events = [2000; 4000].
Proof.
  intros Hall.
  destruct (Hall 0%nat) as [e0 E0], (Hall 1%nat) as [e1 E1], (Hall 2%nat) as [e2 E2].
  unfold Chat.request, Chat.retryApiCall, Chat.MAX_RETRIES. cbn [Chat.retryLoop].
  rewrite E0, E1, E2. cbn. eexists _, _. repeat split.
Qed.

(** C6, as the code has it. [sendMessage] checks no liveness flag. When
    the signal of a send is aborted, by the timer, by a newer send or by
    the teardown, the rejections of [fetch] go through the retry loop to
    its end and then through the failure branch, which writes the
    session again: the state differs from the one the user message was
    added to, the target session ends with the error message, and the
    error state is set. *)
Theorem cancelled_send_still_writes_session
    env requestFn reason pending st content subject difficulty session :
  JsString.trim content <> "" ->
  Chat.currentSession (Chat.sessions st) (Chat.currentSessionId st) = Some session ->
  (forall k, (k < pending)%nat -> exists e, requestFn k = Chat.Rejected e) ->
  let sessionId := ChatSession.id session in
  let userMessage := Chat.userMessageOf env content in
  let final :=
    fst (Chat.sendMessage env (Chat.abortedFrom reason pending requestFn) st
           content subject difficulty) in
  Chat.sessions final
  = Chat.appendErrorMessage sessionId userMessage (Chat.errorMessageOf env)
      (Chat.updateTimestamp env) (Chat.sessions st)
  /\ Chat.sessions final
     <> Chat.sessions (Chat.afterAppend env st content subject difficulty)
  /\ Chat.messagesOf sessionId (Chat.sessions final)
     = ChatSession.messages session
       ++ (if Chat.hasUserMessage userMessage (ChatSession.messages session)
           then [] else [userMessage])
       ++ [Chat.errorMessageOf env]
  /\ Chat.error final <> None.
Proof.
  intros Htrim Hcur Hbefore sessionId userMessage final.
  assert (Hall : forall k, exists e,
               Chat.abortedFrom reason pending requestFn k = Chat.Rejected e).
  { intros k. unfold Chat.abortedFrom.
    destruct (Nat.leb_spec pending k) as [_ | Hlt]; [eauto | now apply Hbefore]. }
  destruct (sendMessage_current_session env (Chat.abortedFrom reason pending requestFn)
              st content subject difficulty session Htrim Hcur) as [Hafter Hfinal].
  destruct (request_all_rejected (Chat.abortedFrom reason pending requestFn)
              (ChatSession.messages session ++ [userMessage]) Hall)
    as (e & events & Hreq & _).
  fold sessionId userMessage in Hafter, Hfinal.
  rewrite Hreq in Hfinal. cbn [fst Chat.replyOf] in Hfinal.
  destruct (currentSession_Some _ _ _ Hcur) as [Hin Hex]. fold sessionId in Hex.
  split; [exact Hfinal | split; [ | split]].
  - subst final. rewrite Hfinal, Hafter. unfold Chat.appendUserMessage.
    rewrite Hex. cbn [negb].
    apply (map_differs _ _ _ session Hin).
    intros E. apply (f_equal ChatSession.messages) in E.
    rewrite (withReply_target sessionId _ _ _ session eq_refl) in E.
    fold sessionId in E. rewrite String.eqb_refl in E. cbn [ChatSession.messages] in E.
    apply app_inv_head in E.
    destruct (Chat.hasUserMessage userMessage (ChatSession.messages session));
      cbn [app] in E; [ | discriminate E].
    apply (f_equal (map Message.role)) in E. discriminate E.
  - subst final. rewrite Hfinal. unfold Chat.messagesOf. subst sessionId.
    rewrite find_withReply, (currentSession_find _ _ _ Hcur). cbn [option_map].
    now apply withReply_target.
  - subst final. unfold Chat.sendMessage.
    destruct (String.eqb_spec (JsString.trim content) "") as [E | _]; [contradiction | ].
    unfold Chat.resolveSession. rewrite Hcur. fold userMessage. rewrite Hreq.
    cbn [fst Chat.error]. discriminate.
Qed.

Lemma cancelled_send_still_writes_session_witness :
  let st := Chat.mkState Samples.collection (Some "s2") false None in
  let final := fst (Chat.sendMessage Samples.env Samples.aborted st "What is 2+2?" None None) in
  Chat.messagesOf "s2" (Chat.sessions final)
  = [Samples.greeting; Samples.answer;
     Chat.userMessageOf Samples.env "What is 2+2?"; Chat.errorMessageOf Samples.env].
Proof.
  cbv zeta.
  destruct (cancelled_send_still_writes_session Samples.env (Samples.replies "4")
              Chat.abortError 0%nat
              (Chat.mkState Samples.collection (Some "s2") false None)
              "What is 2+2?" None None Samples.talk)
    as (_ & _ & Hmessages & _).
  - vm_compute. discriminate.
  - reflexivity.
  - intros k Hk. lia.
  - exact Hmessages.
Defined.

(** C6, the sentence as it stands, fails on the code: the request of a
    send into the session [s2] is aborted; when the call returns, the
    session holds one message more than it did when the user message had
    been added. *)
Lemma cancelled_send_mutates_session :
  let st := Chat.mkState Samples.collection (Some "s2") false None in
  let user := Chat.userMessageOf Samples.env "What is 2+2?" in
  let before := Chat.afterAppend Samples.env st "What is 2+2?" None None in
  let final := fst (Chat.sendMessage Samples.env Samples.aborted st "What is 2+2?" None None) in
  Chat.messagesOf "s2" (Chat.sessions before) = [Samples.greeting; Samples.answer; user]
  /\ Chat.messagesOf "s2" (Chat.sessions final)
     = [Samples.greeting; Samples.answer; user; Chat.errorMessageOf Samples.env]
  /\ Chat.sessions final <> Chat.sessions before.
Proof.
  cbv zeta. split; [vm_compute; reflexivity | ].
  split; [vm_compute; reflexivity | vm_compute; discriminate].
Qed.

(** A send that runs into the request timer: the reason of the abort
    becomes the error shown, and the error message is added to the
    session. *)
Example timed_out_send_adds_error_message :
  let final :=
    fst (Chat.sendMessage Samples.env
           (Chat.abortedFrom Chat.timeoutReason 0 (Samples.replies "4"))
           (Chat.mkState Samples.collection (Some "s2") false None)
           "What is 2+2?" None None) in
  Chat.messagesOf "s2" (Chat.sessions final)
  = [Samples.greeting; Samples.answer;
     Chat.userMessageOf Samples.env "What is 2+2?"; Chat.errorMessageOf Samples.env]
  /\ Chat.error final = Some "Request timeout".
Proof. cbv zeta. split; vm_compute; reflexivity. Qed.

(** The provider answers 429 to a send into the current session: one
    call of [fetch], the user message and the error message in the
    session, and the error of the response shown. *)
Example rate_limited_send :
  let result :=
    Chat.sendMessage Samples.env Samples.rateLimited
      (Chat.mkState Samples.collection (Some "s2") false None)
      "What is 2+2?" None None in
  fetches (snd result) = 1%nat
  /\ Chat.messagesOf "s2" (Chat.sessions (fst result))
     = [Samples.greeting; Samples.answer;
        Chat.userMessageOf Samples.env "What is 2+2?"; Chat.errorMessageOf Samples.env]
  /\ Chat.error (fst result) = Some "Rate limit exceeded. Please try again later.".
Proof. cbv zeta. repeat split; vm_compute; reflexivity. Qed.

(** The scenario of a first message: no current session, the request
    succeeds. The session is created with the title and the user
    message; the reply is not added, because the success branch looks
    for the session in the collection the call started from. *)
Example first_message_gets_no_reply :
  Chat.sessions
    (fst (Chat.sendMessage Samples.env (Samples.replies "4")
            (Chat.mkState [] None false None) "What is 2+2?" None None))
  = [ChatSession.mk "s-new" "What is 2+2?"
       [Chat.userMessageOf Samples.env "What is 2+2?"] 2000 2000 None None].
Proof. vm_compute. reflexivity. Qed.

(** A message with a new text in the current session: the user message
    and the reply are both there when the call has returned. *)
Example new_text_keeps_both_messages :
  Chat.messagesOf "s2"
    (Chat.sessions
       (fst (Chat.sendMessage Samples.env (Samples.replies "4")
               (Chat.mkState Samples.collection (Some "s2") false None)
               "What is 2+2?" None None)))
  = [Samples.greeting; Samples.answer;
     Chat.userMessageOf Samples.env "What is 2+2?";
     Chat.assistantMessageOf Samples.env "4"].
Proof. vm_compute. reflexivity. Qed.

(** C1 on the code. The session [s2] already holds the user message
    "hi". Sending "hi" again adds the new message before the request is
    made; when the reply arrives, the success branch starts from the
    collection the call began with, takes the old "hi" for the new one,
    and writes the session without the new message. *)
Lemma repeated_text_loses_the_user_message :
  let st := Chat.mkState Samples.collection (Some "s2") false None in
  let user := Chat.userMessageOf Samples.env "hi" in
  let result := Chat.sendMessage Samples.env (Samples.replies "Hello again!") st "hi" None None in
  Chat.messagesOf "s2" (Chat.sessions (Chat.afterAppend Samples.env st "hi" None None))
  = [Samples.greeting; Samples.answer; user]
  /\ Chat.messagesOf "s2" (Chat.sessions (fst result))
     = [Samples.greeting; Samples.answer;
        Chat.assistantMessageOf Samples.env "Hello again!"]
  /\ ~ In user (Chat.messagesOf "s2" (Chat.sessions (fst result))).
Proof.
  cbv zeta. split; [vm_compute; reflexivity | ].
  split; [vm_compute; reflexivity | ].
  vm_compute. intros [H | [H | [H | []]]]; discriminate H.
Qed.

(** C2 on the code. A first message sent without a current session,
    with the network down: the three attempts fail, the failure branch
    looks for the new session in the collection the call began with,
    finds none, and returns without writing; the session holds the user
    message and no error message. In the session [s2], where "hi" was
    said before, a failed "hi" leaves the error message but not the
    user message. *)
Lemma failed_first_send_adds_no_error_message :
  let fresh := Chat.mkState [] None false None in
  let first := fst (Chat.sendMessage Samples.env Samples.offline fresh "What is 2+2?" None None) in
  let st := Chat.mkState Samples.collection (Some "s2") false None in
  let again := fst (Chat.sendMessage Samples.env Samples.offline st "hi" None None) in
  Chat.sessions first
  = [ChatSession.mk "s-new" "What is 2+2?"
       [Chat.userMessageOf Samples.env "What is 2+2?"] 2000 2000 None None]
  /\ Chat.error first = Some "Failed to fetch"
  /\ Chat.messagesOf "s2" (Chat.sessions again)
     = [Samples.greeting; Samples.answer; Chat.errorMessageOf Samples.env].
Proof.
  cbv zeta. repeat split; vm_compute; reflexivity.
Qed.

(* --------------------------------------------------------------------- *)
(** ** The store adapter: saving, loading, removing *)
(* --------------------------------------------------------------------- *)

Lemma size_insert_fresh k v (m : gmap string string) :
  m !! k = None ->
  LocalStorage.size (<[k := v]> m)
  = (String.length k + String.length v + LocalStorage.size m)%nat.
Proof.
  intros Hk. unfold LocalStorage.size.
  refine (map_fold_insert_L _ _ k v m _ Hk).
  intros. lia.
Qed.

(** X1. What [setValue] saves is what the next mount reads. When the
    hook is mounted, the storage can be used and the text of the new
    value fits, [getInitialValue] on the store the call leaves gives
    the value that was handed to [setStoredValue]. *)
Theorem saved_value_is_read_back {T : Type} `{Persistable T}
    (key : string) (initialValue : T) (h : Hook T) (value : SetStateAction T)
    (st : LocalStorage.t) (v : T) :
  Lawful T ->
  isMounted h = true ->
  LocalStorage.denied st = false ->
  fst (setValue key h value st) = Some v ->
  (LocalStorage.size (<[key := JSON_stringify v]> (LocalStorage.items st))
   <= LocalStorage.quota st)%nat ->
  getInitialValue key initialValue (snd (setValue key h value st)) = v.
Proof.
  intros lawful Hmounted Hdenied Hv Hfits. unfold setValue in *.
  destruct (nextStoredValue (storedValue h) value) as [w | ]; [ | discriminate Hv].
  cbn [fst snd] in *. injection Hv as ->. rewrite Hmounted.
  unfold LocalStorage.setItem. rewrite Hdenied.
  apply Nat.leb_le in Hfits. rewrite Hfits.
  unfold getInitialValue, LocalStorage.getItem. cbn [LocalStorage.denied LocalStorage.items].
  rewrite lookup_insert_eq.
  destruct (String.eqb_spec (JSON_stringify v) "") as [E | _].
  - now apply (JSON_stringify_nonempty lawful) in E.
  - now rewrite (JSON_parse_stringify lawful).
Qed.

Lemma saved_value_is_read_back_witness :
  getInitialValue SESSIONS_KEY []
    (snd (setValue SESSIONS_KEY (mkHook [] true) (NewValue Samples.collection)
            (LocalStorage.mk ∅ 5000 false)))
  = Samples.collection.
Proof.
  apply (saved_value_is_read_back SESSIONS_KEY [] (mkHook [] true)
           (NewValue Samples.collection) (LocalStorage.mk ∅ 5000 false)
           Samples.collection Lawful_sessions).
  - reflexivity.
  - reflexivity.
  - vm_compute. reflexivity.
  - apply Nat.leb_le. vm_compute. reflexivity.
Defined.

(** X2. A save under one key leaves the entries of the other keys as
    they are, with one exception: it may delete the progress
    statistics. The quota and the access to the storage do not
    change. *)
Theorem setValue_leaves_other_keys {T : Type} `{Persistable T}
    (key : string) (h : Hook T) (value : SetStateAction T) (st : LocalStorage.t) :
  let st' := snd (setValue key h value st) in
  (forall k, k <> key -> k <> PROGRESS_KEY ->
             LocalStorage.items st' !! k = LocalStorage.items st !! k)
  /\ (key <> PROGRESS_KEY ->
      LocalStorage.items st' !! PROGRESS_KEY = LocalStorage.items st !! PROGRESS_KEY
      \/ LocalStorage.items st' !! PROGRESS_KEY = None)
  /\ LocalStorage.quota st' = LocalStorage.quota st
  /\ LocalStorage.denied st' = LocalStorage.denied st.
Proof.
  cbv zeta. unfold setValue.
  destruct (nextStoredValue (storedValue h) value) as [v | ]; cbn [snd];
    [ | repeat split; auto].
  destruct (isMounted h); [ | repeat split; auto].
  assert (Hset : forall item,
             let st' := match LocalStorage.setItem key item st with
                        | inl st' => st'
                        | inr _ => st
                        end in
             (forall k, k <> key ->
                        LocalStorage.items st' !! k = LocalStorage.items st !! k)
             /\ LocalStorage.quota st' = LocalStorage.quota st
             /\ LocalStorage.denied st' = LocalStorage.denied st).
  { intros item. cbv zeta. unfold LocalStorage.setItem.
    destruct (LocalStorage.denied st) eqn:Hd; [repeat split; auto | ].
    destruct (_ <=? _)%nat; [ | repeat split; auto].
    cbn. repeat split; auto. intros k Hk. now apply lookup_insert_ne. }
  assert (Hevict : let st' := match LocalStorage.removeItem PROGRESS_KEY st with
                              | inl st' => st'
                              | inr _ => st
                              end in
             (forall k, k <> PROGRESS_KEY ->
                        LocalStorage.items st' !! k = LocalStorage.items st !! k)
             /\ (LocalStorage.items st' !! PROGRESS_KEY
                 = LocalStorage.items st !! PROGRESS_KEY
                 \/ LocalStorage.items st' !! PROGRESS_KEY = None)
             /\ LocalStorage.quota st' = LocalStorage.quota st
             /\ LocalStorage.denied st' = LocalStorage.denied st).
  { cbv zeta. unfold LocalStorage.removeItem.
    destruct (LocalStorage.denied st) eqn:Hd; [repeat split; auto | ].
    cbn. repeat split; auto.
    - intros k Hk. now apply lookup_delete_ne.
    - right. apply lookup_delete_eq. }
  assert (Hquota : let st' := handleQuotaExceeded key (toJSON v) st in
             (forall k, k <> key -> k <> PROGRESS_KEY ->
                        LocalStorage.items st' !! k = LocalStorage.items st !! k)
             /\ (key <> PROGRESS_KEY ->
                 LocalStorage.items st' !! PROGRESS_KEY
                 = LocalStorage.items st !! PROGRESS_KEY
                 \/ LocalStorage.items st' !! PROGRESS_KEY = None)
             /\ LocalStorage.quota st' = LocalStorage.quota st
             /\ LocalStorage.denied st' = LocalStorage.denied st).
  { cbv zeta. unfold handleQuotaExceeded.
    destruct Hevict as (He1 & He2 & He3 & He4).
    destruct (toJSON v) as [ | | | | l | ];
      try (repeat split; solve [auto]).
    destruct (String.eqb key SESSIONS_KEY && (10 <? List.length l)%nat);
      [ | repeat split; solve [auto]].
    destruct (Hset (stringify (JArr (slice0 10 (Array_sort byUpdatedAtDesc_json l)))))
      as (Hs1 & Hs2 & Hs3).
    repeat split; auto. all: intros Hne; left; apply Hs1; congruence. }
  destruct (Hset (JSON_stringify v)) as (Hs1 & Hs2 & Hs3).
  destruct (LocalStorage.setItem key (JSON_stringify v) st) as [st1 | [ | ]].
  - repeat split; auto. all: intros Hne; left; apply Hs1; congruence.
  - exact Hquota.
  - repeat split; auto.
Qed.

(** X3. After [removeValue] the hook holds the initial value, the next
    mount starts from the initial value, whether the storage can be
    used or not, and the entries of the other keys are as they were. *)
Theorem removeValue_resets {T : Type} `{Persistable T}
    (key : string) (initialValue : T) (st : LocalStorage.t) :
  let st' := snd (removeValue key initialValue st) in
  fst (removeValue key initialValue st) = initialValue
  /\ getInitialValue key initialValue st' = initialValue
  /\ storedValue (mount key initialValue st') = initialValue
  /\ (forall k, k <> key -> LocalStorage.items st' !! k = LocalStorage.items st !! k).
Proof.
  cbv zeta. unfold removeValue, mount. cbn [fst snd storedValue].
  assert (Hload : getInitialValue key initialValue
                    match LocalStorage.removeItem key st with
                    | inl st' => st'
                    | inr _ => st
                    end = initialValue).
  { unfold getInitialValue, LocalStorage.getItem, LocalStorage.removeItem.
    destruct (LocalStorage.denied st) eqn:Hd; [now rewrite Hd | ].
    cbn [LocalStorage.denied LocalStorage.items].
    now rewrite lookup_delete_eq. }
  repeat split; auto.
  intros k Hk. unfold LocalStorage.removeItem.
  destruct (LocalStorage.denied st); [reflexivity | ].
  cbn. now apply lookup_delete_ne.
Qed.

(** X4. The probe [isLocalStorageAvailable] answers [true] exactly when
    the storage can be used and holds the test entry within its quota,
    which for a store without that entry means room for 32 more
    characters. It leaves the entries of all other keys as they were,
    and after the answer [true] the store holds no test entry, also
    when it held one before. *)
Theorem isLocalStorageAvailable_probe (st : LocalStorage.t) :
  let testKey := "__test_storage__" in
  let st' := snd (isLocalStorageAvailable st) in
  (fst (isLocalStorageAvailable st) = true <->
   LocalStorage.denied st = false
   /\ (LocalStorage.size (<[testKey := testKey]> (LocalStorage.items st))
       <= LocalStorage.quota st)%nat)
  /\ (LocalStorage.items st !! testKey = None ->
      (fst (isLocalStorageAvailable st) = true <->
       LocalStorage.denied st = false
       /\ (32 + LocalStorage.size (LocalStorage.items st) <= LocalStorage.quota st)%nat))
  /\ (forall k, k <> testKey -> LocalStorage.items st' !! k = LocalStorage.items st !! k)
  /\ (fst (isLocalStorageAvailable st) = true -> LocalStorage.items st' !! testKey = None).
Proof.
  cbv zeta.
  assert (Hmain :
    (fst (isLocalStorageAvailable st) = true <->
     LocalStorage.denied st = false
     /\ (LocalStorage.size (<["__test_storage__" := "__test_storage__"]>
                              (LocalStorage.items st))
         <= LocalStorage.quota st)%nat)
    /\ (forall k, k <> "__test_storage__" ->
                  LocalStorage.items (snd (isLocalStorageAvailable st)) !! k
                  = LocalStorage.items st !! k)
    /\ (fst (isLocalStorageAvailable st) = true ->
        LocalStorage.items (snd (isLocalStorageAvailable st)) !! "__test_storage__"
        = None)).
  { unfold isLocalStorageAvailable, LocalStorage.setItem.
    destruct (LocalStorage.denied st) eqn:Hd.
    { cbn. repeat split; try discriminate; auto. intros [? _]. discriminate. }
    destruct (_ <=? _)%nat eqn:Hfits.
    - unfold LocalStorage.getItem, LocalStorage.removeItem.
      cbn [LocalStorage.denied LocalStorage.items].
      rewrite lookup_insert_eq. cbn [fst snd LocalStorage.items].
      apply Nat.leb_le in Hfits. repeat split; auto.
      + intros k Hk. rewrite lookup_delete_ne by congruence.
        now apply lookup_insert_ne.
      + intros _. apply lookup_delete_eq.
    - cbn. apply Nat.leb_gt in Hfits. repeat split; try discriminate; auto.
      intros [_ Hle]. lia. }
  destruct Hmain as (Hiff & Hother & Hgone).
  split; [exact Hiff | ]. split; [ | split; [exact Hother | exact Hgone]].
  intros Hfresh. rewrite Hiff, (size_insert_fresh _ _ _ Hfresh).
  change (String.length "__test_storage__") with 16%nat.
  split; intros [Hd Hle]; (split; [exact Hd | lia]).
Qed.

(* --------------------------------------------------------------------- *)
(** ** The rate limiter: long runs, several clients, the sweep *)
(* --------------------------------------------------------------------- *)

(** Inside a window with [c] requests counted, the requests that still
    pass are the first [5 - c]. *)
Lemma serve_within_passes ip times :
  forall (m : gmap string Proxy.ClientData) c start,
    m !! ip = Some (Proxy.mkClient c start) ->
    Forall (fun now => now - start <= Proxy.RATE_LIMIT_WINDOW) times ->
    fst (serve ip times m)
    = firstn (List.length times) (repeat false (Z.to_nat (5 - c)))
      ++ repeat true (List.length times - Z.to_nat (5 - c))
    /\ exists c', snd (serve ip times m) !! ip = Some (Proxy.mkClient c' start).
Proof.
  induction times as [ | now later IH]; intros m c start Hm Hall.
  - cbn. split; [reflexivity | eauto].
  - inversion Hall as [ | ? ? Hnow Hlater]; subst.
    cbn [serve]. rewrite (isRateLimited_within ip now m c start Hm Hnow).
    specialize (IH (<[ip := Proxy.mkClient (c + 1) start]> m) (c + 1) start
                   (lookup_insert_eq _ _ _) Hlater).
    destruct (serve ip later _) as [answers m2]. cbn [fst snd] in *.
    destruct IH as [IHa IHm]. split; [ | exact IHm].
    rewrite IHa. cbn [List.length]. unfold Proxy.MAX_REQUESTS_PER_WINDOW.
    destruct (Z.ltb_spec 5 (c + 1)) as [Hover | Hunder].
    + replace (Z.to_nat (5 - c)) with 0%nat by lia.
      replace (Z.to_nat (5 - (c + 1))) with 0%nat by lia.
      cbn [repeat]. rewrite !firstn_nil, !Nat.sub_0_r. reflexivity.
    + replace (Z.to_nat (5 - c)) with (S (Z.to_nat (5 - (c + 1)))) by lia.
      cbn [repeat firstn Nat.sub app]. reflexivity.
Qed.

(** X5. However many requests a client makes inside one window, the
    first five pass and every later one is refused; the refused
    requests do not move the window, so that the first request made
    more than a minute after the one that opened it passes again. *)
Theorem only_five_pass_per_window
    (ip : string) (t1 : Z) (later : list Z) (m : gmap string Proxy.ClientData) :
  opensWindow ip t1 m ->
  Forall (fun now => now - t1 <= Proxy.RATE_LIMIT_WINDOW) later ->
  let n := S (List.length later) in
  fst (serve ip (t1 :: later) m) = firstn n (repeat false 5) ++ repeat true (n - 5)
  /\ (forall now,
         Proxy.RATE_LIMIT_WINDOW < now - t1 ->
         fst (Proxy.isRateLimited ip now (snd (serve ip (t1 :: later) m))) = false).
Proof.
  intros Hopen Hall n. subst n. cbn [serve].
  rewrite (isRateLimited_opens ip t1 m Hopen).
  destruct (serve_within_passes ip later (<[ip := Proxy.mkClient 1 t1]> m) 1 t1
              (lookup_insert_eq _ _ _) Hall) as [Ha [c' Hm]].
  destruct (serve ip later _) as [answers m2]. cbn [fst snd] in *.
  split.
  - rewrite Ha. change (Z.to_nat (5 - 1)) with 4%nat. reflexivity.
  - intros now Hnow. rewrite isRateLimited_opens; [reflexivity | ].
    unfold opensWindow. rewrite Hm. exact Hnow.
Qed.

Lemma only_five_pass_per_window_witness :
  fst (serve "203.0.113.7" [1000; 2000; 3000; 4000; 5000; 6000; 7000; 61000] ∅)
  = [false; false; false; false; false; true; true; true].
Proof.
  assert (Hopen : opensWindow "203.0.113.7" 1000 ∅) by exact I.
  assert (Hall : Forall (fun now => now - 1000 <= Proxy.RATE_LIMIT_WINDOW)
                        [2000; 3000; 4000; 5000; 6000; 7000; 61000]).
  { repeat constructor; vm_compute; discriminate. }
  exact (proj1 (only_five_pass_per_window "203.0.113.7" 1000
                  [2000; 3000; 4000; 5000; 6000; 7000; 61000] ∅ Hopen Hall)).
Defined.

Lemma isRateLimited_lookup ip now (m1 m2 : gmap string Proxy.ClientData) :
  m1 !! ip = m2 !! ip ->
  fst (Proxy.isRateLimited ip now m1) = fst (Proxy.isRateLimited ip now m2)
  /\ snd (Proxy.isRateLimited ip now m1) !! ip = snd (Proxy.isRateLimited ip now m2) !! ip.
Proof.
  intros E. unfold Proxy.isRateLimited. rewrite E.
  destruct (m2 !! ip) as [d | ]; [destruct (_ <? _) | ]; cbn [fst snd];
    now rewrite !lookup_insert_eq.
Qed.

Lemma isRateLimited_other ip ip' now (m : gmap string Proxy.ClientData) :
  ip' <> ip -> snd (Proxy.isRateLimited ip' now m) !! ip = m !! ip.
Proof.
  intros Hne. unfold Proxy.isRateLimited.
  destruct (m !! ip') as [d | ]; [destruct (_ <? _) | ]; cbn [snd];
    now apply lookup_insert_ne.
Qed.

(** X6. Clients do not interfere. In any interleaving of the requests
    of several clients, the answers given to one client, and the entry
    the map holds for it in the end, are those it would get if its own
    requests were the only ones. *)
Theorem clients_do_not_interfere
    (ip : string) (requests : list (string * Z)) (m : gmap string Proxy.ClientData) :
  answersTo ip requests (fst (serveAll requests m))
  = fst (serve ip (timesOf ip requests) m)
  /\ snd (serveAll requests m) !! ip = snd (serve ip (timesOf ip requests) m) !! ip.
Proof.
  enough (Hany : forall m1 m2 : gmap string Proxy.ClientData,
             m1 !! ip = m2 !! ip ->
             answersTo ip requests (fst (serveAll requests m1))
             = fst (serve ip (timesOf ip requests) m2)
             /\ snd (serveAll requests m1) !! ip
                = snd (serve ip (timesOf ip requests) m2) !! ip)
    by now apply Hany.
  induction requests as [ | [ip' now] later IH]; intros m1 m2 E.
  - cbn. split; [reflexivity | exact E].
  - cbn [serveAll]. unfold timesOf. cbn [List.filter fst].
    destruct (String.eqb_spec ip' ip) as [-> | Hne].
    + cbn [map snd serve].
      destruct (isRateLimited_lookup ip now m1 m2 E) as [Ha Hm].
      destruct (Proxy.isRateLimited ip now m1) as [a1 m1'].
      destruct (Proxy.isRateLimited ip now m2) as [a2 m2'].
      cbn [fst snd] in Ha, Hm. subst a2.
      specialize (IH m1' m2' Hm). unfold timesOf in IH.
      destruct (serveAll later m1') as [answers1 m1''].
      destruct (serve ip _ m2') as [answers2 m2''].
      cbn [fst snd answersTo] in *. rewrite String.eqb_refl.
      destruct IH as [-> ->]. split; reflexivity.
    + pose proof (isRateLimited_other ip ip' now m1 Hne) as Hm.
      destruct (Proxy.isRateLimited ip' now m1) as [a1 m1'].
      cbn [snd] in Hm.
      specialize (IH m1' m2 (eq_trans Hm E)). unfold timesOf in IH.
      destruct (serveAll later m1') as [answers1 m1''].
      cbn [fst snd answersTo] in *.
      destruct (String.eqb_spec ip' ip) as [? | _]; [contradiction | ].
      exact IH.
Qed.

Lemma cleanup_forgetsExpired now (m : gmap string Proxy.ClientData) :
  forgetsExpired now (Proxy.cleanup now m) m.
Proof.
  intros ip. unfold Proxy.cleanup.
  destruct (m !! ip) as [d | ] eqn:Hm.
  - destruct (decide (Proxy.RATE_LIMIT_WINDOW * 5 < now - Proxy.timestamp d)) as [Hold | Hnew].
    + right. split.
      * apply map_lookup_filter_None. right. intros x Hx. cbn.
        rewrite Hm in Hx. injection Hx as <-. intros Hkeep. contradiction.
      * exists d. split; [reflexivity | ]. unfold Proxy.RATE_LIMIT_WINDOW in *. lia.
    + left. apply map_lookup_filter_Some. split; [exact Hm | exact Hnew].
  - left. apply map_lookup_filter_None. now left.
Qed.

Lemma forgetsExpired_insert now ip x (m1 m2 : gmap string Proxy.ClientData) :
  forgetsExpired now m1 m2 -> forgetsExpired now (<[ip := x]> m1) (<[ip := x]> m2).
Proof.
  intros HR ip'. destruct (decide (ip' = ip)) as [-> | Hne].
  - left. now rewrite !lookup_insert_eq.
  - rewrite !lookup_insert_ne by congruence. apply HR.
Qed.

Lemma isRateLimited_forgetsExpired now ip t (m1 m2 : gmap string Proxy.ClientData) :
  forgetsExpired now m1 m2 ->
  now <= t ->
  fst (Proxy.isRateLimited ip t m1) = fst (Proxy.isRateLimited ip t m2)
  /\ forgetsExpired now (snd (Proxy.isRateLimited ip t m1))
                        (snd (Proxy.isRateLimited ip t m2)).
Proof.
  intros HR Hle. unfold Proxy.isRateLimited.
  destruct (HR ip) as [E | (E1 & d & E2 & Hold)].
  - rewrite E. destruct (m2 !! ip) as [d | ]; [destruct (_ <? _) | ]; cbn [fst snd];
      (split; [reflexivity | now apply forgetsExpired_insert]).
  - rewrite E1, E2.
    assert (Hlt : (Proxy.RATE_LIMIT_WINDOW <? t - Proxy.timestamp d) = true)
      by (apply Z.ltb_lt; lia).
    rewrite Hlt. cbn [fst snd].
    split; [reflexivity | now apply forgetsExpired_insert].
Qed.

Lemma serveAll_forgetsExpired now requests :
  forall m1 m2 : gmap string Proxy.ClientData,
    forgetsExpired now m1 m2 ->
    Forall (fun request => now <= snd request) requests ->
    fst (serveAll requests m1) = fst (serveAll requests m2).
Proof.
  induction requests as [ | [ip t] later IH]; intros m1 m2 HR Hall; [reflexivity | ].
  inversion Hall as [ | ? ? Ht Hlater]; subst. cbn [snd] in Ht.
  cbn [serveAll].
  destruct (isRateLimited_forgetsExpired now ip t m1 m2 HR Ht) as [Ha HR'].
  destruct (Proxy.isRateLimited ip t m1) as [a1 m1'].
  destruct (Proxy.isRateLimited ip t m2) as [a2 m2'].
  cbn [fst snd] in Ha, HR'. subst a2.
  specialize (IH m1' m2' HR' Hlater).
  destruct (serveAll later m1') as [answers1 ?].
  destruct (serveAll later m2') as [answers2 ?].
  cbn [fst] in *. now rewrite IH.
Qed.

(** X7. The sweep cannot be observed. Whatever requests come after a
    run of the five-minute sweep, from whatever clients, they get the
    answers they would have got without it: the sweep only forgets
    clients whose window is over. *)
Theorem cleanup_is_invisible
    (now : Z) (requests : list (string * Z)) (m : gmap string Proxy.ClientData) :
  Forall (fun request => now <= snd request) requests ->
  fst (serveAll requests (Proxy.cleanup now m)) = fst (serveAll requests m).
Proof.
  intros Hall. apply (serveAll_forgetsExpired now); [ | exact Hall].
  apply cleanup_forgetsExpired.
Qed.

Lemma cleanup_is_invisible_witness :
  let m : gmap string Proxy.ClientData :=
    {["203.0.113.7" := Proxy.mkClient 6 0; "198.51.100.2" := Proxy.mkClient 5 350000]} in
  let requests := [("203.0.113.7", 400001); ("198.51.100.2", 400002)] in
  Proxy.cleanup 400000 m !! "203.0.113.7" = None
  /\ fst (serveAll requests (Proxy.cleanup 400000 m)) = fst (serveAll requests m).
Proof.
  cbv zeta. split; [vm_compute; reflexivity | ].
  apply cleanup_is_invisible.
  repeat constructor; vm_compute; discriminate.
Defined.

(* --------------------------------------------------------------------- *)
(** ** The endpoint and the model provider *)
(* --------------------------------------------------------------------- *)

Lemma normaliseRole_role msg :
  Proxy.role (Proxy.normaliseRole msg) = "user"
  \/ Proxy.role (Proxy.normaliseRole msg) = "assistant".
Proof.
  unfold Proxy.normaliseRole.
  destruct (String.eqb (Proxy.role msg) "user"); [now left | ].
  destruct (String.eqb (Proxy.role msg) "assistant"); [now right | now left].
Qed.

Lemma normaliseRole_content msg :
  Proxy.content (Proxy.normaliseRole msg) = Proxy.content msg.
Proof.
  unfold Proxy.normaliseRole.
  destruct (String.eqb (Proxy.role msg) "user"); [reflexivity | ].
  destruct (String.eqb (Proxy.role msg) "assistant"); reflexivity.
Qed.

(** The messages [POST] hands to the provider. *)
Lemma contextMessages_last_fifteen (msgs : list Proxy.ChatMessage) :
  (if (15 <? List.length (map Proxy.normaliseRole msgs))%nat
   then skipn (List.length (map Proxy.normaliseRole msgs) - 15)
              (map Proxy.normaliseRole msgs)
   else map Proxy.normaliseRole msgs)
  = skipn (List.length msgs - 15) (map Proxy.normaliseRole msgs).
Proof.
  rewrite length_map. destruct (Nat.ltb_spec 15 (List.length msgs)) as [Hlong | Hshort].
  - reflexivity.
  - replace (List.length msgs - 15)%nat with 0%nat by lia. reflexivity.
Qed.

Lemma POST_valid_request apiKeyConfigured sendChatMessage generateContextualPrompt
    getFallbackResponse request b msgs now (m : gmap string Proxy.ClientData) :
  fst (Proxy.isRateLimited (Proxy.clientIp request) now m) = false ->
  Proxy.body request = Some b ->
  Proxy.messages b = Some msgs ->
  msgs <> [] ->
  fst (Proxy.POST apiKeyConfigured sendChatMessage generateContextualPrompt
         getFallbackResponse request now m)
  = if negb apiKeyConfigured then
      Proxy.mkReply 200 None (Some (getFallbackResponse (Proxy.lastContent msgs)))
    else
      match sendChatMessage
              (skipn (List.length msgs - 15) (map Proxy.normaliseRole msgs))
              (generateContextualPrompt (Proxy.subject b) (Proxy.difficulty b)) with
      | inl response => Proxy.mkReply 200 None (Some response)
      | inr errorMessage =>
          if JsString.includes "rate limit" errorMessage
             || JsString.includes "too many requests" errorMessage
          then Proxy.mkReply 429
                 (Some "Rate limit exceeded. Please try again in a moment.") None
          else Proxy.mkReply 503 (Some "AI service error")
                 (Some (getFallbackResponse (Proxy.lastContent msgs)))
      end.
Proof.
  intros Hpass Hbody Hmsgs Hne. unfold Proxy.POST.
  destruct (Proxy.isRateLimited (Proxy.clientIp request) now m) as [limited m'].
  cbn [fst] in Hpass. subst limited. cbn [fst]. rewrite Hbody, Hmsgs.
  destruct msgs as [ | msg msgs]; [contradiction | ].
  now rewrite contextMessages_last_fifteen.
Qed.

(** X8. [POST] consults the provider about the last fifteen messages of
    the request and nothing else: two providers that give the same
    result for these messages, with the prompt made from the subject
    and the difficulty, lead to the same reply and the same map. The
    messages handed over are at most fifteen, each has the role [user]
    or [assistant], and their contents are those of the last fifteen
    messages of the request. *)
Theorem provider_sees_last_fifteen
    (apiKeyConfigured : bool)
    (send1 send2 : list Proxy.ChatMessage -> string -> string + string)
    (generateContextualPrompt : option string -> option string -> string)
    (getFallbackResponse : string -> string)
    (request : Proxy.Request) (b : Proxy.RequestBody) (msgs : list Proxy.ChatMessage)
    (now : Z) (m : gmap string Proxy.ClientData) :
  Proxy.body request = Some b ->
  Proxy.messages b = Some msgs ->
  let context := skipn (List.length msgs - 15) (map Proxy.normaliseRole msgs) in
  let prompt := generateContextualPrompt (Proxy.subject b) (Proxy.difficulty b) in
  send1 context prompt = send2 context prompt ->
  Proxy.POST apiKeyConfigured send1 generateContextualPrompt getFallbackResponse
    request now m
  = Proxy.POST apiKeyConfigured send2 generateContextualPrompt getFallbackResponse
      request now m
  /\ (List.length context <= 15)%nat
  /\ Forall (fun msg => Proxy.role msg = "user" \/ Proxy.role msg = "assistant") context
  /\ map Proxy.content context
     = skipn (List.length msgs - 15) (map Proxy.content msgs).
Proof.
  intros Hbody Hmsgs context prompt Hsame. subst context prompt.
  split; [ | split; [ | split]].
  - unfold Proxy.POST.
    destruct (Proxy.isRateLimited (Proxy.clientIp request) now m) as [limited m'].
    destruct limited; [reflexivity | ]. rewrite Hbody, Hmsgs.
    destruct msgs as [ | msg msgs]; [reflexivity | ].
    destruct apiKeyConfigured; [ | reflexivity]. cbn [negb].
    rewrite contextMessages_last_fifteen. now rewrite Hsame.
  - rewrite length_skipn, length_map. lia.
  - apply List.Forall_forall. intros x Hx.
    assert (Hin : In x (map Proxy.normaliseRole msgs)).
    { rewrite <- (firstn_skipn (List.length msgs - 15) (map Proxy.normaliseRole msgs)).
      apply in_or_app. now right. }
    apply in_map_iff in Hin as (msg & <- & _). apply normaliseRole_role.
  - rewrite <- skipn_map, map_map. f_equal. apply map_ext. apply normaliseRole_content.
Qed.

Lemma provider_sees_last_fifteen_witness :
  let request :=
    Proxy.mkRequest (Some "203.0.113.7")
      (Some (Proxy.mkBody
               (Some (repeat (Proxy.mkMessage "system" "hello") 20)) None None)) in
  let send1 := fun (msgs : list Proxy.ChatMessage) (prompt : string) =>
                 inl "Hello!" : string + string in
  let send2 := fun (msgs : list Proxy.ChatMessage) (prompt : string) =>
                 (if (List.length msgs <=? 15)%nat then inl "Hello!"
                  else inr "too many messages") : string + string in
  Proxy.POST true send1 (fun _ _ => "prompt") (fun _ => "fallback") request 1000 ∅
  = Proxy.POST true send2 (fun _ _ => "prompt") (fun _ => "fallback") request 1000 ∅.
Proof.
  cbv zeta.
  refine (proj1 (provider_sees_last_fifteen true
                   (fun _ _ => inl "Hello!")
                   (fun msgs _ => if (List.length msgs <=? 15)%nat then inl "Hello!"
                                  else inr "too many messages")
                   (fun _ _ => "prompt") (fun _ => "fallback")
                   (Proxy.mkRequest (Some "203.0.113.7")
                      (Some (Proxy.mkBody
                               (Some (repeat (Proxy.mkMessage "system" "hello") 20))
                               None None)))
                   (Proxy.mkBody (Some (repeat (Proxy.mkMessage "system" "hello") 20))
                      None None)
                   (repeat (Proxy.mkMessage "system" "hello") 20)
                   1000 ∅ _ _ _)); reflexivity.
Defined.

(** X9. [sendChatMessage] returns a reply exactly when the list of
    messages is not empty, the provider answers the request, whose
    first message is the system prompt, with a status from 200 to 299
    and a body that parses, and the body holds at least one choice; the
    reply is then the content of the first choice. *)
Theorem sendChatMessage_returns_first_choice
    (fetch : list Proxy.ChatMessage -> Chat.JsError + OpenRouter.UpstreamResponse)
    (messages : list Proxy.ChatMessage) (systemPrompt text : string) :
  OpenRouter.sendChatMessage fetch messages systemPrompt = inl text
  <-> messages <> []
      /\ exists response data rest,
           fetch (Proxy.mkMessage "system" systemPrompt :: messages) = inr response
           /\ 200 <= OpenRouter.status response <= 299
           /\ OpenRouter.json response = inr data
           /\ OpenRouter.choices data = Some (text :: rest).
Proof.
  unfold OpenRouter.sendChatMessage.
  destruct messages as [ | msg messages].
  { split; [discriminate | intros [Hne _]; contradiction]. }
  destruct (fetch (Proxy.mkMessage "system" systemPrompt :: msg :: messages))
    as [error | response].
  { split.
    - destruct (String.eqb _ _); [discriminate | ].
      destruct (JsString.includes _ _); discriminate.
    - intros (_ & response & data & rest & Hfetch & _). discriminate Hfetch. }
  unfold OpenRouter.ok.
  destruct (Z.leb_spec 200 (OpenRouter.status response)) as [Hlo | Hlo];
    [destruct (Z.leb_spec (OpenRouter.status response) 299) as [Hhi | Hhi] | ];
    cbn [andb negb].
  - destruct (OpenRouter.json response) as [error | data] eqn:Hjson.
    { split.
      - destruct (String.eqb _ _); [discriminate | ].
        destruct (JsString.includes _ _); discriminate.
      - intros (_ & r & d & rest & [= <-] & _ & Hd & _). congruence. }
    destruct (OpenRouter.choices data) as [[ | content rest] | ] eqn:Hchoices.
    + split; [vm_compute; discriminate | ].
      intros (_ & r & d & rest & [= <-] & _ & Hd & Hc). congruence.
    + split.
      * intros [= <-]. split; [discriminate | ].
        exists response, data, rest. repeat split; auto.
      * intros (_ & r & d & rest' & [= <-] & _ & Hd & Hc). congruence.
    + split; [vm_compute; discriminate | ].
      intros (_ & r & d & rest & [= <-] & _ & Hd & Hc). congruence.
  - split.
    + repeat (destruct (_ || _) || destruct (_ <=? _));
        repeat (destruct (String.eqb _ _) || destruct (JsString.includes _ _));
        discriminate.
    + intros (_ & r & d & rest & [= <-] & [_ Hle] & _). lia.
  - split.
    + repeat (destruct (_ || _) || destruct (_ <=? _));
        repeat (destruct (String.eqb _ _) || destruct (JsString.includes _ _));
        discriminate.
    + intros (_ & r & d & rest & [= <-] & [Hle _] & _). lia.
Qed.

Lemma fallbackResponses_nonempty pick : OpenRouter.fallbackResponses !!! pick <> "".
Proof.
  apply (Forall_vlookup_1 (fun text => text <> "")).
  unfold OpenRouter.fallbackResponses. cbn [vec_to_list].
  repeat constructor; discriminate.
Qed.

(** X10. A provider that refuses a request is reported as unavailable,
    not as a rate limit. When the request passes the limiter and is
    valid, and the provider answers with the status 429, 409, 401, 403
    or one from 500 up, the reply of the endpoint has the status 503,
    the error [AI service error] and one of the canned texts, whatever
    the body of the provider's answer says. *)
Theorem provider_failure_gives_503
    (fetch : list Proxy.ChatMessage -> Chat.JsError + OpenRouter.UpstreamResponse)
    (pick : fin 5) (request : Proxy.Request) (b : Proxy.RequestBody)
    (msgs : list Proxy.ChatMessage) (now : Z) (m : gmap string Proxy.ClientData)
    (response : OpenRouter.UpstreamResponse) :
  fst (Proxy.isRateLimited (Proxy.clientIp request) now m) = false ->
  Proxy.body request = Some b ->
  Proxy.messages b = Some msgs ->
  msgs <> [] ->
  fetch (Proxy.mkMessage "system"
           (OpenRouter.generateContextualPrompt (Proxy.subject b) (Proxy.difficulty b))
         :: skipn (List.length msgs - 15) (map Proxy.normaliseRole msgs))
  = inr response ->
  OpenRouter.status response = 429 \/ OpenRouter.status response = 409
  \/ OpenRouter.status response = 401 \/ OpenRouter.status response = 403
  \/ 500 <= OpenRouter.status response ->
  fst (endpoint true fetch pick request now m)
  = Proxy.mkReply 503 (Some "AI service error")
      (Some (OpenRouter.fallbackResponses !!! pick)).
Proof.
  intros Hpass Hbody Hmsgs Hne Hfetch Hstatus. unfold endpoint.
  rewrite (POST_valid_request _ _ _ _ _ _ _ _ _ Hpass Hbody Hmsgs Hne). cbn [negb].
  unfold OpenRouter.sendChatMessage.
  destruct (skipn (List.length msgs - 15) (map Proxy.normaliseRole msgs))
    as [ | msg context] eqn:Hcontext.
  { exfalso. apply (f_equal (@List.length _)) in Hcontext.
    rewrite length_skipn, length_map in Hcontext. cbn [List.length] in Hcontext.
    destruct msgs; [contradiction | cbn [List.length] in Hcontext; lia]. }
  rewrite Hfetch. unfold OpenRouter.ok.
  assert (Hnot : (200 <=? OpenRouter.status response)
                 && (OpenRouter.status response <=? 299) = false).
  { apply andb_false_iff. destruct (Z.leb_spec (OpenRouter.status response) 299);
      [left; apply Z.leb_gt; lia | now right]. }
  rewrite Hnot. cbn [negb].
  destruct (Z.eqb_spec (OpenRouter.status response) 429);
    [reflexivity | ].
  destruct (Z.eqb_spec (OpenRouter.status response) 409);
    [reflexivity | ].
  cbn [orb].
  destruct (Z.eqb_spec (OpenRouter.status response) 401);
    [reflexivity | ].
  destruct (Z.eqb_spec (OpenRouter.status response) 403);
    [reflexivity | ].
  cbn [orb].
  destruct (Z.leb_spec 500 (OpenRouter.status response)); [reflexivity | lia].
Qed.

Lemma provider_failure_gives_503_witness :
  fst (endpoint true
         (fun _ => inr (OpenRouter.mkUpstream 429 "Too Many Requests"
                          (inr (OpenRouter.mkBody
                                  (Some "rate limit exceeded, too many requests")
                                  None))))
         2%fin
         (Proxy.mkRequest (Some "203.0.113.7")
            (Some (Proxy.mkBody (Some [Proxy.mkMessage "user" "What is 2+2?"])
                     (Some "math") (Some "beginner"))))
         1000 ∅)
  = Proxy.mkReply 503 (Some "AI service error")
      (Some "I apologize for the technical issue I'm having. While I get that sorted out, could you share more details about what you're studying? I want to make sure I can help you as soon as possible!").
Proof.
  refine (provider_failure_gives_503 _ 2%fin
            (Proxy.mkRequest (Some "203.0.113.7")
               (Some (Proxy.mkBody (Some [Proxy.mkMessage "user" "What is 2+2?"])
                        (Some "math") (Some "beginner"))))
            (Proxy.mkBody (Some [Proxy.mkMessage "user" "What is 2+2?"])
               (Some "math") (Some "beginner"))
            [Proxy.mkMessage "user" "What is 2+2?"] 1000 ∅
            (OpenRouter.mkUpstream 429 "Too Many Requests"
               (inr (OpenRouter.mkBody (Some "rate limit exceeded, too many requests")
                       None)))
            _ _ _ _ _ _).
  - reflexivity.
  - reflexivity.
  - reflexivity.
  - discriminate.
  - reflexivity.
  - left. reflexivity.
Defined.

(** X11. Without an API key the provider is not contacted: when the
    request passes the limiter and is valid, the reply has the status
    200 and one of the five canned texts as its message, whatever
    [fetch] would give, and the client reads that text as the
    assistant's answer. *)
Theorem without_api_key_canned_reply
    (fetch : list Proxy.ChatMessage -> Chat.JsError + OpenRouter.UpstreamResponse)
    (pick : fin 5) (request : Proxy.Request) (b : Proxy.RequestBody)
    (msgs : list Proxy.ChatMessage) (now : Z) (m : gmap string Proxy.ClientData) :
  fst (Proxy.isRateLimited (Proxy.clientIp request) now m) = false ->
  Proxy.body request = Some b ->
  Proxy.messages b = Some msgs ->
  msgs <> [] ->
  let reply := fst (endpoint false fetch pick request now m) in
  reply = Proxy.mkReply 200 None (Some (OpenRouter.fallbackResponses !!! pick))
  /\ Chat.readResponse (overHttp reply) = inl (OpenRouter.fallbackResponses !!! pick)
  /\ In (OpenRouter.fallbackResponses !!! pick)
        (vec_to_list OpenRouter.fallbackResponses).
Proof.
  intros Hpass Hbody Hmsgs Hne reply. subst reply. unfold endpoint.
  rewrite (POST_valid_request _ _ _ _ _ _ _ _ _ Hpass Hbody Hmsgs Hne). cbn [negb].
  unfold OpenRouter.getFallbackResponse.
  split; [reflexivity | split].
  - unfold Chat.readResponse, overHttp, Chat.ok. cbn.
    destruct (String.eqb_spec (OpenRouter.fallbackResponses !!! pick) "") as [E | _];
      [now apply fallbackResponses_nonempty in E | reflexivity].
  - apply list_elem_of_In, elem_of_vlookup. now exists pick.
Qed.

Lemma without_api_key_canned_reply_witness :
  Chat.readResponse
    (overHttp
       (fst (endpoint false (fun _ => inl (Chat.mkError "TypeError" "fetch failed")) 0%fin
               (Proxy.mkRequest None
                  (Some (Proxy.mkBody (Some [Proxy.mkMessage "user" "What is 2+2?"])
                           None None)))
               1000 ∅)))
  = inl "I'm having trouble connecting to my learning resources right now, but I'm still here to help! Could you tell me more about what you'd like to learn?".
Proof.
  refine (proj1 (proj2 (without_api_key_canned_reply _ 0%fin
            (Proxy.mkRequest None
               (Some (Proxy.mkBody (Some [Proxy.mkMessage "user" "What is 2+2?"])
                        None None)))
            (Proxy.mkBody (Some [Proxy.mkMessage "user" "What is 2+2?"]) None None)
            [Proxy.mkMessage "user" "What is 2+2?"] 1000 ∅ _ _ _ _))).
  - reflexivity.
  - reflexivity.
  - reflexivity.
  - discriminate.
Defined.

(** X12. What the client makes of a reply of [POST]. Whatever the
    request and the provider, the client reads an answer only from a
    reply with the status 200, and the answer is the message of the
    reply; in every other case the error it raises carries one of six
    fixed texts, so that no text of the provider's errors, and no canned
    text of a 503 reply, reaches the user. *)
Theorem client_reads_proxy_reply
    (apiKeyConfigured : bool)
    (sendChatMessage : list Proxy.ChatMessage -> string -> string + string)
    (generateContextualPrompt : option string -> option string -> string)
    (getFallbackResponse : string -> string)
    (request : Proxy.Request) (now : Z) (m : gmap string Proxy.ClientData) :
  let reply :=
    fst (Proxy.POST apiKeyConfigured sendChatMessage generateContextualPrompt
           getFallbackResponse request now m) in
  match Chat.readResponse (overHttp reply) with
  | inl text =>
      Proxy.status reply = 200 /\ Proxy.reply_message reply = Some text /\ text <> ""
  | inr e =>
      Chat.err_name e = "Error"
      /\ In (Chat.err_message e)
            ["Rate limit exceeded. Please try again later.";
             "Rate limit exceeded. Please try again in a moment.";
             "Valid messages array is required";
             "Internal server error";
             "AI service error";
             "Response missing message content"]
      /\ (Chat.err_message e = "Response missing message content"
          <-> Proxy.status reply = 200)
  end.
Proof.
  cbv zeta. unfold Proxy.POST.
  destruct (Proxy.isRateLimited (Proxy.clientIp request) now m) as [limited m'].
  destruct limited; [vm_compute; intuition discriminate | ].
  cbn [fst].
  destruct (Proxy.body request) as [b | ]; [ | vm_compute; intuition discriminate].
  destruct (Proxy.messages b) as [[ | msg msgs] | ];
    [vm_compute; intuition discriminate | | vm_compute; intuition discriminate].
  assert (Hok : forall text,
             match Chat.readResponse (overHttp (Proxy.mkReply 200 None (Some text))) with
             | inl text' => text' = text /\ text <> ""
             | inr e => e = Chat.mkError "Error" "Response missing message content"
             end).
  { intros text. unfold Chat.readResponse, overHttp, Chat.ok. cbn.
    destruct (String.eqb_spec text "") as [-> | Hne]; cbn; auto. }
  destruct apiKeyConfigured; cbn [negb].
  - destruct (sendChatMessage _ _) as [response | errorMessage].
    + specialize (Hok response).
      destruct (Chat.readResponse _) as [text | e].
      * destruct Hok as [-> Hne]. cbn. auto.
      * subst e. cbn. intuition.
    + destruct (_ || _); vm_compute; intuition discriminate.
  - specialize (Hok (getFallbackResponse (Proxy.lastContent (msg :: msgs)))).
    destruct (Chat.readResponse _) as [text | e].
    + destruct Hok as [-> Hne]. cbn. auto.
    + subst e. cbn. intuition.
Qed.

(* --------------------------------------------------------------------- *)
(** ** The retry loop for any number of retries *)
(* --------------------------------------------------------------------- *)

Lemma fetches_cons_fetch attempt body events :
  fetches (Chat.EvFetch attempt body :: events) = S (fetches events).
Proof. reflexivity. Qed.

Lemma fetches_cons_delay ms events :
  fetches (Chat.EvDelay ms :: events) = fetches events.
Proof. reflexivity. Qed.

Lemma delays_cons_fetch attempt body events :
  delays (Chat.EvFetch attempt body :: events) = delays events.
Proof. reflexivity. Qed.

Lemma delays_cons_delay ms events :
  delays (Chat.EvDelay ms :: events) = ms :: delays events.
Proof. reflexivity. Qed.

(** The loop from [attempts] on, when the call made at [attempts = k]
    is the first that resolves. *)
Lemma retryLoop_resolves requestFn body maxRetries k r :
  (k <= maxRetries)%nat ->
  requestFn k = Chat.Resolved r ->
  forall remaining attempts lastError,
    (attempts + remaining = S maxRetries)%nat ->
    (attempts <= k)%nat ->
    (forall i, (attempts <= i < k)%nat -> exists e, requestFn i = Chat.Rejected e) ->
    let result := Chat.retryLoop requestFn body maxRetries remaining attempts lastError in
    fst result = inl r
    /\ fetches (snd result) = S (k - attempts)
    /\ delays (snd result)
       = map (fun i => Chat.RETRY_DELAY * 2 ^ Z.of_nat i) (seq attempts (k - attempts)).
Proof.
  intros Hk Hres. induction remaining as [ | remaining IH];
    intros attempts lastError Hsum Hle Hrej; [lia | ].
  cbn [Chat.retryLoop]. cbv zeta.
  destruct (Nat.eq_dec attempts k) as [-> | Hne].
  - rewrite Hres. cbn [fst snd]. rewrite Nat.sub_diag. repeat split.
  - destruct (Hrej attempts ltac:(lia)) as [e He]. rewrite He.
    specialize (IH (S attempts) (Some (Chat.toError e)) ltac:(lia) ltac:(lia)
                   ltac:(intros i Hi; apply Hrej; lia)).
    cbv zeta in IH.
    destruct (Chat.retryLoop requestFn body maxRetries remaining (S attempts) _)
      as [result events].
    cbn [fst snd] in *. destruct IH as (IHr & IHf & IHd).
    assert (Hwait : (S attempts <=? maxRetries)%nat = true) by (apply Nat.leb_le; lia).
    rewrite Hwait. cbn [app].
    rewrite fetches_cons_fetch, fetches_cons_delay, delays_cons_fetch, delays_cons_delay.
    rewrite IHf, IHd. split; [exact IHr | split; [lia | ]].
    replace (k - attempts)%nat with (S (k - S attempts)) by lia.
    rewrite <- cons_seq. cbn [map]. do 3 f_equal. lia.
Qed.

(** The loop from [attempts] on, when every call is rejected. *)
Lemma retryLoop_rejected requestFn body maxRetries :
  (forall i, (i <= maxRetries)%nat -> exists e, requestFn i = Chat.Rejected e) ->
  forall remaining attempts lastError,
    (attempts + remaining = S maxRetries)%nat ->
    let result := Chat.retryLoop requestFn body maxRetries remaining attempts lastError in
    fetches (snd result) = remaining
    /\ delays (snd result)
       = map (fun i => Chat.RETRY_DELAY * 2 ^ Z.of_nat i) (seq attempts (remaining - 1))
    /\ fst result
       = inr (match remaining with
              | O => default (Chat.mkError "Error" "Failed after multiple attempts")
                             lastError
              | S _ => match requestFn maxRetries with
                       | Chat.Rejected e => Chat.toError e
                       | Chat.Resolved _ =>
                           Chat.mkError "Error" "Failed after multiple attempts"
                       end
              end).
Proof.
  intros Hall. induction remaining as [ | remaining IH]; intros attempts lastError Hsum.
  - cbn. repeat split.
  - cbn [Chat.retryLoop]. cbv zeta.
    destruct (Hall attempts ltac:(lia)) as [e He]. rewrite He.
    specialize (IH (S attempts) (Some (Chat.toError e)) ltac:(lia)). cbv zeta in IH.
    destruct (Chat.retryLoop requestFn body maxRetries remaining (S attempts) _)
      as [result events].
    cbn [fst snd] in *. destruct IH as (IHf & IHd & IHr).
    destruct remaining as [ | remaining].
    + assert (attempts = maxRetries) as -> by lia.
      assert (Hwait : (S maxRetries <=? maxRetries)%nat = false)
        by (apply Nat.leb_gt; lia).
      rewrite Hwait, He. cbn [app].
      rewrite fetches_cons_fetch, delays_cons_fetch, IHf, IHd, IHr. repeat split.
    + assert (Hwait : (S attempts <=? maxRetries)%nat = true)
        by (apply Nat.leb_le; lia).
      rewrite Hwait. cbn [app].
      rewrite fetches_cons_fetch, fetches_cons_delay, delays_cons_fetch,
        delays_cons_delay, IHf, IHd, IHr.
      split; [reflexivity | split; [ | reflexivity]].
      cbn [Nat.sub]. rewrite Nat.sub_0_r, <- cons_seq. cbn [map]. do 3 f_equal. lia.
Qed.

Lemma total_backoff n start :
  fold_right Z.add 0 (map (fun i => Chat.RETRY_DELAY * 2 ^ Z.of_nat i) (seq start n))
  = Chat.RETRY_DELAY * 2 ^ Z.of_nat start * (2 ^ Z.of_nat n - 1).
Proof.
  revert start. induction n as [ | n IH]; intros start.
  - cbn. lia.
  - cbn [seq map fold_right]. rewrite IH.
    rewrite !Nat2Z.inj_succ, !Z.pow_succ_r by lia. lia.
Qed.

(** X13. [retryApiCall] with any number [maxRetries] of retries. When
    the call of [requestFn] number [k <= maxRetries] is the first that
    resolves, the loop returns its response after [k + 1] calls, having
    waited 2000, 4000, ..., [2000 * 2^(k-1)] ms between them. When all
    [maxRetries + 1] calls are rejected, it makes exactly that many,
    waits [2000 * (2^maxRetries - 1)] ms in all, does not wait after the
    last one, and throws the error of the last call. *)
Theorem retry_backoff_doubles
    (requestFn : nat -> Chat.FetchResult) (body : list Message.t) (maxRetries : nat) :
  let result := fst (Chat.retryApiCall requestFn body maxRetries) in
  let events := snd (Chat.retryApiCall requestFn body maxRetries) in
  (forall k r,
      (k <= maxRetries)%nat ->
      (forall i, (i < k)%nat -> exists e, requestFn i = Chat.Rejected e) ->
      requestFn k = Chat.Resolved r ->
      result = inl r
      /\ fetches events = S k
      /\ delays events = map (fun i => 2000 * 2 ^ Z.of_nat i) (seq 0 k)
      /\ totalDelay events = 2000 * (2 ^ Z.of_nat k - 1))
  /\ ((forall i, (i <= maxRetries)%nat -> exists e, requestFn i = Chat.Rejected e) ->
      fetches events = S maxRetries
      /\ delays events = map (fun i => 2000 * 2 ^ Z.of_nat i) (seq 0 maxRetries)
      /\ totalDelay events = 2000 * (2 ^ Z.of_nat maxRetries - 1)
      /\ exists e, requestFn maxRetries = Chat.Rejected e
                   /\ result = inr (Chat.toError e)).
Proof.
  cbv zeta. unfold Chat.retryApiCall, totalDelay. split.
  - intros k r Hk Hrej Hres.
    destruct (retryLoop_resolves requestFn body maxRetries k r Hk Hres
                (S maxRetries) 0%nat None ltac:(lia) ltac:(lia)
                ltac:(intros i Hi; apply Hrej; lia)) as (Hr & Hf & Hd).
    rewrite Nat.sub_0_r in Hf, Hd. rewrite Hr, Hf, Hd.
    repeat split. rewrite total_backoff. unfold Chat.RETRY_DELAY. cbn [Z.of_nat]. lia.
  - intros Hall.
    destruct (retryLoop_rejected requestFn body maxRetries Hall
                (S maxRetries) 0%nat None ltac:(lia)) as (Hf & Hd & Hr).
    cbn [Nat.sub] in Hd. rewrite Nat.sub_0_r in Hd. rewrite Hf, Hd, Hr.
    split; [reflexivity | split; [reflexivity | split]].
    + rewrite total_backoff. unfold Chat.RETRY_DELAY. cbn [Z.of_nat]. lia.
    + destruct (Hall maxRetries ltac:(lia)) as [e He]. exists e. now rewrite He.
Qed.

(* --------------------------------------------------------------------- *)
(** ** What a send does and does not touch *)
(* --------------------------------------------------------------------- *)

Lemma retryApiCall_fetches_once requestFn body maxRetries :
  (1 <= fetches (snd (Chat.retryApiCall requestFn body maxRetries)))%nat.
Proof.
  unfold Chat.retryApiCall. cbn [Chat.retryLoop]. cbv zeta.
  destruct (requestFn 0%nat); [cbn; lia | ].
  destruct (Chat.retryLoop _ _ _ _ _ _) as [r events]. cbn [snd].
  rewrite fetches_cons_fetch. lia.
Qed.

Lemma retryLoop_body requestFn body maxRetries remaining :
  forall attempts lastError attempt body',
    In (Chat.EvFetch attempt body')
       (snd (Chat.retryLoop requestFn body maxRetries remaining attempts lastError)) ->
    body' = body.
Proof.
  induction remaining as [ | remaining IH]; intros attempts lastError attempt body' Hin.
  - destruct Hin.
  - cbn [Chat.retryLoop] in Hin. cbv zeta in Hin.
    destruct (requestFn attempts).
    + cbn in Hin. destruct Hin as [[= _ <-] | []]. reflexivity.
    + specialize (IH (S attempts) (Some (Chat.toError e)) attempt body').
      destruct (Chat.retryLoop _ _ _ _ _ _) as [r events]. cbn [snd] in *.
      destruct Hin as [[= _ <-] | Hin]; [reflexivity | ].
      apply in_app_or in Hin as [Hin | Hin]; [ | now apply IH].
      destruct (_ <=? _)%nat; [ | destruct Hin].
      destruct Hin as [Hin | []]. discriminate Hin.
Qed.

Lemma resolveSession_target env st subject difficulty :
  fst (fst (fst (Chat.resolveSession env st subject difficulty))) = targetOf env st
  /\ snd (fst (fst (Chat.resolveSession env st subject difficulty))) = conversationOf st
  /\ forall attempt body,
       ~ In (Chat.EvFetch attempt body)
            (snd (Chat.resolveSession env st subject difficulty)).
Proof.
  unfold Chat.resolveSession, targetOf, conversationOf.
  destruct (Chat.currentSession _ _); cbn [fst snd]; repeat split; auto.
  intros attempt body [H | [H | []]]; discriminate H.
Qed.

(** X14. A text of white space only is not sent: [sendMessage] returns
    at once, with the state as it was, no write and no request,
    exactly when every character of the text is white space; any other
    text leads to at least one call of [fetch]. *)
Theorem blank_message_is_not_sent
    (env : Chat.Env) (requestFn : nat -> Chat.FetchResult) (st : Chat.State)
    (content : string) (subject : option string) (difficulty : option DifficultyLevel) :
  (isBlank content
   <-> Chat.sendMessage env requestFn st content subject difficulty = (st, []))
  /\ (~ isBlank content ->
      (1 <= fetches (snd (Chat.sendMessage env requestFn st content subject difficulty)))%nat).
Proof.
  assert (Hsent : JsString.trim content <> "" ->
            (1 <= fetches (snd (Chat.sendMessage env requestFn st content
                                  subject difficulty)))%nat).
  { intros Htrim. unfold Chat.sendMessage.
    destruct (String.eqb_spec (JsString.trim content) "") as [E | _]; [contradiction | ].
    destruct (Chat.resolveSession env st subject difficulty)
      as [[[sid msgs] st1] ev1].
    unfold Chat.request.
    pose proof (retryApiCall_fetches_once requestFn
                  (msgs ++ [Chat.userMessageOf env content]) Chat.MAX_RETRIES) as Hone.
    destruct (Chat.retryApiCall _ _ _) as [result events3]. cbn [snd] in Hone.
    destruct (match result with
              | inl response => Chat.readResponse response
              | inr e => inr e
              end); cbn [snd]; rewrite !fetches_app; lia. }
  split; [split | ].
  - intros Hblank. apply trim_blank in Hblank. unfold Chat.sendMessage.
    now rewrite Hblank.
  - intros E. apply trim_blank.
    destruct (String.eqb_spec (JsString.trim content) "") as [Ht | Ht]; [exact Ht | ].
    apply Hsent in Ht. rewrite E in Ht. cbn in Ht. lia.
  - intros Hnot. apply Hsent. intros E. apply Hnot. now apply trim_blank.
Qed.

(** X15. Every attempt of a send carries the same body: the messages
    of the current session as the render holds them, followed by the
    new user message, whose text is the trimmed input, is not empty
    and has no white space at either end. *)
Theorem every_attempt_sends_the_conversation
    (env : Chat.Env) (requestFn : nat -> Chat.FetchResult) (st : Chat.State)
    (content : string) (subject : option string) (difficulty : option DifficultyLevel)
    (attempt : nat) (body : list Message.t) :
  In (Chat.EvFetch attempt body)
     (snd (Chat.sendMessage env requestFn st content subject difficulty)) ->
  let userMessage := Chat.userMessageOf env content in
  body = conversationOf st ++ [userMessage]
  /\ Message.role userMessage = user
  /\ Message.content userMessage <> ""
  /\ JsString.trim (Message.content userMessage) = Message.content userMessage.
Proof.
  intros Hin userMessage. subst userMessage. unfold Chat.sendMessage in Hin.
  destruct (String.eqb_spec (JsString.trim content) "") as [E | Htrim];
    [destruct Hin | ].
  destruct (resolveSession_target env st subject difficulty) as (_ & Hmsgs & Hnone).
  destruct (Chat.resolveSession env st subject difficulty)
    as [[[sid msgs] st1] ev1].
  cbn [fst snd] in Hmsgs, Hnone. subst msgs.
  split; [ | split; [reflexivity | split; [exact Htrim | apply trim_idempotent]]].
  unfold Chat.request, Chat.retryApiCall in Hin.
  pose proof (retryLoop_body requestFn
                (conversationOf st ++ [Chat.userMessageOf env content])
                Chat.MAX_RETRIES (S Chat.MAX_RETRIES) 0%nat None attempt body) as Hbody.
  destruct (Chat.retryLoop _ _ _ _ _ _) as [result events3]. cbn [snd] in Hbody.
  assert (Hcases : In (Chat.EvFetch attempt body) events3).
  { destruct (match result with
              | inl response => Chat.readResponse response
              | inr e => inr e
              end); cbn [snd] in Hin;
      (apply in_app_or in Hin as [Hin | Hin]; [now apply Hnone in Hin | ]);
      (apply in_app_or in Hin as [Hin | Hin];
       [destruct Hin as [Hin | []]; discriminate Hin | ]);
      (apply in_app_or in Hin as [Hin | Hin]; [exact Hin | ]);
      destruct Hin as [Hin | []]; discriminate Hin. }
  now apply Hbody.
Qed.

Lemma every_attempt_sends_the_conversation_witness :
  [Samples.greeting; Samples.answer; Chat.userMessageOf Samples.env "  What is 2+2? "]
  = conversationOf (Chat.mkState Samples.collection (Some "s2") false None)
    ++ [Message.mk "m-new" "What is 2+2?" user 2000 None None].
Proof.
  refine (proj1 (every_attempt_sends_the_conversation Samples.env Samples.offline
                   (Chat.mkState Samples.collection (Some "s2") false None)
                   "  What is 2+2? " None None 2%nat
                   [Samples.greeting; Samples.answer;
                    Chat.userMessageOf Samples.env "  What is 2+2? "] _)).
  vm_compute. do 5 right. left. reflexivity.
Defined.

Lemma setSessions_changed captured updater live :
  updater captured <> captured -> Chat.setSessions captured updater live = updater captured.
Proof.
  intros Hne. unfold Chat.setSessions.
  now rewrite (nextStoredValue_changed Lawful_sessions) by exact Hne.
Qed.

Lemma setSessions_same captured updater live :
  updater captured = captured -> Chat.setSessions captured updater live = live.
Proof.
  intros E. unfold Chat.setSessions.
  now rewrite (nextStoredValue_same captured (Updater updater)) by exact E.
Qed.

Lemma setSessions_cases captured updater live :
  (updater captured <> captured
   /\ Chat.setSessions captured updater live = updater captured)
  \/ (updater captured = captured /\ Chat.setSessions captured updater live = live).
Proof.
  destruct (decide (JSON_stringify (updater captured) = JSON_stringify captured)) as [E | Hne].
  - right. apply (JSON_stringify_inj Lawful_sessions) in E.
    split; [exact E | now apply setSessions_same].
  - left. assert (Hc : updater captured <> captured) by congruence.
    split; [exact Hc | now apply setSessions_changed].
Qed.

Lemma others_map sessionId (f : ChatSession.t -> ChatSession.t) (l : list ChatSession.t) :
  (forall s, String.eqb (ChatSession.id s) sessionId = false -> f s = s) ->
  (forall s, String.eqb (ChatSession.id s) sessionId = true ->
             String.eqb (ChatSession.id (f s)) sessionId = true) ->
  others sessionId (map f l) = others sessionId l.
Proof.
  intros Hother Htarget. unfold others.
  induction l as [ | s l IH]; [reflexivity | ].
  cbn [map List.filter].
  destruct (String.eqb (ChatSession.id s) sessionId) eqn:Hs.
  - rewrite (Htarget s Hs). cbn [negb]. exact IH.
  - rewrite (Hother s Hs), Hs. cbn [negb]. now rewrite IH.
Qed.

Lemma others_withReply sessionId userMessage reply now (l : list ChatSession.t) :
  others sessionId (map (Chat.withReply sessionId userMessage reply now) l)
  = others sessionId l.
Proof.
  apply others_map; intros s Hs; unfold Chat.withReply; rewrite Hs;
    [reflexivity | exact Hs].
Qed.

Lemma others_appendUserMessage sessionId content userMessage timestamp subject
    difficulty (l : list ChatSession.t) :
  others sessionId
    (Chat.appendUserMessage sessionId content userMessage timestamp subject difficulty l)
  = others sessionId l.
Proof.
  unfold Chat.appendUserMessage. destruct (Chat.sessionExists sessionId l); cbn [negb].
  - apply others_map; intros s Hs; rewrite Hs; [reflexivity | exact Hs].
  - unfold others. cbn [List.filter ChatSession.id]. now rewrite String.eqb_refl.
Qed.

Lemma others_setSessions sessionId captured updater live :
  others sessionId (updater captured) = others sessionId captured ->
  others sessionId live = others sessionId captured ->
  others sessionId (Chat.setSessions captured updater live) = others sessionId captured.
Proof.
  intros Hu Hlive.
  destruct (setSessions_cases captured updater live) as [[_ ->] | [_ ->]]; assumption.
Qed.

(** X16. A send changes one session only. Whatever the outcome of the
    request, the sessions other than the one the send goes to are,
    when the call has returned, the same and in the same order as in
    the render the call started from. *)
Theorem send_leaves_other_sessions
    (env : Chat.Env) (requestFn : nat -> Chat.FetchResult) (st : Chat.State)
    (content : string) (subject : option string) (difficulty : option DifficultyLevel) :
  others (targetOf env st)
    (Chat.sessions (fst (Chat.sendMessage env requestFn st content subject difficulty)))
  = others (targetOf env st) (Chat.sessions st).
Proof.
  unfold Chat.sendMessage.
  destruct (String.eqb (JsString.trim content) ""); [reflexivity | ].
  assert (Hresolve :
            fst (fst (fst (Chat.resolveSession env st subject difficulty)))
            = targetOf env st
            /\ others (targetOf env st)
                 (Chat.sessions (snd (fst (Chat.resolveSession env st subject difficulty))))
               = others (targetOf env st) (Chat.sessions st)).
  { unfold Chat.resolveSession, targetOf.
    destruct (Chat.currentSession _ _); cbn [fst snd Chat.sessions];
      (split; [reflexivity | ]); [reflexivity | ].
    apply others_setSessions; [ | reflexivity].
    unfold Chat.prependSession, Chat.createNewSession, others.
    cbn [List.filter ChatSession.id]. now rewrite String.eqb_refl. }
  destruct (Chat.resolveSession env st subject difficulty)
    as [[[sid msgs] st1] ev1].
  cbn [fst snd] in Hresolve. destruct Hresolve as [-> Hst1].
  assert (Hlive2 :
            others (targetOf env st)
              (Chat.setSessions (Chat.sessions st)
                 (Chat.appendUserMessage (targetOf env st) content
                    (Chat.userMessageOf env content) (Chat.timestamp env)
                    subject difficulty)
                 (Chat.sessions st1))
            = others (targetOf env st) (Chat.sessions st)).
  { apply others_setSessions; [apply others_appendUserMessage | exact Hst1]. }
  destruct (Chat.request requestFn (msgs ++ [Chat.userMessageOf env content]))
    as [[text | apiError] events3]; cbn [fst Chat.sessions];
    (apply others_setSessions; [ | exact Hlive2]).
  - unfold Chat.appendAssistantMessage.
    destruct (Chat.sessionExists _ _); cbn [negb]; [apply others_withReply | reflexivity].
  - apply others_withReply.
Qed.

Lemma ids_map (f : ChatSession.t -> ChatSession.t) (l : list ChatSession.t) :
  (forall s, ChatSession.id (f s) = ChatSession.id s) ->
  map ChatSession.id (map f l) = map ChatSession.id l.
Proof. intros Hid. rewrite map_map. now apply map_ext. Qed.

Lemma withReply_id sessionId userMessage reply now s :
  ChatSession.id (Chat.withReply sessionId userMessage reply now s) = ChatSession.id s.
Proof. unfold Chat.withReply. now destruct (String.eqb _ _). Qed.

Lemma sessionExists_ids sessionId (l : list ChatSession.t) :
  Chat.sessionExists sessionId l = true <-> In sessionId (map ChatSession.id l).
Proof.
  unfold Chat.sessionExists. rewrite existsb_exists, in_map_iff. split.
  - intros (s & Hin & Heq). apply String.eqb_eq in Heq. eauto.
  - intros (s & Heq & Hin). exists s. split; [exact Hin | now apply String.eqb_eq].
Qed.

Lemma appendUserMessage_ids sessionId content userMessage timestamp subject difficulty
    (l : list ChatSession.t) :
  map ChatSession.id
    (Chat.appendUserMessage sessionId content userMessage timestamp subject difficulty l)
  = if Chat.sessionExists sessionId l then map ChatSession.id l
    else sessionId :: map ChatSession.id l.
Proof.
  unfold Chat.appendUserMessage. destruct (Chat.sessionExists sessionId l); cbn [negb].
  - apply ids_map. intros s. now destruct (String.eqb _ _).
  - reflexivity.
Qed.

(** X17. A send keeps the ids of the sessions distinct, also when the
    id drawn for a new session is one already in use, and after a send
    of a text that is not blank the collection holds the session the
    send went to. *)
Theorem send_keeps_session_ids_distinct
    (env : Chat.Env) (requestFn : nat -> Chat.FetchResult) (st : Chat.State)
    (content : string) (subject : option string) (difficulty : option DifficultyLevel) :
  List.NoDup (map ChatSession.id (Chat.sessions st)) ->
  let st' := fst (Chat.sendMessage env requestFn st content subject difficulty) in
  List.NoDup (map ChatSession.id (Chat.sessions st'))
  /\ (~ isBlank content ->
      Chat.sessionExists (targetOf env st) (Chat.sessions st') = true).
Proof.
  intros Hnodup st'. subst st'. unfold Chat.sendMessage.
  destruct (String.eqb_spec (JsString.trim content) "") as [E | Htrim].
  { split; [exact Hnodup | ]. intros Hnot. exfalso. apply Hnot. now apply trim_blank. }
  destruct (resolveSession_target env st subject difficulty) as (Hsid & _ & _).
  destruct (Chat.resolveSession env st subject difficulty)
    as [[[sid msgs] st1] ev1].
  cbn [fst] in Hsid. subst sid.
  set (sid := targetOf env st). set (captured := Chat.sessions st) in *.
  set (append := Chat.appendUserMessage sid content (Chat.userMessageOf env content)
                   (Chat.timestamp env) subject difficulty).
  assert (Hlive2 : Chat.setSessions captured append (Chat.sessions st1) = append captured).
  { apply setSessions_changed. apply appendUserMessage_changes. }
  rewrite Hlive2.
  assert (Happend : List.NoDup (map ChatSession.id (append captured))
                    /\ Chat.sessionExists sid (append captured) = true).
  { subst append. split.
    - rewrite appendUserMessage_ids.
      destruct (Chat.sessionExists sid captured) eqn:Hex; [exact Hnodup | ].
      constructor; [ | exact Hnodup].
      intros Hin. apply sessionExists_ids in Hin. congruence.
    - apply sessionExists_ids. rewrite appendUserMessage_ids.
      destruct (Chat.sessionExists sid captured) eqn:Hex.
      + now apply sessionExists_ids.
      + now left. }
  assert (Hfinish : forall finish,
             (Chat.sessionExists sid captured = false -> finish captured = captured) ->
             map ChatSession.id (finish captured) = map ChatSession.id captured ->
             List.NoDup (map ChatSession.id
                           (Chat.setSessions captured finish (append captured)))
             /\ Chat.sessionExists sid
                  (Chat.setSessions captured finish (append captured)) = true).
  { intros finish Hfresh Hids.
    destruct (setSessions_cases captured finish (append captured))
      as [[Hchanged ->] | [_ ->]]; [ | exact Happend].
    rewrite Hids. split; [exact Hnodup | ].
    destruct (Chat.sessionExists sid captured) eqn:Hex.
    - apply sessionExists_ids. rewrite Hids. now apply sessionExists_ids.
    - exfalso. apply Hchanged. now apply Hfresh. }
  destruct (Chat.request requestFn (msgs ++ [Chat.userMessageOf env content]))
    as [[text | apiError] events3]; cbn [fst Chat.sessions].
  - destruct (Hfinish (Chat.appendAssistantMessage sid (Chat.userMessageOf env content)
                         (Chat.assistantMessageOf env text) (Chat.updateTimestamp env)))
      as [Hn Hex].
    + intros Hex. unfold Chat.appendAssistantMessage. now rewrite Hex.
    + unfold Chat.appendAssistantMessage.
      destruct (Chat.sessionExists sid captured); cbn [negb]; [ | reflexivity].
      apply ids_map. apply withReply_id.
    + split; [exact Hn | intros _; exact Hex].
  - destruct (Hfinish (Chat.appendErrorMessage sid (Chat.userMessageOf env content)
                         (Chat.errorMessageOf env) (Chat.updateTimestamp env)))
      as [Hn Hex].
    + intros Hex. unfold Chat.appendErrorMessage. now apply withReply_other.
    + unfold Chat.appendErrorMessage. apply ids_map. apply withReply_id.
    + split; [exact Hn | intros _; exact Hex].
Qed.

Lemma send_keeps_session_ids_distinct_witness :
  map ChatSession.id
    (Chat.sessions
       (fst (Chat.sendMessage Samples.env (Samples.replies "4")
               (Chat.mkState Samples.collection None false None)
               "What is 2+2?" None None)))
  = ["s-new"; "s1"; "s2"]
  /\ List.NoDup
       (map ChatSession.id
          (Chat.sessions
             (fst (Chat.sendMessage Samples.env (Samples.replies "4")
                     (Chat.mkState Samples.collection None false None)
                     "What is 2+2?" None None)))).
Proof.
  split; [vm_compute; reflexivity | ].
  refine (proj1 (send_keeps_session_ids_distinct Samples.env (Samples.replies "4")
                   (Chat.mkState Samples.collection None false None)
                   "What is 2+2?" None None _)).
  cbn. repeat constructor; cbn; intuition discriminate.
Defined.

(* --------------------------------------------------------------------- *)
(** ** Bookmarks, titles, deleting and loading a session *)
(* --------------------------------------------------------------------- *)

Lemma setSessions_same_render captured updater :
  Chat.setSessions captured updater captured = updater captured.
Proof.
  destruct (setSessions_cases captured updater captured) as [[_ ->] | [E ->]];
    [reflexivity | now rewrite E].
Qed.

(** X18. [toggleMessageBookmark] changes nothing but bookmark flags:
    it flips the flag of every message with the given id, in every
    session, and leaves the time of the last update of the sessions as
    it was; a second call restores every flag. *)
Theorem toggleMessageBookmark_flips_flags
    (messageId : string) (prev : list ChatSession.t) :
  withoutBookmarks (Chat.toggleMessageBookmark messageId prev) = withoutBookmarks prev
  /\ bookmarks (Chat.toggleMessageBookmark messageId
                  (Chat.toggleMessageBookmark messageId prev))
     = bookmarks prev
  /\ (messageId <> "" ->
      bookmarks (Chat.toggleMessageBookmark messageId prev)
      = map (fun session =>
               map (fun message =>
                      if String.eqb (Message.id message) messageId
                      then negb (truthy_bool (Message.isBookmarked message))
                      else truthy_bool (Message.isBookmarked message))
                   (ChatSession.messages session))
            prev).
Proof.
  unfold Chat.toggleMessageBookmark, withoutBookmarks, bookmarks.
  destruct (String.eqb_spec messageId "") as [-> | Hne].
  { repeat split; auto. intros H. contradiction. }
  split; [ | split].
  - rewrite map_map. apply map_ext. intros session. cbn.
    f_equal. rewrite map_map. apply map_ext. intros message.
    now destruct (String.eqb _ _).
  - rewrite !map_map. apply map_ext. intros session. cbn.
    rewrite !map_map. apply map_ext. intros message.
    destruct (String.eqb (Message.id message) messageId) eqn:Hid; cbn.
    + rewrite Hid. cbn. now destruct (truthy_bool _).
    + now rewrite Hid.
  - intros _. rewrite map_map. apply map_ext. intros session. cbn.
    rewrite map_map. apply map_ext. intros message.
    now destruct (String.eqb _ _).
Qed.

Lemma find_others sessionId cid (l : list ChatSession.t) :
  cid <> sessionId ->
  List.find (fun s => String.eqb (ChatSession.id s) cid) (others sessionId l)
  = List.find (fun s => String.eqb (ChatSession.id s) cid) l.
Proof.
  intros Hne. unfold others. induction l as [ | s l IH]; [reflexivity | ].
  cbn [List.filter List.find].
  destruct (String.eqb_spec (ChatSession.id s) sessionId) as [Hs | Hs]; cbn [negb].
  - destruct (String.eqb_spec (ChatSession.id s) cid) as [Hc | _]; [congruence | exact IH].
  - cbn [List.find].
    destruct (String.eqb (ChatSession.id s) cid); [reflexivity | exact IH].
Qed.

Lemma sessionExists_others sessionId (l : list ChatSession.t) :
  Chat.sessionExists sessionId (others sessionId l) = false.
Proof.
  unfold Chat.sessionExists, others. induction l as [ | s l IH]; [reflexivity | ].
  cbn [List.filter].
  destruct (String.eqb (ChatSession.id s) sessionId) eqn:Hs; cbn [negb existsb];
    [exact IH | now rewrite Hs, IH].
Qed.

(** X19. Deleting a session removes every session with that id and
    keeps the others, in order. When the deleted session was the
    current one there is no current session afterwards; otherwise the
    current session is the one it was. Loading the deleted id
    afterwards changes nothing and reports that the session was not
    found. *)
Theorem deleted_session_is_gone (sessionId : string) (st : Chat.State) :
  sessionId <> "" ->
  let st' := Chat.afterDeleteSession sessionId st in
  Chat.sessions st' = others sessionId (Chat.sessions st)
  /\ Chat.sessionExists sessionId (Chat.sessions st') = false
  /\ Chat.currentSession (Chat.sessions st') (Chat.currentSessionId st')
     = (if bool_decide (Chat.currentSessionId st = Some sessionId) then None
        else Chat.currentSession (Chat.sessions st) (Chat.currentSessionId st))
  /\ Chat.loadSession sessionId st'
     = Chat.mkState (Chat.sessions st') (Chat.currentSessionId st') (Chat.isLoading st')
         (Some "Session not found").
Proof.
  intros Hne st'. subst st'. unfold Chat.afterDeleteSession.
  destruct (String.eqb_spec sessionId "") as [E | _]; [contradiction | ].
  cbn [Chat.sessions Chat.currentSessionId Chat.isLoading].
  rewrite setSessions_same_render.
  assert (Hdel : Chat.deleteSession sessionId (Chat.sessions st)
                 = others sessionId (Chat.sessions st)).
  { unfold Chat.deleteSession.
    destruct (String.eqb_spec sessionId "") as [E | _]; [contradiction | reflexivity]. }
  rewrite Hdel. split; [reflexivity | split; [apply sessionExists_others | split]].
  - destruct (bool_decide_reflect (Chat.currentSessionId st = Some sessionId)) as [Hc | Hc];
      [reflexivity | ].
    unfold Chat.currentSession. destruct (Chat.currentSessionId st) as [cid | ];
      [ | reflexivity].
    destruct (String.eqb cid ""); [reflexivity | ].
    apply find_others. congruence.
  - unfold Chat.loadSession.
    destruct (String.eqb_spec sessionId "") as [E | _]; [contradiction | ].
    cbn [Chat.sessions Chat.currentSessionId Chat.isLoading Chat.error].
    now rewrite sessionExists_others.
Qed.

Lemma deleted_session_is_gone_witness :
  let st := Chat.mkState Samples.collection (Some "s2") false None in
  Chat.sessions (Chat.afterDeleteSession "s2" st) = [Samples.emptySession]
  /\ Chat.currentSession (Chat.sessions (Chat.afterDeleteSession "s2" st))
       (Chat.currentSessionId (Chat.afterDeleteSession "s2" st))
     = None.
Proof.
  cbv zeta.
  destruct (deleted_session_is_gone "s2"
              (Chat.mkState Samples.collection (Some "s2") false None)
              ltac:(discriminate)) as (Hsessions & _ & Hcurrent & _).
  split; [exact Hsessions | exact Hcurrent].
Defined.

(** X20. Loading a session that the collection holds makes the first
    session with that id the current one and changes nothing else;
    loading an id the collection does not hold keeps the current
    session and sets the error [Session not found]. *)
Theorem loadSession_selects (sessionId : string) (st : Chat.State) :
  sessionId <> "" ->
  let st' := Chat.loadSession sessionId st in
  Chat.sessions st' = Chat.sessions st
  /\ Chat.isLoading st' = Chat.isLoading st
  /\ match List.find (fun s => String.eqb (ChatSession.id s) sessionId)
                     (Chat.sessions st) with
     | Some session =>
         Chat.currentSession (Chat.sessions st') (Chat.currentSessionId st')
         = Some session
         /\ ChatSession.id session = sessionId
         /\ Chat.error st' = Chat.error st
     | None =>
         Chat.currentSessionId st' = Chat.currentSessionId st
         /\ Chat.error st' = Some "Session not found"
     end.
Proof.
  intros Hne st'. subst st'. unfold Chat.loadSession.
  destruct (String.eqb_spec sessionId "") as [E | _]; [contradiction | ].
  destruct (List.find _ (Chat.sessions st)) as [session | ] eqn:Hfind.
  - assert (Hex : Chat.sessionExists sessionId (Chat.sessions st) = true).
    { apply find_some in Hfind as [Hin Heq]. unfold Chat.sessionExists.
      apply existsb_exists. now exists session. }
    rewrite Hex. cbn [Chat.sessions Chat.currentSessionId Chat.isLoading Chat.error].
    repeat split. unfold Chat.currentSession.
    + destruct (String.eqb_spec sessionId "") as [E | _]; [contradiction | exact Hfind].
    + apply find_some in Hfind as [_ Heq]. now apply String.eqb_eq.
  - assert (Hex : Chat.sessionExists sessionId (Chat.sessions st) = false).
    { unfold Chat.sessionExists. apply not_true_is_false. intros Hex.
      apply existsb_exists in Hex as (s & Hin & Heq).
      pose proof (find_none _ _ Hfind _ Hin) as Hno. cbn beta in Hno. congruence. }
    rewrite Hex. repeat split.
Qed.

Lemma loadSession_selects_witness :
  Chat.currentSession
    (Chat.sessions (Chat.loadSession "s2" (Chat.mkState Samples.collection None false None)))
    (Chat.currentSessionId
       (Chat.loadSession "s2" (Chat.mkState Samples.collection None false None)))
  = Some Samples.talk.
Proof.
  pose proof (loadSession_selects "s2" (Chat.mkState Samples.collection None false None)
                ltac:(discriminate)) as (_ & _ & Hfind).
  exact (proj1 Hfind).
Defined.

(** X21. [updateSessionTitle] stores the trimmed title: every session
    with the given id gets a title that is not empty and has no white
    space at either end, and the time of the call as its last update;
    the ids and the messages of all sessions, and the other sessions
    as a whole, stay as they were. With an empty id or a blank title
    the call changes nothing. *)
Theorem updateSessionTitle_stores_trimmed_title
    (sessionId newTitle : string) (now : Z) (prev : list ChatSession.t) :
  let next := Chat.updateSessionTitle sessionId newTitle now prev in
  (sessionId = "" \/ isBlank newTitle -> next = prev)
  /\ others sessionId next = others sessionId prev
  /\ map ChatSession.id next = map ChatSession.id prev
  /\ map ChatSession.messages next = map ChatSession.messages prev
  /\ (sessionId <> "" -> ~ isBlank newTitle ->
      forall session,
        In session next -> ChatSession.id session = sessionId ->
        ChatSession.title session = JsString.trim newTitle
        /\ ChatSession.title session <> ""
        /\ JsString.trim (ChatSession.title session) = ChatSession.title session
        /\ ChatSession.updatedAt session = now).
Proof.
  cbv zeta. unfold Chat.updateSessionTitle.
  destruct (String.eqb_spec sessionId "") as [-> | Hid]; cbn [orb].
  { split; [reflexivity | ]. do 3 (split; [reflexivity | ]).
    intros Hne. contradiction. }
  destruct (String.eqb_spec (JsString.trim newTitle) "") as [Hblank | Htitle].
  { split; [reflexivity | ]. do 3 (split; [reflexivity | ]).
    intros _ Hnot. exfalso. apply Hnot. now apply trim_blank. }
  split; [ | split; [ | split; [ | split]]].
  - intros [E | Hblank]; [contradiction | ]. apply trim_blank in Hblank. contradiction.
  - apply others_map; intros s Hs; rewrite Hs; [reflexivity | exact Hs].
  - apply ids_map. intros s. now destruct (String.eqb _ _).
  - rewrite map_map. apply map_ext. intros s. now destruct (String.eqb _ _).
  - intros _ _ session Hin Hsid. apply in_map_iff in Hin as (s & <- & _).
    destruct (String.eqb_spec (ChatSession.id s) sessionId) as [Hs | Hs].
    + cbn. repeat split; auto. apply trim_idempotent.
    + contradiction.
Qed.

(* --------------------------------------------------------------------- *)
(** ** The progress statistics *)
(* --------------------------------------------------------------------- *)

Lemma existsb_eqb_In item (set : list string) :
  existsb (String.eqb item) set = true <-> In item set.
Proof.
  rewrite existsb_exists. split.
  - intros (x & Hin & Heq). apply String.eqb_eq in Heq. now subst.
  - intros Hin. exists item. split; [exact Hin | apply String.eqb_refl].
Qed.

(** Adding [items] to a set that holds [set] already. *)
Lemma Set_add_all items :
  forall set,
    List.NoDup set ->
    let result :=
      fold_left
        (fun set item => if existsb (String.eqb item) set then set else set ++ [item])
        items set in
    List.NoDup result
    /\ (forall x, In x result <-> In x set \/ In x items)
    /\ exists added, result = set ++ added
                     /\ (List.length added <= List.length items)%nat.
Proof.
  induction items as [ | item items IH]; intros set Hset; cbn [fold_left].
  - split; [exact Hset | split].
    + intros x. cbn [In]. tauto.
    + exists []. now rewrite app_nil_r.
  - destruct (existsb (String.eqb item) set) eqn:Hin.
    + apply existsb_eqb_In in Hin.
      destruct (IH set Hset) as (Hn & Hiff & added & Hadd & Hlen).
      split; [exact Hn | split].
      * intros x. rewrite Hiff. cbn [In]. intuition (subst; auto).
      * exists added. split; [exact Hadd | cbn [List.length]; lia].
    + assert (Hnot : ~ In item set).
      { intros Hi. apply existsb_eqb_In in Hi. congruence. }
      assert (Hset' : List.NoDup (set ++ [item])).
      { apply List.NoDup_app; [exact Hset | | ].
        - repeat constructor. intros [].
        - intros x Hx [<- | []]. contradiction. }
      destruct (IH (set ++ [item]) Hset') as (Hn & Hiff & added & Hadd & Hlen).
      split; [exact Hn | split].
      * intros x. rewrite Hiff, in_app_iff. cbn [In]. intuition.
      * exists (item :: added). split.
        -- rewrite Hadd, <- app_assoc. reflexivity.
        -- cbn [List.length]. lia.
Qed.

Lemma Set_add_known items :
  forall set,
    (forall x, In x items -> In x set) ->
    fold_left
      (fun set item => if existsb (String.eqb item) set then set else set ++ [item])
      items set
    = set.
Proof.
  induction items as [ | item items IH]; intros set Hall; cbn [fold_left];
    [reflexivity | ].
  assert (Hin : existsb (String.eqb item) set = true).
  { apply existsb_eqb_In, Hall. now left. }
  rewrite Hin. apply IH. intros x Hx. apply Hall. now right.
Qed.

Lemma Set_add_distinct items :
  forall set,
    List.NoDup (set ++ items) ->
    fold_left
      (fun set item => if existsb (String.eqb item) set then set else set ++ [item])
      items set
    = set ++ items.
Proof.
  induction items as [ | item items IH]; intros set Hn; cbn [fold_left].
  - now rewrite app_nil_r.
  - assert (Hnot : existsb (String.eqb item) set = false).
    { apply not_true_is_false. intros Hi. apply existsb_eqb_In in Hi.
      apply List.NoDup_remove_2 in Hn. apply Hn, in_or_app. now left. }
    rewrite Hnot.
    replace (set ++ item :: items) with ((set ++ [item]) ++ items) in *
      by (now rewrite <- app_assoc).
    now apply IH.
Qed.

Lemma Set_toArray_app (known items : list string) :
  List.NoDup (Progress.Set_toArray (known ++ items))
  /\ (forall x, In x (Progress.Set_toArray (known ++ items)) <-> In x known \/ In x items)
  /\ (List.length (Progress.Set_toArray (known ++ items))
      <= List.length known + List.length items)%nat
  /\ (List.NoDup known ->
      exists added, Progress.Set_toArray (known ++ items) = known ++ added)
  /\ Progress.Set_toArray (Progress.Set_toArray (known ++ items) ++ items)
     = Progress.Set_toArray (known ++ items).
Proof.
  unfold Progress.Set_toArray.
  destruct (Set_add_all (known ++ items) [] (List.NoDup_nil _))
    as (Hn & Hiff & added & Hadd & Hlen).
  cbv zeta in *.
  split; [exact Hn | split; [ | split; [ | split]]].
  - intros x. rewrite Hiff, in_app_iff. cbn [In]. tauto.
  - rewrite Hadd. cbn [app]. rewrite length_app in Hlen. exact Hlen.
  - intros Hknown. rewrite fold_left_app.
    rewrite (Set_add_distinct known []) by exact Hknown. cbn [app].
    destruct (Set_add_all items known Hknown) as (_ & _ & added' & Hadd' & _).
    now exists added'.
  - rewrite fold_left_app.
    rewrite (Set_add_distinct _ []) by exact Hn. cbn [app].
    apply Set_add_known. intros x Hx. apply Hiff. right. apply in_or_app. now right.
Qed.

(** X22. The statistics that the updater of a successful send gives.
    The list of topics has no
    duplicates; it holds exactly the topics known before and the
    keywords of the message, so that it grows by ten entries at most;
    when the known topics were distinct they keep their places and the
    new ones follow. The count of messages grows by two, the count of
    sessions stays. A subject that is given is among the favourite
    subjects afterwards, listed once; without a subject that list is
    not touched. Counting the same message again changes the topics no
    more. *)
Theorem countExchange_collects_topics
    (content : string) (subject : option string) (today : string)
    (prev : ProgressStats.t) :
  let next := Progress.countExchange content subject today prev in
  let topics := ProgressStats.topicsExplored next in
  List.NoDup topics
  /\ (forall topic,
         In topic topics
         <-> In topic (ProgressStats.topicsExplored prev)
             \/ In topic (Utils.extractKeywords content))
  /\ (List.length topics <= List.length (ProgressStats.topicsExplored prev) + 10)%nat
  /\ (List.NoDup (ProgressStats.topicsExplored prev) ->
      exists added, topics = ProgressStats.topicsExplored prev ++ added)
  /\ ProgressStats.totalMessages next = ProgressStats.totalMessages prev + 2
  /\ ProgressStats.totalSessions next = ProgressStats.totalSessions prev
  /\ (forall s, subject = Some s -> s <> "" ->
                List.NoDup (ProgressStats.favoriteSubjects next)
                /\ forall x, In x (ProgressStats.favoriteSubjects next)
                             <-> In x (ProgressStats.favoriteSubjects prev) \/ x = s)
  /\ (subject = None \/ subject = Some "" ->
      ProgressStats.favoriteSubjects next = ProgressStats.favoriteSubjects prev)
  /\ ProgressStats.topicsExplored (Progress.countExchange content subject today next)
     = topics.
Proof.
  cbv zeta. unfold Progress.countExchange. cbn [ProgressStats.topicsExplored
    ProgressStats.totalMessages ProgressStats.totalSessions
    ProgressStats.favoriteSubjects].
  destruct (Set_toArray_app (ProgressStats.topicsExplored prev)
              (Utils.extractKeywords content)) as (Hn & Hiff & Hlen & Hkeep & Hidem).
  split; [exact Hn | split; [exact Hiff | split; [ | split; [exact Hkeep | ]]]].
  - assert (Hten : (List.length (Utils.extractKeywords content) <= 10)%nat).
    { unfold Utils.extractKeywords. rewrite length_firstn. lia. }
    lia.
  - split; [reflexivity | split; [reflexivity | split; [ | split; [ | exact Hidem]]]].
    + intros s -> Hs. cbn [truthy_string default].
      destruct (String.eqb_spec s "") as [E | _]; [contradiction | ]. cbn [negb].
      destruct (Set_toArray_app (ProgressStats.favoriteSubjects prev) [s])
        as (Hn' & Hiff' & _).
      split; [exact Hn' | ]. intros x. rewrite Hiff'. cbn [In].
      intuition congruence.
    + intros [-> | ->]; reflexivity.
Qed.

(* --------------------------------------------------------------------- *)
(** ** Texts: truncation, reading time, the alphabet of the keywords *)
(* --------------------------------------------------------------------- *)

Lemma substring_0_le (s : string) (n : nat) :
  (String.length (String.substring 0 n s) <= n)%nat.
Proof.
  revert s. induction n as [ | n IH]; intros [ | c s]; cbn; try lia.
  specialize (IH s). lia.
Qed.

Lemma string_of_list_ascii_app (a b : list ascii) :
  string_of_list_ascii (a ++ b) = string_of_list_ascii a +:+ string_of_list_ascii b.
Proof.
  induction a as [ | c a IH]; [reflexivity | ].
  cbn [app string_of_list_ascii]. now rewrite IH.
Qed.

Lemma substring_0_split (s : string) (n : nat) :
  exists rest, s = String.substring 0 n s +:+ rest.
Proof.
  revert n. induction s as [ | c s IH]; intros [ | n].
  - now exists "".
  - now exists "".
  - now exists (String c s).
  - destruct (IH n) as (rest & E). exists rest. cbn [String.substring].
    change (String c (String.substring 0 n s) +:+ rest)
      with (String c (String.substring 0 n s +:+ rest)).
    now rewrite <- E.
Qed.

(** The white space that [trim] removes, at both ends. *)
Lemma trim_split (s : string) :
  exists lead trail,
    s = lead +:+ JsString.trim s +:+ trail /\ isBlank lead /\ isBlank trail.
Proof.
  unfold JsString.trim, JsString.trim_chars.
  destruct (trimStart_chars_split (list_ascii_of_string s)) as (lead & Hlead & E1).
  destruct (trimStart_chars_split
              (rev (JsString.trimStart_chars (list_ascii_of_string s))))
    as (trail & Htrail & E2).
  apply (f_equal (@rev _)) in E2. rewrite rev_involutive, rev_app_distr in E2.
  exists (string_of_list_ascii lead), (string_of_list_ascii (rev trail)).
  split; [ | split].
  - rewrite <- !string_of_list_ascii_app, <- E2, <- E1.
    now rewrite string_of_list_ascii_of_string.
  - unfold isBlank. now rewrite list_ascii_of_string_of_list_ascii.
  - unfold isBlank. rewrite list_ascii_of_string_of_list_ascii.
    now apply Forall_rev.
Qed.

Lemma isTrimmed_trim (s : string) : isTrimmed (JsString.trim s).
Proof.
  unfold isTrimmed, JsString.trim. rewrite list_ascii_of_string_of_list_ascii.
  destruct (trim_chars_cases (list_ascii_of_string s))
    as [-> | (c & middle & -> & Hc & Hlast)]; [exact I | now split].
Qed.

(** X23. [truncateText] returns a text of at most [maxLength]
    characters as it is. Of a longer text, when [maxLength] is not
    negative, it takes the first [maxLength] characters, removes the
    white space at their two ends, and puts three dots after what is
    left, so that the result has at most [maxLength + 3] characters and
    no white space stands before the dots. When [maxLength] is negative
    the result is the three dots alone. The label of a session in the
    sidebar, which is the title made from the first message truncated
    to 30, has at most 33 characters. *)
Theorem truncateText_bounds (text : string) (maxLength : Z) :
  let out := Utils.truncateText text maxLength in
  (Z.of_nat (String.length text) <= maxLength -> out = text)
  /\ (0 <= maxLength < Z.of_nat (String.length text) ->
      exists lead kept trail rest,
        text = (lead +:+ kept +:+ trail) +:+ rest
        /\ Z.of_nat (String.length (lead +:+ kept +:+ trail)) = maxLength
        /\ isBlank lead /\ isBlank trail /\ isTrimmed kept
        /\ out = kept +:+ "..."
        /\ Z.of_nat (String.length out) <= maxLength + 3)
  /\ (maxLength < 0 -> out = "...")
  /\ Z.of_nat (String.length out) <= Z.max 0 maxLength + 3
  /\ (forall content,
         (String.length (Utils.truncateText (Chat.titleOf content) 30) <= 33)%nat).
Proof.
  assert (Hbound : forall text maxLength,
             Z.of_nat (String.length (Utils.truncateText text maxLength))
             <= Z.max 0 maxLength + 3).
  { intros t m. unfold Utils.truncateText.
    destruct (Z.leb_spec (Z.of_nat (String.length t)) m) as [Hle | Hlong]; [lia | ].
    rewrite string_length_append. change (String.length "...") with 3%nat.
    pose proof (trim_length (String.substring 0 (Z.to_nat m) t)) as H1.
    pose proof (substring_0_le t (Z.to_nat m)) as H2. lia. }
  cbv zeta. split; [ | split; [ | split; [ | split; [apply Hbound | ]]]].
  - intros Hle. unfold Utils.truncateText. apply Z.leb_le in Hle. now rewrite Hle.
  - intros [Hpos Hlong]. unfold Utils.truncateText.
    destruct (Z.leb_spec (Z.of_nat (String.length text)) maxLength) as [Hle | _];
      [lia | ].
    set (cut := String.substring 0 (Z.to_nat maxLength) text).
    destruct (trim_split cut) as (lead & trail & Ecut & Hlead & Htrail).
    destruct (substring_0_split text (Z.to_nat maxLength)) as (rest & Etext).
    fold cut in Etext.
    assert (Hlen : Z.of_nat (String.length cut) = maxLength).
    { unfold cut. rewrite substring_0_length. lia. }
    exists lead, (JsString.trim cut), trail, rest.
    rewrite <- Ecut.
    split; [exact Etext | split; [exact Hlen | ]].
    split; [exact Hlead | split; [exact Htrail | split; [apply isTrimmed_trim | ]]].
    split; [reflexivity | ].
    rewrite string_length_append. change (String.length "...") with 3%nat.
    pose proof (trim_length cut) as H1. lia.
  - intros Hneg. unfold Utils.truncateText.
    destruct (Z.leb_spec (Z.of_nat (String.length text)) maxLength) as [Hle | _];
      [lia | ].
    replace (Z.to_nat maxLength) with 0%nat by lia.
    now destruct text.
  - intros content. specialize (Hbound (Chat.titleOf content) 30). lia.
Qed.

Lemma truncateText_bounds_witness :
  (exists lead kept trail rest,
      "  hello world" = (lead +:+ kept +:+ trail) +:+ rest
      /\ Z.of_nat (String.length (lead +:+ kept +:+ trail)) = 8
      /\ isBlank lead /\ isBlank trail /\ isTrimmed kept
      /\ Utils.truncateText "  hello world" 8 = kept +:+ "..."
      /\ Z.of_nat (String.length (Utils.truncateText "  hello world" 8)) <= 8 + 3)
  /\ Utils.truncateText "  hello world" 8 = "hello..."
  /\ Utils.truncateText "abc" 3 = "abc"
  /\ Utils.truncateText "abc" (-2) = "...".
Proof.
  split; [ | split; [ | split]].
  - destruct (truncateText_bounds "  hello world" 8) as (_ & Hcut & _).
    apply Hcut. cbn. lia.
  - vm_compute. reflexivity.
  - destruct (truncateText_bounds "abc" 3) as (Hshort & _).
    apply Hshort. cbn. lia.
  - destruct (truncateText_bounds "abc" (-2)) as (_ & _ & Hneg & _).
    apply Hneg. lia.
Defined.

Lemma splitLoop_nonempty s : forall inRun piece, Utils.splitLoop inRun piece s <> [].
Proof.
  induction s as [ | c r IH]; intros inRun piece; cbn [Utils.splitLoop]; [discriminate | ].
  destruct (JsString.is_space c); [destruct inRun | ]; [apply IH | discriminate | apply IH].
Qed.

(** No piece is empty when the text ends with a character that is not
    white space and, at the start of a piece, does not begin with white
    space either. *)
Lemma splitLoop_no_empty_piece front d :
  JsString.is_space d = false ->
  forall inRun piece,
    (piece = [] -> inRun = false ->
     match front with
     | [] => True
     | c :: _ => JsString.is_space c = false
     end) ->
    Forall (fun p => isEmpty p = false) (Utils.splitLoop inRun piece (front ++ [d])).
Proof.
  intros Hd. induction front as [ | c front IH]; intros inRun piece Hstart.
  - cbn [app Utils.splitLoop]. rewrite Hd. cbn [Utils.splitLoop].
    repeat constructor. now destruct piece.
  - cbn [app Utils.splitLoop]. destruct (JsString.is_space c) eqn:Hc.
    + destruct inRun.
      * apply IH. discriminate.
      * constructor.
        -- destruct piece; [ | reflexivity]. specialize (Hstart eq_refl eq_refl).
           congruence.
        -- apply IH. discriminate.
    + apply IH. intros E. now destruct piece.
Qed.

Lemma filter_all {A : Type} (f : A -> bool) (l : list A) :
  Forall (fun x => f x = true) l -> List.filter f l = l.
Proof.
  induction 1 as [ | x l Hx _ IH]; [reflexivity | ].
  cbn. now rewrite Hx, IH.
Qed.

Lemma wordsLoop_trailing blanks :
  Forall (fun c => JsString.is_space c = true) blanks ->
  forall s piece, wordsLoop piece (s ++ blanks) = wordsLoop piece s.
Proof.
  intros Hblanks.
  assert (Hbase : forall piece, wordsLoop piece blanks = wordsLoop piece []).
  { induction Hblanks as [ | c blanks Hc _ IH]; intros piece; [reflexivity | ].
    cbn [wordsLoop]. rewrite Hc. destruct piece; rewrite IH; reflexivity. }
  induction s as [ | c s IH]; intros piece; cbn [app]; [apply Hbase | ].
  cbn [wordsLoop]. destruct (JsString.is_space c); [destruct piece | ]; now rewrite IH.
Qed.

Lemma wordsLoop_trimStart s :
  wordsLoop [] (JsString.trimStart_chars s) = wordsLoop [] s.
Proof.
  induction s as [ | c s IH]; [reflexivity | ].
  cbn [JsString.trimStart_chars wordsLoop].
  destruct (JsString.is_space c) eqn:Hc; [exact IH | ].
  cbn [wordsLoop]. now rewrite Hc.
Qed.

Lemma wordsLoop_trim s : wordsLoop [] (JsString.trim_chars s) = wordsLoop [] s.
Proof.
  unfold JsString.trim_chars.
  destruct (trimStart_chars_split (rev (JsString.trimStart_chars s)))
    as (blanks & Hblanks & E).
  apply (f_equal (@rev _)) in E. rewrite rev_involutive, rev_app_distr in E.
  set (t := rev (JsString.trimStart_chars (rev (JsString.trimStart_chars s)))) in *.
  rewrite <- (wordsLoop_trimStart s), E. symmetry. apply wordsLoop_trailing.
  apply Forall_rev. exact Hblanks.
Qed.

(** After [trim] the pieces of the split are the words, but for an
    empty text, which gives one empty piece. *)
Lemma split_trim_length s :
  List.length (Utils.splitLoop false [] (JsString.trim_chars s))
  = Nat.max 1 (List.length (wordsLoop [] s)).
Proof.
  rewrite <- (wordsLoop_trim s).
  destruct (trim_chars_cases s) as [-> | (c & middle & -> & Hc & Hlast)]; [reflexivity | ].
  destruct (exists_last (l := c :: middle) ltac:(discriminate)) as (front & d & Efront).
  rewrite Efront in Hlast |- *. rewrite last_last in Hlast.
  pose proof (splitLoop_no_empty_piece front d Hlast false []) as Hpieces.
  assert (Hstart : match front with
                   | [] => True
                   | a :: _ => JsString.is_space a = false
                   end).
  { destruct front as [ | a front]; [exact I | ].
    cbn [app] in Efront. injection Efront as <- _. exact Hc. }
  specialize (Hpieces (fun _ _ => Hstart)).
  rewrite <- (splitLoop_words (front ++ [d]) false []) by discriminate.
  rewrite filter_all.
  - pose proof (splitLoop_nonempty (front ++ [d]) false []) as Hne.
    destruct (Utils.splitLoop false [] (front ++ [d])); [contradiction | ].
    cbn [List.length]. lia.
  - eapply List.Forall_impl; [ | exact Hpieces]. cbn. intros p ->. reflexivity.
Qed.

(** X24. [calculateReadingTime] gives the number of words of the text,
    counted as the longest runs of characters without white space,
    divided by 200 and rounded up, with an empty or blank text counted
    as one word: the result is never below one minute. *)
Theorem calculateReadingTime_counts_words (text : string) :
  let n := Z.of_nat (List.length (words (list_ascii_of_string text))) in
  Utils.calculateReadingTime text = Utils.ceilDiv (Z.max 1 n) 200
  /\ 1 <= Utils.calculateReadingTime text
  /\ (n <= 200 -> Utils.calculateReadingTime text = 1)
  /\ 200 * (Utils.calculateReadingTime text - 1) < Z.max 1 n
     <= 200 * Utils.calculateReadingTime text.
Proof.
  cbv zeta.
  assert (E : Utils.calculateReadingTime text
              = Utils.ceilDiv
                  (Z.max 1 (Z.of_nat (List.length (words (list_ascii_of_string text)))))
                  200).
  { unfold Utils.calculateReadingTime, Utils.splitWhitespace, JsString.trim, words.
    rewrite list_ascii_of_string_of_list_ascii, !length_map, split_trim_length.
    f_equal. lia. }
  rewrite E. unfold Utils.ceilDiv.
  set (n := Z.max 1 (Z.of_nat (List.length (words (list_ascii_of_string text))))).
  assert (Hn : 1 <= n) by (subst n; lia).
  pose proof (Z.div_mod (- n) 200 ltac:(lia)) as Hdiv.
  pose proof (Z.mod_pos_bound (- n) 200 ltac:(lia)) as Hmod.
  repeat split; lia.
Qed.

Lemma lower_word_char c :
  JsString.is_word (JsString.lower_char c) = true ->
  isKeywordChar (JsString.lower_char c) = true.
Proof.
  destruct c as [[] [] [] [] [] [] [] []]; vm_compute; intros H;
    first [reflexivity | discriminate H].
Qed.

Lemma splitLoop_chars s :
  forall inRun piece p c,
    In p (Utils.splitLoop inRun piece s) ->
    In c p ->
    In c piece \/ (In c s /\ JsString.is_space c = false).
Proof.
  induction s as [ | a s IH]; intros inRun piece p c Hp Hc; cbn [Utils.splitLoop] in Hp.
  - destruct Hp as [<- | []]. now left.
  - destruct (JsString.is_space a) eqn:Ha.
    + destruct inRun.
      * destruct (IH _ _ _ _ Hp Hc) as [H | [H1 H2]]; [now left | right].
        split; [now right | exact H2].
      * destruct Hp as [<- | Hp]; [now left | ].
        destruct (IH _ _ _ _ Hp Hc) as [[] | [H1 H2]]. right.
        split; [now right | exact H2].
    + destruct (IH _ _ _ _ Hp Hc) as [H | [H1 H2]].
      * apply in_app_or in H as [H | [<- | []]]; [now left | right].
        split; [now left | exact Ha].
      * right. split; [now right | exact H2].
Qed.

(** The text is lower-cased and stripped before it is split, and the
    split leaves no white space in a piece. *)
Lemma keywords_chars (text word : string) (c : ascii) :
  In word (List.filter Utils.keep
             (Utils.splitWhitespace
                (Utils.stripNonWord
                   (JsString.toLowerCase_chars (list_ascii_of_string text))))) ->
  In c (list_ascii_of_string word) ->
  isKeywordChar c = true.
Proof.
  intros Hin Hc. apply List.filter_In in Hin as [Hsplit _].
  unfold Utils.splitWhitespace in Hsplit.
  apply in_map_iff in Hsplit as (piece & <- & Hpiece).
  rewrite list_ascii_of_string_of_list_ascii in Hc.
  destruct (splitLoop_chars _ _ _ _ _ Hpiece Hc) as [[] | [Hstripped Hspace]].
  unfold Utils.stripNonWord in Hstripped.
  apply List.filter_In in Hstripped as [Hlower Hclass].
  rewrite Hspace, orb_false_r in Hclass.
  unfold JsString.toLowerCase_chars in Hlower.
  apply in_map_iff in Hlower as (c0 & <- & _).
  now apply lower_word_char.
Qed.

(** X25. The alphabet of the keywords. Whatever the text, every
    keyword that [extractKeywords] returns is made of lower-case
    letters [a] to [z], digits and underscores only: it holds no
    capital, no punctuation, no white space and no character outside
    ASCII. *)
Theorem extractKeywords_alphabet (text : string) :
  Forall (fun word =>
            Forall (fun c => isKeywordChar c = true) (list_ascii_of_string word))
         (Utils.extractKeywords text).
Proof.
  apply List.Forall_forall. intros word Hin.
  unfold Utils.extractKeywords in Hin.
  assert (Hin' : In word (List.filter Utils.keep
                   (Utils.splitWhitespace
                      (Utils.stripNonWord
                         (JsString.toLowerCase_chars (list_ascii_of_string text)))))).
  { rewrite <- (firstn_skipn 10 (List.filter _ _)). apply in_or_app. now left. }
  apply List.Forall_forall. intros c Hc. exact (keywords_chars text word c Hin' Hc).
Qed.

Lemma keywordChar_fixed c :
  isKeywordChar c = true ->
  JsString.lower_char c = c /\ JsString.is_word c = true /\ JsString.is_space c = false.
Proof.
  destruct c as [[] [] [] [] [] [] [] []]; vm_compute; intros H;
    first [discriminate H | repeat split].
Qed.

Lemma splitLoop_word w :
  Forall (fun c => JsString.is_space c = false) w ->
  forall inRun piece r,
    Utils.splitLoop inRun piece (w ++ r)
    = match w with
      | [] => Utils.splitLoop inRun piece r
      | _ :: _ => Utils.splitLoop false (piece ++ w) r
      end.
Proof.
  induction 1 as [ | c w Hc _ IH]; intros inRun piece r; [reflexivity | ].
  cbn [app Utils.splitLoop]. rewrite Hc, IH.
  destruct w as [ | d w]; [reflexivity | ].
  now rewrite <- app_assoc.
Qed.

(** The words of a text made of words joined by single spaces. *)
Lemma split_joined (ws : list string) :
  Forall (fun w => w <> ""
                   /\ Forall (fun c => JsString.is_space c = false)
                             (list_ascii_of_string w)) ws ->
  ws <> [] ->
  Utils.splitWhitespace (list_ascii_of_string (String.concat " " ws)) = ws.
Proof.
  unfold Utils.splitWhitespace.
  induction 1 as [ | w ws [Hw Hchars] Hws IH]; intros Hne; [contradiction | ].
  assert (Hhead : exists c cs, list_ascii_of_string w = c :: cs).
  { destruct w as [ | c w]; [contradiction | ]. cbn. eauto. }
  destruct Hhead as (c & cs & Ew).
  destruct ws as [ | w2 ws].
  - cbn [String.concat]. rewrite <- (app_nil_r (list_ascii_of_string w)).
    rewrite (splitLoop_word _ Hchars), Ew. cbn [app Utils.splitLoop map].
    now rewrite <- Ew, string_of_list_ascii_of_string.
  - change (String.concat " " (w :: w2 :: ws))
      with (w +:+ " " +:+ String.concat " " (w2 :: ws)).
    rewrite !list_ascii_of_string_append.
    rewrite (splitLoop_word _ Hchars), Ew. cbn [app].
    change (list_ascii_of_string " ") with [" "%char].
    cbn [app Utils.splitLoop]. change (JsString.is_space " ") with true. cbn iota.
    cbn [map]. rewrite <- Ew, string_of_list_ascii_of_string. f_equal.
    specialize (IH ltac:(discriminate)). rewrite <- IH at 2.
    f_equal.
    inversion Hws as [ | ? ? [Hw2 Hchars2] _]; subst.
    destruct w2 as [ | c2 w2]; [contradiction | ].
    assert (Hc2 : JsString.is_space c2 = false) by (now inversion Hchars2).
    destruct ws as [ | w3 ws].
    + cbn [String.concat list_ascii_of_string Utils.splitLoop]. now rewrite Hc2.
    + change (String.concat " " (String c2 w2 :: w3 :: ws))
        with (String c2 (w2 +:+ " " +:+ String.concat " " (w3 :: ws))).
      cbn [list_ascii_of_string Utils.splitLoop]. now rewrite Hc2.
Qed.

(** X30. Extracting keywords is idempotent: the keywords of the
    keywords of a text, joined by single spaces, are those keywords
    again, in the same order. *)
Theorem extractKeywords_idempotent (text : string) :
  Utils.extractKeywords (String.concat " " (Utils.extractKeywords text))
  = Utils.extractKeywords text.
Proof.
  set (kw := Utils.extractKeywords text).
  assert (Hkw : Forall (fun w => Utils.keep w = true
                                 /\ Forall (fun c => isKeywordChar c = true)
                                           (list_ascii_of_string w)) kw).
  { apply List.Forall_forall. intros word Hin. subst kw.
    unfold Utils.extractKeywords in Hin.
    assert (Hin' : In word (List.filter Utils.keep
                     (Utils.splitWhitespace
                        (Utils.stripNonWord
                           (JsString.toLowerCase_chars (list_ascii_of_string text)))))).
    { rewrite <- (firstn_skipn 10 (List.filter _ _)). apply in_or_app. now left. }
    split.
    - now apply List.filter_In in Hin' as [_ Hkeep].
    - apply List.Forall_forall. intros c Hc. exact (keywords_chars text word c Hin' Hc). }
  assert (Hlen : (List.length kw <= 10)%nat).
  { subst kw. unfold Utils.extractKeywords. rewrite length_firstn. lia. }
  clearbody kw. unfold Utils.extractKeywords.
  assert (Hchars : Forall (fun c => isKeywordChar c = true \/ c = " "%char)
                          (list_ascii_of_string (String.concat " " kw))).
  { clear Hlen. induction Hkw as [ | w ws [_ Hw] _ IH]; [constructor | ].
    destruct ws as [ | w2 ws].
    - cbn [String.concat]. eapply List.Forall_impl; [ | exact Hw]. cbn. auto.
    - change (String.concat " " (w :: w2 :: ws))
        with (w +:+ " " +:+ String.concat " " (w2 :: ws)).
      rewrite !list_ascii_of_string_append. apply Forall_app. split.
      + eapply List.Forall_impl; [ | exact Hw]. cbn. auto.
      + apply Forall_app. split; [repeat constructor; now right | exact IH]. }
  assert (Hlower : JsString.toLowerCase_chars
                     (list_ascii_of_string (String.concat " " kw))
                   = list_ascii_of_string (String.concat " " kw)).
  { unfold JsString.toLowerCase_chars.
    induction Hchars as [ | c s Hc _ IH]; [reflexivity | ].
    cbn [map]. rewrite IH. f_equal.
    destruct Hc as [Hc | ->]; [now apply keywordChar_fixed | reflexivity]. }
  assert (Hstrip : Utils.stripNonWord (list_ascii_of_string (String.concat " " kw))
                   = list_ascii_of_string (String.concat " " kw)).
  { unfold Utils.stripNonWord. apply filter_all.
    eapply List.Forall_impl; [ | exact Hchars]. cbn. intros c [Hc | ->].
    - apply keywordChar_fixed in Hc as (_ & -> & _). reflexivity.
    - reflexivity. }
  rewrite Hlower, Hstrip.
  destruct kw as [ | w ws]; [reflexivity | ].
  rewrite split_joined; [ | | discriminate].
  - rewrite filter_all.
    + apply firstn_all2. exact Hlen.
    + eapply List.Forall_impl; [ | exact Hkw]. cbn. tauto.
  - eapply List.Forall_impl; [ | exact Hkw]. cbn. intros word [Hkeep Hword]. split.
    + intros ->. discriminate Hkeep.
    + eapply List.Forall_impl; [ | exact Hword]. cbn. intros c Hc.
      now apply keywordChar_fixed in Hc.
Qed.

(* --------------------------------------------------------------------- *)
(** ** A send of a new text into the current session *)
(* --------------------------------------------------------------------- *)

(** X26. A send into the current session of a text that no user
    message of the session has yet, with a message id that is new to
    the session, appends exactly two messages: the user message, and
    after it the assistant's reply when the request gave one, or the
    apology marked as an error when it failed. The error of the state
    is set exactly when the request failed. *)
Theorem new_text_appends_message_and_reply
    (env : Chat.Env) (requestFn : nat -> Chat.FetchResult) (st : Chat.State)
    (content : string) (subject : option string) (difficulty : option DifficultyLevel)
    (session : ChatSession.t) :
  ~ isBlank content ->
  Chat.currentSession (Chat.sessions st) (Chat.currentSessionId st) = Some session ->
  Chat.hasUserMessage (Chat.userMessageOf env content) (ChatSession.messages session)
  = false ->
  let st' := fst (Chat.sendMessage env requestFn st content subject difficulty) in
  let userMessage := Chat.userMessageOf env content in
  let outcome :=
    fst (Chat.request requestFn (ChatSession.messages session ++ [userMessage])) in
  Chat.messagesOf (ChatSession.id session) (Chat.sessions st')
  = ChatSession.messages session
    ++ [userMessage;
        match outcome with
        | inl text => Message.mk (Chat.replyId env) text assistant
                        (Chat.replyTimestamp env) None None
        | inr _ => Message.mk (Chat.replyId env) Chat.APOLOGY assistant
                     (Chat.replyTimestamp env) None (Some true)
        end]
  /\ (Chat.error st' = None <-> exists text, outcome = inl text)
  /\ Chat.isLoading st' = false.
Proof.
  intros Hnot Hcur Hnew st' userMessage outcome. subst st' userMessage outcome.
  assert (Htrim : JsString.trim content <> "").
  { intros E. apply Hnot. now apply trim_blank. }
  split.
  - rewrite (sendMessage_current_session_messages env requestFn st content subject
               difficulty session Htrim Hcur).
    rewrite Hnew. reflexivity.
  - unfold Chat.sendMessage.
    destruct (String.eqb_spec (JsString.trim content) "") as [E | _]; [contradiction | ].
    unfold Chat.resolveSession. rewrite Hcur.
    destruct (Chat.request requestFn
                (ChatSession.messages session ++ [Chat.userMessageOf env content]))
      as [[text | apiError] events3]; cbn [fst Chat.error Chat.isLoading].
    + split; [ | reflexivity]. split; [eauto | reflexivity].
    + split; [ | reflexivity]. split; [discriminate | intros [text H]; discriminate H].
Qed.

Lemma new_text_appends_message_and_reply_witness :
  Chat.messagesOf "s2"
    (Chat.sessions
       (fst (Chat.sendMessage Samples.env (Samples.replies "4")
               (Chat.mkState Samples.collection (Some "s2") false None)
               "What is 2+2?" None None)))
  = [Samples.greeting; Samples.answer;
     Message.mk "m-new" "What is 2+2?" user 2000 None None;
     Message.mk "r-new" "4" assistant 3000 None None].
Proof.
  refine (proj1 (new_text_appends_message_and_reply Samples.env (Samples.replies "4")
                   (Chat.mkState Samples.collection (Some "s2") false None)
                   "What is 2+2?" None None Samples.talk _ _ _)).
  - intros Hblank. apply trim_blank in Hblank. vm_compute in Hblank. discriminate Hblank.
  - reflexivity.
  - reflexivity.
Defined.

(* --------------------------------------------------------------------- *)
(** ** Durations *)
(* --------------------------------------------------------------------- *)

(** A printed integer can be read off the front of a text. *)
Lemma print_Z_app_inj a b r1 r2 :
  delimited r1 -> delimited r2 ->
  Json.print_Z a ++ r1 = Json.print_Z b ++ r2 -> a = b /\ r1 = r2.
Proof.
  intros H1 H2. unfold Json.print_Z.
  assert (Hdash : forall n r r', "-"%char :: r <> Json.print_N n ++ r').
  { intros n r r' E. destruct (print_N_cons n) as (c & ds & Ec & Hc).
    rewrite Ec in E. cbn [app] in E. injection E as <- _. discriminate Hc. }
  assert (Hnum : forall n m, Json.print_N n ++ r1 = Json.print_N m ++ r2 ->
                             n = m /\ r1 = r2).
  { intros n m E. pose proof (parse_N_print n r1 H1) as Pn.
    rewrite E, (parse_N_print m r2 H2) in Pn. injection Pn as -> ->. now split. }
  destruct (Z.ltb_spec a 0) as [Ha | Ha], (Z.ltb_spec b 0) as [Hb | Hb]; cbn [app].
  - intros [= E]. apply Hnum in E as [E ->]. split; [lia | reflexivity].
  - intros E. now apply Hdash in E.
  - intros E. symmetry in E. now apply Hdash in E.
  - intros E. apply Hnum in E as [E ->]. split; [lia | reflexivity].
Qed.

Lemma ofZ_app_inj a b (r1 r2 : string) :
  delimited (list_ascii_of_string r1) -> delimited (list_ascii_of_string r2) ->
  JsString.ofZ a +:+ r1 = JsString.ofZ b +:+ r2 -> a = b /\ r1 = r2.
Proof.
  intros H1 H2 E. apply (f_equal list_ascii_of_string) in E.
  unfold JsString.ofZ in E.
  rewrite !list_ascii_of_string_append, !list_ascii_of_string_of_list_ascii in E.
  apply print_Z_app_inj in E as [-> E]; [ | assumption ..].
  split; [reflexivity | ].
  apply (f_equal string_of_list_ascii) in E.
  now rewrite !string_of_list_ascii_of_string in E.
Qed.

(** X27. Different durations are shown differently: [formatDuration]
    gives two different texts for two different numbers of minutes,
    whether it shows minutes, full hours, or hours and minutes. *)
Theorem formatDuration_distinguishes (minutes1 minutes2 : Z) :
  minutes1 <> minutes2 ->
  Utils.formatDuration minutes1 <> Utils.formatDuration minutes2.
Proof.
  intros Hne E. apply Hne. clear Hne. unfold Utils.formatDuration in E.
  destruct (Z.ltb_spec minutes1 60) as [H1 | H1], (Z.ltb_spec minutes2 60) as [H2 | H2].
  - apply ofZ_app_inj in E as [E _]; [exact E | | ];
      destruct (negb _); reflexivity.
  - destruct (Z.eqb_spec (minutes2 mod 60) 0) as [Hr | Hr].
    + apply ofZ_app_inj in E as [_ E];
        [ | destruct (negb _); reflexivity | destruct (negb _); reflexivity].
      destruct (negb _), (negb _); discriminate E.
    + apply ofZ_app_inj in E as [_ E]; [ | destruct (negb _); reflexivity | reflexivity].
      destruct (negb _); discriminate E.
  - destruct (Z.eqb_spec (minutes1 mod 60) 0) as [Hr | Hr].
    + apply ofZ_app_inj in E as [_ E];
        [ | destruct (negb _); reflexivity | destruct (negb _); reflexivity].
      destruct (negb _), (negb _); discriminate E.
    + apply ofZ_app_inj in E as [_ E]; [ | reflexivity | destruct (negb _); reflexivity].
      destruct (negb _); discriminate E.
  - pose proof (Z.div_mod minutes1 60 ltac:(lia)) as D1.
    pose proof (Z.div_mod minutes2 60 ltac:(lia)) as D2.
    destruct (Z.eqb_spec (minutes1 mod 60) 0) as [Hr1 | Hr1],
             (Z.eqb_spec (minutes2 mod 60) 0) as [Hr2 | Hr2].
    + apply ofZ_app_inj in E as [E _];
        [lia | destruct (negb _); reflexivity | destruct (negb _); reflexivity].
    + apply ofZ_app_inj in E as [_ E]; [ | destruct (negb _); reflexivity | reflexivity].
      destruct (negb _); discriminate E.
    + apply ofZ_app_inj in E as [_ E]; [ | reflexivity | destruct (negb _); reflexivity].
      destruct (negb _); discriminate E.
    + apply ofZ_app_inj in E as [Eh E]; [ | reflexivity | reflexivity].
      change ("h " +:+ JsString.ofZ (minutes1 mod 60) +:+ "m")
        with (String "h" (String " " (JsString.ofZ (minutes1 mod 60) +:+ "m"))) in E.
      change ("h " +:+ JsString.ofZ (minutes2 mod 60) +:+ "m")
        with (String "h" (String " " (JsString.ofZ (minutes2 mod 60) +:+ "m"))) in E.
      injection E as E.
      apply ofZ_app_inj in E as [Er _]; [lia | reflexivity | reflexivity].
Qed.

Lemma formatDuration_distinguishes_witness :
  Utils.formatDuration 60 <> Utils.formatDuration 61
  /\ Utils.formatDuration 61 = "1h 1m".
Proof.
  split; [ | reflexivity].
  apply formatDuration_distinguishes. discriminate.
Defined.

(* --------------------------------------------------------------------- *)
(** ** Clearing the sessions *)
(* --------------------------------------------------------------------- *)

Lemma size_insert_existing k v v' (m : gmap string string) :
  m !! k = Some v' ->
  (LocalStorage.size (<[k := v]> m) + String.length v'
   = LocalStorage.size m + String.length v)%nat.
Proof.
  intros Hk. rewrite <- (insert_delete_eq m k v).
  rewrite (size_insert_fresh k v (delete k m)) by apply lookup_delete_eq.
  rewrite <- (insert_delete_id m k v' Hk) at 2.
  rewrite (size_insert_fresh k v' (delete k m)) by apply lookup_delete_eq. lia.
Qed.

Lemma stringify_sessions_length (v : list ChatSession.t) :
  (2 <= String.length (JSON_stringify v))%nat.
Proof.
  unfold JSON_stringify, Json.stringify.
  rewrite string_length_list, list_ascii_of_string_of_list_ascii.
  cbn [toJSON Persistable_sessions]. rewrite print_JArr. cbn [List.length].
  destruct (map ChatSession_toJSON v) as [ | x [ | y l]]; cbn [print_elements];
    [cbn; lia | rewrite length_app; cbn; lia | rewrite length_app; cbn; lia].
Qed.

(** X28. Clearing the sessions clears the sessions only. The state has
    no session and no current session afterwards. In a store that can
    be used, is within its quota and holds the collection, the save
    that [setSessions([])] makes leaves the entry of every other key,
    the progress statistics and the bookmarks among them, as it was,
    and the next mount reads the empty collection. *)
Theorem clearAllSessions_keeps_other_data (st : Chat.State) (store : LocalStorage.t) :
  LocalStorage.denied store = false ->
  LocalStorage.items store !! SESSIONS_KEY = Some (JSON_stringify (Chat.sessions st)) ->
  (LocalStorage.size (LocalStorage.items store) <= LocalStorage.quota store)%nat ->
  let st' := Chat.clearAllSessions st in
  let saved :=
    setValue SESSIONS_KEY (mkHook (Chat.sessions st) true) (NewValue []) store in
  Chat.sessions st' = []
  /\ Chat.sessions st' = default (Chat.sessions st) (fst saved)
  /\ Chat.currentSession (Chat.sessions st') (Chat.currentSessionId st') = None
  /\ getInitialValue SESSIONS_KEY [] (snd saved) = ([] : list ChatSession.t)
  /\ (forall k, k <> SESSIONS_KEY ->
                LocalStorage.items (snd saved) !! k = LocalStorage.items store !! k).
Proof.
  intros Hdenied Hheld Hquota st' saved. subst st' saved.
  unfold Chat.clearAllSessions, setValue.
  cbn [Chat.sessions Chat.currentSessionId storedValue isMounted].
  destruct (decide (Chat.sessions st = [])) as [Hempty | Hsome].
  - rewrite Hempty in *.
    rewrite (nextStoredValue_same ([] : list ChatSession.t) (NewValue []) eq_refl).
    cbn [default fst snd].
    split; [reflexivity | split; [reflexivity | split; [reflexivity | split]]].
    + unfold getInitialValue, LocalStorage.getItem. rewrite Hdenied, Hheld.
      reflexivity.
    + reflexivity.
  - rewrite (nextStoredValue_changed Lawful_sessions (Chat.sessions st) (NewValue []))
      by (cbn [valueToStore]; congruence).
    cbn [valueToStore default fst snd].
    assert (Hfits : (LocalStorage.size
                       (<[SESSIONS_KEY := JSON_stringify ([] : list ChatSession.t)]>
                          (LocalStorage.items store))
                     <=? LocalStorage.quota store)%nat = true).
    { apply Nat.leb_le.
      pose proof (size_insert_existing SESSIONS_KEY
                    (JSON_stringify ([] : list ChatSession.t)) _ _ Hheld) as Hsize.
      pose proof (stringify_sessions_length (Chat.sessions st)) as Hlen.
      change (String.length (JSON_stringify ([] : list ChatSession.t))) with 2%nat in Hsize.
      lia. }
    unfold LocalStorage.setItem. rewrite Hdenied, Hfits.
    split; [reflexivity | split; [reflexivity | split; [reflexivity | split]]].
    + unfold getInitialValue, LocalStorage.getItem.
      cbn [LocalStorage.denied LocalStorage.items]. rewrite lookup_insert_eq.
      reflexivity.
    + intros k Hk. cbn [LocalStorage.items]. apply lookup_insert_ne. congruence.
Qed.

Lemma clearAllSessions_keeps_other_data_witness :
  let store :=
    LocalStorage.mk
      {[SESSIONS_KEY := JSON_stringify Samples.collection;
        PROGRESS_KEY :=
          JSON_stringify (ProgressStats.mk 1 2 0 ["algebra"] ["math"] 0 "2025-01-01")]}
      600 false in
  let st := Chat.mkState Samples.collection (Some "s2") false None in
  LocalStorage.items
    (snd (setValue SESSIONS_KEY (mkHook (Chat.sessions st) true) (NewValue []) store))
  !! PROGRESS_KEY
  = LocalStorage.items store !! PROGRESS_KEY.
Proof.
  cbv zeta.
  refine (proj2 (proj2 (proj2 (proj2
            (clearAllSessions_keeps_other_data
               (Chat.mkState Samples.collection (Some "s2") false None)
               (LocalStorage.mk
                  {[SESSIONS_KEY := JSON_stringify Samples.collection;
                    PROGRESS_KEY :=
                      JSON_stringify
                        (ProgressStats.mk 1 2 0 ["algebra"] ["math"] 0 "2025-01-01")]}
                  600 false) _ _ _)))) PROGRESS_KEY _).
  - reflexivity.
  - vm_compute. reflexivity.
  - apply Nat.leb_le. vm_compute. reflexivity.
  - discriminate.
Defined.

(* --------------------------------------------------------------------- *)
(** ** The system prompt *)
(* --------------------------------------------------------------------- *)

Lemma prefix_append (a b : string) : String.prefix a (a +:+ b) = true.
Proof.
  induction a as [ | c a IH]; [now destruct b | ].
  change (String c a +:+ b) with (String c (a +:+ b)).
  cbn [String.prefix]. destruct (ascii_dec c c) as [_ | Hne]; [exact IH | congruence].
Qed.

Lemma prefix_refl (a : string) : String.prefix a a = true.
Proof.
  induction a as [ | c a IH]; [reflexivity | ].
  cbn [String.prefix]. destruct (ascii_dec c c) as [_ | Hne]; [exact IH | congruence].
Qed.

Lemma prefix_trans_append (a b c : string) :
  String.prefix a b = true -> String.prefix a (b +:+ c) = true.
Proof.
  revert b. induction a as [ | x a IH]; intros b Hp.
  - now destruct (b +:+ c).
  - destruct b as [ | y b]; [discriminate Hp | ].
    change (String y b +:+ c) with (String y (b +:+ c)).
    cbn [String.prefix] in *. destruct (ascii_dec x y); [now apply IH | discriminate Hp].
Qed.

(** X29. The prompt that [generateContextualPrompt] makes always begins
    with the whole system prompt: the subject and the difficulty only
    add to it. A subject that is missing or empty, and a difficulty
    other than [beginner], [intermediate] and [advanced], add
    nothing. *)
Theorem contextual_prompt_extends_system_prompt (subject difficulty : option string) :
  String.prefix OpenRouter.SYSTEM_PROMPT
    (OpenRouter.generateContextualPrompt subject difficulty) = true
  /\ OpenRouter.generateContextualPrompt (Some "") difficulty
     = OpenRouter.generateContextualPrompt None difficulty
  /\ (difficulty <> Some "beginner" -> difficulty <> Some "intermediate" ->
      difficulty <> Some "advanced" ->
      OpenRouter.generateContextualPrompt subject difficulty
      = OpenRouter.generateContextualPrompt subject None)
  /\ OpenRouter.generateContextualPrompt None None = OpenRouter.SYSTEM_PROMPT.
Proof.
  split; [ | split; [reflexivity | split; [ | reflexivity]]].
  - unfold OpenRouter.generateContextualPrompt.
    assert (Hbase : String.prefix OpenRouter.SYSTEM_PROMPT
                      (if truthy_string subject then
                         OpenRouter.SYSTEM_PROMPT +:+ OpenRouter.LF +:+ OpenRouter.LF
                         +:+ "The student is currently studying "
                         +:+ default "" subject
                         +:+ ". Tailor your explanations to this subject area and use relevant examples."
                       else OpenRouter.SYSTEM_PROMPT) = true).
    { destruct (truthy_string subject); [apply prefix_append | apply prefix_refl]. }
    cbv zeta.
    destruct (truthy_string difficulty); [ | exact Hbase].
    repeat (destruct (String.eqb (default "" difficulty) _);
            [now apply prefix_trans_append | ]).
    exact Hbase.
  - intros Hb Hi Ha. unfold OpenRouter.generateContextualPrompt. cbv zeta.
    destruct difficulty as [d | ]; [ | reflexivity].
    change (default "" (Some d)) with d. cbn [truthy_string].
    destruct (negb (String.eqb d "")); [ | reflexivity].
    destruct (String.eqb_spec d "beginner") as [-> | _]; [contradiction | ].
    destruct (String.eqb_spec d "intermediate") as [-> | _]; [contradiction | ].
    destruct (String.eqb_spec d "advanced") as [-> | _]; [contradiction | ].
    reflexivity.
Qed.
